(** * ntfy broker: a shallow embedding of the HTTP server core

    The development follows [server/server.go], [server/visitor.go] and
    [util/util.go].  Go strings and byte slices are Rocq [string]s (sequences
    of bytes), [int] and [int64] values are [Z], maps are stdpp [gmap]s, and
    Go's [error] results are sums.  A [time.Time] is its wall-clock reading
    in nanoseconds since the Unix epoch together with its monotonic
    reading; every call of [time.Now()] in the source is an explicit
    argument of the embedded function, as are the other things a handler
    reads from its environment (random ids, limiter decisions, I/O
    errors). *)

From Stdlib Require Import ZArith String Ascii List Bool Lia.
From Stdlib Require DecimalString.
From stdpp Require Import base option list gmap strings.
Import ListNotations.

Local Open Scope string_scope.
Local Open Scope Z_scope.
Local Open Scope list_scope.

(** ** Go standard library functions the code calls *)

Module GoStd.

(** The white space of [strings.TrimSpace] within ASCII: tab, line feed,
    vertical tab, form feed, carriage return and space. *)
Definition isSpace (c : ascii) : bool :=
  let n := N_of_ascii c in
  ((9 <=? n) && (n <=? 13))%N || (n =? 32)%N.

Definition isUpper (c : ascii) : bool :=
  let n := N_of_ascii c in ((65 <=? n) && (n <=? 90))%N.

Definition toLowerAscii (c : ascii) : ascii :=
  if isUpper c then ascii_of_N (N_of_ascii c + 32) else c.

(** The letters A to Z of a string in lower case, as the canonical form of
    a header name takes them. *)
Fixpoint lowerASCII (s : string) : string :=
  match s with
  | EmptyString => EmptyString
  | String c r => String (toLowerAscii c) (lowerASCII r)
  end.

Definition isDigit (c : ascii) : bool :=
  let n := N_of_ascii c in ((48 <=? n) && (n <=? 57))%N.

Definition digitVal (c : ascii) : Z := Z.of_N (N_of_ascii c) - 48.

(** The digits of an unsigned decimal numeral, most significant first;
    [None] on any other byte. *)
Fixpoint parseDigits (acc : Z) (s : string) : option Z :=
  match s with
  | EmptyString => Some acc
  | String c r =>
      if isDigit c then parseDigits (10 * acc + digitVal c) r else None
  end.

Definition parseUnsigned (s : string) : option Z :=
  match s with
  | EmptyString => None
  | _ => parseDigits 0 s
  end.

(** [strconv.ParseInt(s, 10, 64)]: an optional sign, then one or more
    decimal digits; a value outside the int64 range is an error ([None]
    stands for a non-nil [err]). *)
Definition ParseInt (s : string) : option Z :=
  match s with
  | EmptyString => None
  | String "-" r =>
      match parseUnsigned r with
      | Some n => if n <=? 2 ^ 63 then Some (- n) else None
      | None => None
      end
  | String "+" r =>
      match parseUnsigned r with
      | Some n => if n <? 2 ^ 63 then Some n else None
      | None => None
      end
  | _ =>
      match parseUnsigned s with
      | Some n => if n <? 2 ^ 63 then Some n else None
      | None => None
      end
  end.

Definition isCont (c : ascii) : bool :=
  let n := N_of_ascii c in ((128 <=? n) && (n <=? 191))%N.

Definition inRange (lo hi : N) (c : ascii) : bool :=
  let n := N_of_ascii c in ((lo <=? n) && (n <=? hi))%N.

(** [utf8.Valid]: well-formed UTF-8 (no overlong forms, no surrogates,
    nothing above U+10FFFF). *)
Fixpoint utf8Valid (s : string) : bool :=
  match s with
  | EmptyString => true
  | String c0 r0 =>
      if (N_of_ascii c0 <? 128)%N then utf8Valid r0
      else match r0 with
      | EmptyString => false
      | String c1 r1 =>
          if inRange 194 223 c0 then isCont c1 && utf8Valid r1
          else match r1 with
          | EmptyString => false
          | String c2 r2 =>
              if inRange 224 239 c0 then
                (if (N_of_ascii c0 =? 224)%N then inRange 160 191 c1
                 else if (N_of_ascii c0 =? 237)%N then inRange 128 159 c1
                 else isCont c1)
                && isCont c2 && utf8Valid r2
              else match r2 with
              | EmptyString => false
              | String c3 r3 =>
                  inRange 240 244 c0
                  && (if (N_of_ascii c0 =? 240)%N then inRange 144 191 c1
                      else if (N_of_ascii c0 =? 244)%N then inRange 128 143 c1
                      else isCont c1)
                  && isCont c2 && isCont c3 && utf8Valid r3
              end
          end
      end
  end.

(** *** Runes *)

Definition byteZ (c : ascii) : Z := Z.of_N (N_of_ascii c).
Definition byteOf (n : Z) : ascii := ascii_of_N (Z.to_N n).

Definition RuneError : Z := 65533.
Definition MaxRune : Z := 1114111.

(** The second byte that may follow the first byte [c0] of a sequence of
    three and of four bytes ([utf8.acceptRanges]). *)
Definition second3 (c0 c1 : ascii) : bool :=
  if (N_of_ascii c0 =? 224)%N then inRange 160 191 c1
  else if (N_of_ascii c0 =? 237)%N then inRange 128 159 c1
  else isCont c1.

Definition second4 (c0 c1 : ascii) : bool :=
  if (N_of_ascii c0 =? 240)%N then inRange 144 191 c1
  else if (N_of_ascii c0 =? 244)%N then inRange 128 143 c1
  else isCont c1.

(** A sequence of two, three or four bytes that begins with [c0]: the rune
    and what follows it, if the sequence is complete and well formed. *)
Definition decodeMulti (c0 : ascii) (r0 : string) : option (Z * string) :=
  if inRange 194 223 c0 then
    match r0 with
    | String c1 r1 =>
        if isCont c1
        then Some ((byteZ c0 - 192) * 64 + (byteZ c1 - 128), r1)
        else None
    | _ => None
    end
  else if inRange 224 239 c0 then
    match r0 with
    | String c1 (String c2 r2) =>
        if second3 c0 c1 && isCont c2
        then Some ((byteZ c0 - 224) * 4096 + (byteZ c1 - 128) * 64
                   + (byteZ c2 - 128), r2)
        else None
    | _ => None
    end
  else if inRange 240 244 c0 then
    match r0 with
    | String c1 (String c2 (String c3 r3)) =>
        if second4 c0 c1 && isCont c2 && isCont c3
        then Some ((byteZ c0 - 240) * 262144 + (byteZ c1 - 128) * 4096
                   + (byteZ c2 - 128) * 64 + (byteZ c3 - 128), r3)
        else None
    | _ => None
    end
  else None.

(** [utf8.DecodeRuneInString]: the first rune of a string and what follows
    it.  A byte that does not begin a well-formed sequence is the rune
    U+FFFD of width one. *)
Definition decodeRune (s : string) : option (Z * string) :=
  match s with
  | EmptyString => None
  | String c0 r0 =>
      if (N_of_ascii c0 <? 128)%N then Some (byteZ c0, r0)
      else
        match decodeMulti c0 r0 with
        | Some x => Some x
        | None => Some (RuneError, r0)
        end
  end.

(** [utf8.EncodeRune]; a surrogate or a value out of range is written as
    U+FFFD. *)
Definition encode3 (r : Z) : string :=
  String (byteOf (224 + r / 4096))
    (String (byteOf (128 + (r / 64) mod 64)) (String (byteOf (128 + r mod 64)) "")).

Definition encodeRune (r : Z) : string :=
  if (0 <=? r) && (r <=? 127) then String (byteOf r) ""
  else if (128 <=? r) && (r <=? 2047) then
    String (byteOf (192 + r / 64)) (String (byteOf (128 + r mod 64)) "")
  else if (r <? 0) || (MaxRune <? r) || ((55296 <=? r) && (r <=? 57343)) then
    encode3 RuneError
  else if r <=? 65535 then encode3 r
  else
    String (byteOf (240 + r / 262144))
      (String (byteOf (128 + (r / 4096) mod 64))
         (String (byteOf (128 + (r / 64) mod 64)) (String (byteOf (128 + r mod 64)) ""))).

(** [strings.Map]: every rune of the string is replaced by its image, a
    negative image drops the rune; an invalid byte counts as U+FFFD.  The
    string has at most as many runes as bytes. *)
Fixpoint mapRunes (mapping : Z -> Z) (n : nat) (s : string) : string :=
  match n with
  | O => ""
  | S n' =>
      match decodeRune s with
      | None => ""
      | Some (r, rest) =>
          (if mapping r <? 0 then "" else encodeRune (mapping r))
          +:+ mapRunes mapping n' rest
      end
  end.

Definition Map (mapping : Z -> Z) (s : string) : string :=
  mapRunes mapping (String.length s) s.

(** *** White space *)

(** The white space of [unicode.IsSpace] outside ASCII, in UTF-8: U+0085
    and U+00A0 in two bytes; U+1680, U+2000 to U+200A, U+2028, U+2029,
    U+202F, U+205F and U+3000 in three. *)
Definition space2 (c0 c1 : ascii) : bool :=
  let n1 := N_of_ascii c1 in
  ((N_of_ascii c0 =? 194) && ((n1 =? 133) || (n1 =? 160)))%N.

Definition space3 (c0 c1 c2 : ascii) : bool :=
  let n0 := N_of_ascii c0 in
  let n1 := N_of_ascii c1 in
  let n2 := N_of_ascii c2 in
  ((n0 =? 225) && (n1 =? 154) && (n2 =? 128)
   || (n0 =? 226) && (n1 =? 128)
      && ((128 <=? n2) && (n2 <=? 138) || (n2 =? 168) || (n2 =? 169) || (n2 =? 175))
   || (n0 =? 226) && (n1 =? 129) && (n2 =? 159)
   || (n0 =? 227) && (n1 =? 128) && (n2 =? 128))%N.

(** What follows the white-space rune a string begins with. *)
Definition leadingSpace (s : string) : option string :=
  match s with
  | String c0 r0 =>
      if isSpace c0 then Some r0
      else match r0 with
      | String c1 r1 =>
          if space2 c0 c1 then Some r1
          else match r1 with
          | String c2 r2 => if space3 c0 c1 c2 then Some r2 else None
          | _ => None
          end
      | _ => None
      end
  | _ => None
  end.

(** The string is one white-space rune. *)
Definition isSpaceRune (s : string) : bool :=
  match leadingSpace s with
  | Some EmptyString => true
  | _ => false
  end.

(** [strings.TrimLeftFunc(s, unicode.IsSpace)] *)
Fixpoint trimLeft (s : string) : string :=
  match s with
  | String c0 r0 =>
      if isSpace c0 then trimLeft r0
      else match r0 with
      | String c1 r1 =>
          if space2 c0 c1 then trimLeft r1
          else match r1 with
          | String c2 r2 => if space3 c0 c1 c2 then trimLeft r2 else s
          | _ => s
          end
      | _ => s
      end
  | _ => s
  end.

(** [strings.TrimRightFunc(s, unicode.IsSpace)]: the last rune of a string
    is white space exactly when the string ends with the encoding of a
    white-space rune. *)
Fixpoint trimRight (s : string) : string :=
  match s with
  | EmptyString => EmptyString
  | String c r =>
      let t := String c (trimRight r) in
      if isSpaceRune t then EmptyString else t
  end.

(** [strings.TrimSpace] *)
Definition TrimSpace (s : string) : string := trimRight (trimLeft s).

(** *** Letter case *)

(** The lower-case column of [unicode.CaseRanges], as of Unicode 14.0 (a
    release of Go that follows a later Unicode has the letters added since):
    the runes from [Lo] to [Hi] move by the given delta; [UpperLower] marks
    a range of alternating upper- and lower-case letters. *)
Definition UpperLower : Z := MaxRune + 1.

Definition lowerCaseRanges : list (Z * Z * Z) :=
  [(192, 214, 32); (216, 222, 32); (256, 303, UpperLower); (304, 304, (-199));
   (306, 311, UpperLower); (313, 328, UpperLower); (330, 375, UpperLower);
   (376, 376, (-121)); (377, 382, UpperLower); (385, 385, 210);
   (386, 389, UpperLower); (390, 390, 206); (391, 392, UpperLower);
   (393, 394, 205); (395, 396, UpperLower); (398, 398, 79); (399, 399, 202);
   (400, 400, 203); (401, 402, UpperLower); (403, 403, 205); (404, 404, 207);
   (406, 406, 211); (407, 407, 209); (408, 409, UpperLower); (412, 412, 211);
   (413, 413, 213); (415, 415, 214); (416, 421, UpperLower); (422, 422, 218);
   (423, 424, UpperLower); (425, 425, 218); (428, 429, UpperLower);
   (430, 430, 218); (431, 432, UpperLower); (433, 434, 217);
   (435, 438, UpperLower); (439, 439, 219); (440, 441, UpperLower);
   (444, 445, UpperLower); (452, 452, 2); (453, 454, UpperLower);
   (455, 455, 2); (456, 457, UpperLower); (458, 458, 2);
   (459, 476, UpperLower); (478, 495, UpperLower); (497, 497, 2);
   (498, 501, UpperLower); (502, 502, (-97)); (503, 503, (-56));
   (504, 543, UpperLower); (544, 544, (-130)); (546, 563, UpperLower);
   (570, 570, 10795); (571, 572, UpperLower); (573, 573, (-163));
   (574, 574, 10792); (577, 578, UpperLower); (579, 579, (-195));
   (580, 580, 69); (581, 581, 71); (582, 591, UpperLower);
   (880, 883, UpperLower); (886, 887, UpperLower); (895, 895, 116);
   (902, 902, 38); (904, 906, 37); (908, 908, 64); (910, 911, 63);
   (913, 929, 32); (931, 939, 32); (975, 975, 8); (984, 1007, UpperLower);
   (1012, 1012, (-60)); (1015, 1016, UpperLower); (1017, 1017, (-7));
   (1018, 1019, UpperLower); (1021, 1023, (-130)); (1024, 1039, 80);
   (1040, 1071, 32); (1120, 1153, UpperLower); (1162, 1215, UpperLower);
   (1216, 1216, 15); (1217, 1230, UpperLower); (1232, 1327, UpperLower);
   (1329, 1366, 48); (4256, 4293, 7264); (4295, 4295, 7264);
   (4301, 4301, 7264); (5024, 5103, 38864); (5104, 5109, 8);
   (7312, 7354, (-3008)); (7357, 7359, (-3008)); (7680, 7829, UpperLower);
   (7838, 7838, (-7615)); (7840, 7935, UpperLower); (7944, 7951, (-8));
   (7960, 7965, (-8)); (7976, 7983, (-8)); (7992, 7999, (-8));
   (8008, 8013, (-8)); (8025, 8025, (-8)); (8027, 8027, (-8));
   (8029, 8029, (-8)); (8031, 8031, (-8)); (8040, 8047, (-8));
   (8072, 8079, (-8)); (8088, 8095, (-8)); (8104, 8111, (-8));
   (8120, 8121, (-8)); (8122, 8123, (-74)); (8124, 8124, (-9));
   (8136, 8139, (-86)); (8140, 8140, (-9)); (8152, 8153, (-8));
   (8154, 8155, (-100)); (8168, 8169, (-8)); (8170, 8171, (-112));
   (8172, 8172, (-7)); (8184, 8185, (-128)); (8186, 8187, (-126));
   (8188, 8188, (-9)); (8486, 8486, (-7517)); (8490, 8490, (-8383));
   (8491, 8491, (-8262)); (8498, 8498, 28); (8544, 8559, 16);
   (8579, 8580, UpperLower); (9398, 9423, 26); (11264, 11311, 48);
   (11360, 11361, UpperLower); (11362, 11362, (-10743));
   (11363, 11363, (-3814)); (11364, 11364, (-10727));
   (11367, 11372, UpperLower); (11373, 11373, (-10780));
   (11374, 11374, (-10749)); (11375, 11375, (-10783));
   (11376, 11376, (-10782)); (11378, 11379, UpperLower);
   (11381, 11382, UpperLower); (11390, 11391, (-10815));
   (11392, 11491, UpperLower); (11499, 11502, UpperLower);
   (11506, 11507, UpperLower); (42560, 42605, UpperLower);
   (42624, 42651, UpperLower); (42786, 42799, UpperLower);
   (42802, 42863, UpperLower); (42873, 42876, UpperLower);
   (42877, 42877, (-35332)); (42878, 42887, UpperLower);
   (42891, 42892, UpperLower); (42893, 42893, (-42280));
   (42896, 42899, UpperLower); (42902, 42921, UpperLower);
   (42922, 42922, (-42308)); (42923, 42923, (-42319));
   (42924, 42924, (-42315)); (42925, 42925, (-42305));
   (42926, 42926, (-42308)); (42928, 42928, (-42258));
   (42929, 42929, (-42282)); (42930, 42930, (-42261)); (42931, 42931, 928);
   (42932, 42947, UpperLower); (42948, 42948, (-48)); (42949, 42949, (-42307));
   (42950, 42950, (-35384)); (42951, 42954, UpperLower);
   (42960, 42961, UpperLower); (42966, 42969, UpperLower);
   (42997, 42998, UpperLower); (65313, 65338, 32); (66560, 66599, 40);
   (66736, 66771, 40); (66928, 66938, 39); (66940, 66954, 39);
   (66956, 66962, 39); (66964, 66965, 39); (68736, 68786, 64);
   (71840, 71871, 32); (93760, 93791, 32); (125184, 125217, 34)].

Fixpoint toLowerIn (ranges : list (Z * Z * Z)) (r : Z) : Z :=
  match ranges with
  | [] => r
  | (lo, hi, delta) :: rest =>
      if (lo <=? r) && (r <=? hi) then
        if delta >? MaxRune then lo + ((r - lo) / 2 * 2 + 1) else r + delta
      else toLowerIn rest r
  end.

(** [unicode.ToLower] *)
Definition ToLowerRune (r : Z) : Z :=
  if r <=? 127 then
    if (65 <=? r) && (r <=? 90) then r + 32 else r
  else toLowerIn lowerCaseRanges r.

(** [strings.ToLower] *)
Definition ToLower (s : string) : string := Map ToLowerRune s.

(** [time.Duration] constants, in nanoseconds. *)
Definition Second : Z := 1000000000.
Definition Hour : Z := 3600 * Second.

(** [time.Time]: the wall-clock instant in nanoseconds since the Unix epoch
    and the monotonic clock reading, which [time.Now] attaches and
    [time.Unix] does not.  Go's [==] on [time.Time] compares both, so it is
    equality of this record. *)
Record Time : Type := mkTime {
  wall : Z;
  mono : option Z
}.

#[global] Instance Time_eq_dec : EqDecision Time.
Proof. solve_decision. Defined.

(** [time.Unix(sec, 0)] *)
Definition Unix_ (sec : Z) : Time := mkTime (sec * Second) None.

(** [t.Unix()] *)
Definition Unix (t : Time) : Z := wall t / Second.

Definition maxInt64 : Z := 2 ^ 63 - 1.
Definition minInt64 : Z := - 2 ^ 63.

(** An [int64] product or sum as the machine keeps it. *)
Definition wrapInt64 (z : Z) : Z := (z + 2 ^ 63) mod 2 ^ 64 - 2 ^ 63.

(** A [time.Time] that carries a monotonic reading keeps the seconds of its
    wall clock in a field of 33 bits that counts from the first second of
    1885, 31045 days before the Unix epoch; the field ends in 2157. *)
Definition wallSeconds (ns : Z) : Z := ns / Second + 31045 * 86400.

(** [t.Add(d)]: the wall clock moves by [d]; the monotonic reading moves
    with it, and is dropped when the wall seconds leave the 33-bit field
    or the reading leaves the [int64] range. *)
Definition Add (t : Time) (d : Z) : Time :=
  let w := wall t + d in
  match mono t with
  | Some m =>
      let sec := wallSeconds w in
      if (0 <=? sec) && (sec <=? 2 ^ 33 - 1) then
        let te := m + d in
        if (te <? minInt64) || (maxInt64 <? te) then mkTime w None
        else mkTime w (Some te)
      else mkTime w None
  | None => mkTime w None
  end.

(** [time.Time.Sub] saturates at the ends of the [Duration] range. *)
Definition saturate (d : Z) : Z :=
  if d <? minInt64 then minInt64 else if maxInt64 <? d then maxInt64 else d.

(** [t.Sub(u)]: by the monotonic clock when both times carry a reading,
    by the wall clock otherwise. *)
Definition Sub (t u : Time) : Z :=
  match mono t, mono u with
  | Some a, Some b => saturate (a - b)
  | _, _ => saturate (wall t - wall u)
  end.

(** [strings.HasPrefix] *)
Definition hasPrefix (p s : string) : bool :=
  String.eqb (substring 0 (String.length p) s) p.

(** [strings.Split(s, sep)] for a one-byte separator. *)
Fixpoint Split (sep : ascii) (s : string) : list string :=
  match s with
  | EmptyString => [EmptyString]
  | String c r =>
      if Ascii.eqb c sep then EmptyString :: Split sep r
      else match Split sep r with
           | p :: ps => String c p :: ps
           | [] => [String c EmptyString]
           end
  end.

(** [time.Minute] *)
Definition Minute : Z := 60 * Second.

(** [d.Round(m)] of [time.Duration]: the nearest multiple of [m], halfway
    values away from zero; the result saturates at the ends of the int64
    range (the source tests the wrapped sum against [d]). *)
Definition Round (d m : Z) : Z :=
  if m <=? 0 then d
  else
    let r := Z.rem d m in
    if d <? 0 then
      let r := - r in
      if r + r <? m then d + r
      else
        let d1 := d - m + r in
        if minInt64 <=? d1 then d1 else minInt64
    else
      if r + r <? m then d - r
      else
        let d1 := d + m - r in
        if d1 <=? maxInt64 then d1 else maxInt64.

(** [fmt.Sprintf("%d", n)]: the decimal numeral of [n]. *)
Definition Sprintf_d (n : Z) : string :=
  DecimalString.NilZero.string_of_int (Z.to_int n).

End GoStd.

(** ** Errors

    Go's [error] interface has two kinds of inhabitants in this code: plain
    errors made with [errors.New] (or coming from I/O), and the server's
    [*errHTTP]. *)

(** errHTTP is a generic HTTP error for any non-200 HTTP error *)
Record errHTTP : Type := mkErrHTTP {
  Code : Z;
  HTTPCode : Z;
  errMessage : string;
  Link : string
}.

Inductive error : Type :=
| errorString (s : string)
| errorHTTP (e : errHTTP).

#[global] Instance errHTTP_eq_dec : EqDecision errHTTP.
Proof. solve_decision. Defined.
#[global] Instance error_eq_dec : EqDecision error.
Proof. solve_decision. Defined.

(** ** [util/util.go] *)

Module util.
Import GoStd.

Definition errInvalidPriority : error := errorString "unknown priority".

(** InStringList returns true if needle is contained in haystack *)
Fixpoint InStringList (haystack : list string) (needle : string) : bool :=
  match haystack with
  | [] => false
  | s :: rest => if String.eqb s needle then true else InStringList rest needle
  end.

(** ParsePriority parses a priority string into its equivalent integer
    value *)
Definition ParsePriority (priority : string) : error + Z :=
  let p := TrimSpace (ToLower priority) in
  if String.eqb p "" then inr 0
  else if String.eqb p "1" || String.eqb p "min" then inr 1
  else if String.eqb p "2" || String.eqb p "low" then inr 2
  else if String.eqb p "3" || String.eqb p "default" then inr 3
  else if String.eqb p "4" || String.eqb p "high" then inr 4
  else if String.eqb p "5" || String.eqb p "max" || String.eqb p "urgent" then inr 5
  else inl errInvalidPriority.

(** Modelled from the spec: [util.SplitNoEmpty] is not among the sources;
    the topic list and the tag and priority filters are comma-separated
    lists whose empty items are dropped. *)
Definition SplitNoEmpty (s : string) (sep : ascii) : list string :=
  List.filter (fun r => negb (String.eqb r "")) (Split sep s).

(** Modelled from the spec: [util.InIntList] is not among the sources; the
    priority filter accepts a message whose priority is one of the listed
    values. *)
Fixpoint InIntList (haystack : list Z) (needle : Z) : bool :=
  match haystack with
  | [] => false
  | i :: rest => if i =? needle then true else InIntList rest needle
  end.

(** Modelled from the spec: [util.InStringListAll] is not among the
    sources; tag filtering requires the message tag set to contain every
    filter tag. *)
Definition InStringListAll (haystack needles : list string) : bool :=
  forallb (InStringList haystack) needles.

(** DurationToHuman converts a duration to a human readable format *)
Definition DurationToHuman (d : Z) : string :=
  if d =? 0 then "0"
  else
    let str := "" in
    let d := Round d Second in
    let days := Z.quot (Z.quot d Hour) 24 in
    let str := if days >? 0 then str +:+ Sprintf_d days +:+ "d" else str in
    let d := d - days * Hour * 24 in
    let hours := Z.quot d Hour in
    let str := if hours >? 0 then str +:+ Sprintf_d hours +:+ "h" else str in
    let d := d - hours * Hour in
    let minutes := Z.quot d Minute in
    let str := if minutes >? 0 then str +:+ Sprintf_d minutes +:+ "m" else str in
    let d := d - minutes * Minute in
    let seconds := Z.quot d Second in
    let str := if seconds >? 0 then str +:+ Sprintf_d seconds +:+ "s" else str in
    str.

End util.

(** ** [server/server.go]: data *)

Module server.
Import GoStd.

(** Modelled from the spec: the message envelope and its attachment
    ([server/message.go] is not among the sources); the fields are the ones
    [server.go] reads and writes. *)
Record attachment : Type := mkAttachment {
  Name : string;
  Type_ : string;
  Size : Z;
  Expires : Z;
  URL : string;
  Owner : string
}.

Record message : Type := mkMessage {
  ID : string;
  Time_ : Z;
  Event : string;
  Topic : string;
  Message : string;
  Title : string;
  Tags : list string;
  Priority : Z;
  Click : string;
  Attachment : option attachment
}.

#[global] Instance attachment_eq_dec : EqDecision attachment.
Proof. solve_decision. Defined.
#[global] Instance message_eq_dec : EqDecision message.
Proof. solve_decision. Defined.

Definition openEvent : string := "open".
Definition keepaliveEvent : string := "keepalive".
Definition messageEvent : string := "message".

Definition emptyAttachment : attachment := mkAttachment "" "" 0 0 "" "".

(** Modelled from the spec: [newDefaultMessage] builds a default message
    (id, time = now, event = message, topic); the random id is an input. *)
Definition newMessage (event topic msg id : string) (now : Time) : message :=
  mkMessage id (Unix now) event topic msg "" [] 0 "" None.
Definition newDefaultMessage (topic msg id : string) (now : Time) : message :=
  newMessage messageEvent topic msg id now.
Definition newOpenMessage (topic id : string) (now : Time) : message :=
  newMessage openEvent topic "" id now.
Definition newKeepaliveMessage (topic id : string) (now : Time) : message :=
  newMessage keepaliveEvent topic "" id now.

(** Field updates ([m.Title = ...] and the like). *)
Definition setTitle (m : message) (v : string) : message :=
  mkMessage (ID m) (Time_ m) (Event m) (Topic m) (Message m) v (Tags m) (Priority m) (Click m) (Attachment m).
Definition setClick (m : message) (v : string) : message :=
  mkMessage (ID m) (Time_ m) (Event m) (Topic m) (Message m) (Title m) (Tags m) (Priority m) v (Attachment m).
Definition setMessage (m : message) (v : string) : message :=
  mkMessage (ID m) (Time_ m) (Event m) (Topic m) v (Title m) (Tags m) (Priority m) (Click m) (Attachment m).
Definition setPriority (m : message) (v : Z) : message :=
  mkMessage (ID m) (Time_ m) (Event m) (Topic m) (Message m) (Title m) (Tags m) v (Click m) (Attachment m).
Definition setTags (m : message) (v : list string) : message :=
  mkMessage (ID m) (Time_ m) (Event m) (Topic m) (Message m) (Title m) v (Priority m) (Click m) (Attachment m).
Definition setTime (m : message) (v : Z) : message :=
  mkMessage (ID m) v (Event m) (Topic m) (Message m) (Title m) (Tags m) (Priority m) (Click m) (Attachment m).
Definition setAttachment (m : message) (v : option attachment) : message :=
  mkMessage (ID m) (Time_ m) (Event m) (Topic m) (Message m) (Title m) (Tags m) (Priority m) (Click m) v.

Definition setName (a : attachment) (v : string) : attachment :=
  mkAttachment v (Type_ a) (Size a) (Expires a) (URL a) (Owner a).
Definition setURL (a : attachment) (v : string) : attachment :=
  mkAttachment (Name a) (Type_ a) (Size a) (Expires a) v (Owner a).

(** [sinceTime] and its sentinels. *)
Definition sinceTime : Type := Time.

Definition sinceAllMessages : sinceTime := Unix_ 0.
Definition sinceNoMessages : sinceTime := Unix_ 1.

Definition IsAll (t : sinceTime) : bool := bool_decide (t = sinceAllMessages).
Definition IsNone (t : sinceTime) : bool := bool_decide (t = sinceNoMessages).

Definition disallowedTopics : list string := ["docs"; "static"; "file"].

Definition isTopicChar (c : ascii) : bool :=
  let n := N_of_ascii c in
  (n =? 45)%N || (n =? 95)%N
  || ((65 <=? n) && (n <=? 90))%N
  || ((97 <=? n) && (n <=? 122))%N
  || ((48 <=? n) && (n <=? 57))%N.

Fixpoint allChars (p : ascii -> bool) (s : string) : bool :=
  match s with
  | EmptyString => true
  | String c r => p c && allChars p r
  end.

(** [topicRegex.MatchString]: [^[-_A-Za-z0-9]{1,64}$] *)
Definition topicRegex (s : string) : bool :=
  allChars isTopicChar s
  && (1 <=? Z.of_nat (String.length s)) && (Z.of_nat (String.length s) <=? 64).

(** [attachURLRegex.MatchString]: [^https?://] *)
Definition attachURLRegex (s : string) : bool :=
  hasPrefix "http://" s || hasPrefix "https://" s.

Definition StatusBadRequest : Z := 400.
Definition StatusNotFound : Z := 404.
Definition StatusTooManyRequests : Z := 429.
Definition StatusInternalServerError : Z := 500.

Definition errHTTPBadRequestEmailDisabled : errHTTP :=
  mkErrHTTP 40001 StatusBadRequest "e-mail notifications are not enabled" "https://ntfy.sh/docs/config/#e-mail-notifications".
Definition errHTTPBadRequestDelayNoCache : errHTTP :=
  mkErrHTTP 40002 StatusBadRequest "cannot disable cache for delayed message" "".
Definition errHTTPBadRequestDelayNoEmail : errHTTP :=
  mkErrHTTP 40003 StatusBadRequest "delayed e-mail notifications are not supported" "".
Definition errHTTPBadRequestDelayCannotParse : errHTTP :=
  mkErrHTTP 40004 StatusBadRequest "invalid delay parameter: unable to parse delay" "https://ntfy.sh/docs/publish/#scheduled-delivery".
Definition errHTTPBadRequestDelayTooSmall : errHTTP :=
  mkErrHTTP 40005 StatusBadRequest "invalid delay parameter: too small, please refer to the docs" "https://ntfy.sh/docs/publish/#scheduled-delivery".
Definition errHTTPBadRequestDelayTooLarge : errHTTP :=
  mkErrHTTP 40006 StatusBadRequest "invalid delay parameter: too large, please refer to the docs" "https://ntfy.sh/docs/publish/#scheduled-delivery".
Definition errHTTPBadRequestPriorityInvalid : errHTTP :=
  mkErrHTTP 40007 StatusBadRequest "invalid priority parameter" "https://ntfy.sh/docs/publish/#message-priority".
Definition errHTTPBadRequestSinceInvalid : errHTTP :=
  mkErrHTTP 40008 StatusBadRequest "invalid since parameter" "https://ntfy.sh/docs/subscribe/api/#fetch-cached-messages".
Definition errHTTPBadRequestTopicInvalid : errHTTP :=
  mkErrHTTP 40009 StatusBadRequest "invalid topic: path invalid" "".
Definition errHTTPBadRequestTopicDisallowed : errHTTP :=
  mkErrHTTP 40010 StatusBadRequest "invalid topic: topic name is disallowed" "".
Definition errHTTPBadRequestMessageNotUTF8 : errHTTP :=
  mkErrHTTP 40011 StatusBadRequest "invalid message: message must be UTF-8 encoded" "".
Definition errHTTPBadRequestAttachmentTooLarge : errHTTP :=
  mkErrHTTP 40012 StatusBadRequest "invalid request: attachment too large, or bandwidth limit reached" "".
Definition errHTTPBadRequestAttachmentURLInvalid : errHTTP :=
  mkErrHTTP 40013 StatusBadRequest "invalid request: attachment URL is invalid" "".
Definition errHTTPBadRequestAttachmentsDisallowed : errHTTP :=
  mkErrHTTP 40014 StatusBadRequest "invalid request: attachments not allowed" "".
Definition errHTTPBadRequestAttachmentsExpiryBeforeDelivery : errHTTP :=
  mkErrHTTP 40015 StatusBadRequest "invalid request: attachment expiry before delayed delivery date" "".
Definition errHTTPTooManyRequestsLimitEmails : errHTTP :=
  mkErrHTTP 42902 StatusTooManyRequests "limit reached: too many emails, please be nice" "https://ntfy.sh/docs/publish/#limitations".
Definition errHTTPTooManyRequestsLimitSubscriptions : errHTTP :=
  mkErrHTTP 42903 StatusTooManyRequests "limit reached: too many active subscriptions, please be nice" "https://ntfy.sh/docs/publish/#limitations".
Definition errHTTPTooManyRequestsLimitTotalTopics : errHTTP :=
  mkErrHTTP 42904 StatusTooManyRequests "limit reached: the total number of topics on the server has been reached, please contact the admin" "https://ntfy.sh/docs/publish/#limitations".

Definition emptyMessageBody : string := "triggered".

(** [fmt.Sprintf(defaultAttachmentMessage, name)] *)
Definition defaultAttachmentMessage (name : string) : string :=
  "You received a file: " +:+ name.

(** *** Requests and parameters *)

(** [http.Request]: header and query values as association lists; header
    names are matched case-insensitively, as [Header.Get] does. *)
Record Request : Type := mkRequest {
  Method : string;
  Path : string;
  Header : list (string * string);
  Query : list (string * string);
  Body : string;
  RemoteAddr : string
}.

Fixpoint Header_Get (h : list (string * string)) (name : string) : string :=
  match h with
  | [] => ""
  | (k, v) :: rest =>
      if String.eqb (lowerASCII k) (lowerASCII name) then v else Header_Get rest name
  end.

Fixpoint Query_Get (q : list (string * string)) (name : string) : string :=
  match q with
  | [] => ""
  | (k, v) :: rest => if String.eqb k name then v else Query_Get rest name
  end.

(** The two loops of [readParam]: the first non-empty value among the
    names. *)
Fixpoint firstValue (get : string -> string) (names : list string) : option string :=
  match names with
  | [] => None
  | name :: rest =>
      let value := get name in
      if negb (String.eqb value "") then Some value else firstValue get rest
  end.

Definition readParam (r : Request) (names : list string) : string :=
  match firstValue (Header_Get (Header r)) names with
  | Some value => TrimSpace value
  | None =>
      match firstValue (fun name => Query_Get (Query r) (ToLower name)) names with
      | Some value => TrimSpace value
      | None => ""
      end
  end.

(** *** Configuration, topics, visitors *)

(** Modelled from the spec: the configuration options the server reads
    ([server/config.go] is not among the sources); durations are in
    nanoseconds. *)
Record Config : Type := mkConfig {
  BaseURL : string;
  CacheDuration : Z;
  AttachmentCacheDir : string;
  AttachmentFileSizeLimit : Z;
  AttachmentExpiryDuration : Z;
  KeepaliveInterval : Z;
  MessageLimit : Z;
  MinDelay : Z;
  MaxDelay : Z;
  TotalTopicLimit : Z;
  VisitorAttachmentTotalSizeLimit : Z;
  VisitorRequestLimitBurst : Z;
  VisitorRequestLimitReplenish : Z;
  VisitorSubscriptionLimit : Z
}.

(** Modelled from the spec: a topic is its name, the subscriber map (from
    subscriber id to the connection the callback writes to) and the id
    counter ([server/topic.go] is not among the sources). *)
Record topic : Type := mkTopic {
  topicID : string;
  subscribers : gmap Z nat;
  lastSubscriberID : Z
}.

Definition newTopic (id : string) : topic := mkTopic id ∅ 0.

Definition Subscribe (t : topic) (conn : nat) : topic * Z :=
  let id := lastSubscriberID t + 1 in
  (mkTopic (topicID t) (<[id := conn]> (subscribers t)) id, id).

Definition Unsubscribe (t : topic) (id : Z) : topic :=
  mkTopic (topicID t) (delete id (subscribers t)) (lastSubscriberID t).

Definition Subscribers (t : topic) : Z := Z.of_nat (size (subscribers t)).

(** [rate.NewLimiter(rate.Every(every), burst)]: one token each [every]
    nanoseconds, at most [burst] tokens. *)
Record Limiter : Type := mkLimiter {
  every : Z;
  burst : Z
}.

(** The fields of [visitor] that the manager loop and the handlers read;
    the visitor is anonymous ([user] is nil). *)
Record visitor : Type := mkVisitor {
  vconfig : Config;
  ip : string;
  requestLimiter : Limiter;
  seen : Time
}.

(** *** [server/visitor.go] *)

(** oneDay is an approximation of a day as a time.Duration *)
Definition oneDay : Z := 24 * Hour.

(** visitorExpungeAfter defines how long a visitor is active before it is
    removed from memory. *)
Definition visitorExpungeAfter : Z := oneDay.

(** [configBasedVisitorLimits], the request limiter part, as
    [resetLimitersNoLock] installs it. *)
Definition configBasedRequestLimiter (conf : Config) : Limiter :=
  mkLimiter (VisitorRequestLimitReplenish conf) (VisitorRequestLimitBurst conf).

Definition newVisitor (conf : Config) (ip : string) (now : Time) : visitor :=
  mkVisitor conf ip (configBasedRequestLimiter conf) now.

Definition Keepalive (v : visitor) (now : Time) : visitor :=
  mkVisitor (vconfig v) (ip v) (requestLimiter v) now.

(** [time.Since(v.seen) > visitorExpungeAfter] *)
Definition Stale (v : visitor) (now : Time) : bool :=
  Sub now (seen v) >? visitorExpungeAfter.

(** *** The message cache interface and the other collaborators *)

(** The [cache] interface as [server.go] calls it.  The clock a backend
    reads is an argument. *)
Class cache (C : Type) : Type := {
  AddMessage : C -> Time -> message -> error + C;
  Messages : C -> string -> sinceTime -> bool -> error + list message;
  MessagesDue : C -> Time -> error + list message;
  MarkPublished : C -> message -> error + C;
  MessageCount : C -> string -> error + Z;
  AttachmentsSize : C -> string -> error + Z;
  AttachmentsExpired : C -> Time -> error + list string;
  Prune : C -> Time -> error + C
}.

(** [util.PeakedReadCloser]: the peeked prefix, whether the peek limit was
    reached, and the unread rest of the body. *)
Record PeakedReadCloser : Type := mkPeaked {
  PeakedBytes : string;
  LimitReached : bool;
  Unread : string
}.

Definition ErrLimitReached : error := errorString "limit reached".

(** [*fileCache]: what [Write] (message id, body, remaining visitor quota)
    and [Remove] return. *)
Record fileCache : Type := mkFileCache {
  Write : string -> PeakedReadCloser -> Z -> error + Z;
  Remove : list string -> option error
}.

(** Functions of the Go library and of [util] that are not among the
    sources, and the outcome of [topic.Publish]. *)
Class External : Type := {
  (** [time.ParseDuration] *)
  ParseDuration : string -> option Z;
  (** [util.ParseFutureTime] *)
  ParseFutureTime : string -> Time -> option Time;
  (** [util.DetectContentType]: MIME type and file extension *)
  DetectContentType : string -> string -> string * string;
  (** [url.Parse] followed by [path.Base] of the URL's path *)
  urlPathBase : string -> option string;
  (** [util.Peak] *)
  Peak : string -> Z -> error + PeakedReadCloser;
  (** the error [t.Publish(m)] returns, if any *)
  publishError : string -> message -> option error;
  (** what a message encoder returns *)
  encodeJSON : message -> error + string
}.

(** The [subscriber] function type: the error the callback returns. *)
Definition subscriber : Type := message -> option error.

(** The [mailer] interface: [Send(senderIP, to, m)]. *)
Definition mailer : Type := string -> string -> message -> option error.

Record Server (C : Type) : Type := mkServer {
  config : Config;
  topics : gmap string topic;
  visitors : gmap string visitor;
  firebase : option subscriber;
  mailer_ : option mailer;
  messages : Z;
  cache_ : C;
  fileCache_ : option fileCache
}.
Arguments mkServer {C}.
Arguments config {C}.
Arguments topics {C}.
Arguments visitors {C}.
Arguments firebase {C}.
Arguments mailer_ {C}.
Arguments messages {C}.
Arguments cache_ {C}.
Arguments fileCache_ {C}.

(** What a handler or a background loop does to the outside, in program
    order. *)
Inductive event : Type :=
| EvPublish (topic : string) (m : message)        (* t.Publish(m) *)
| EvGoFirebase (m : message)                      (* go s.firebase(m) *)
| EvGoMail (ip to : string) (m : message)         (* go s.mailer.Send(v.ip, email, m) *)
| EvFirebase (m : message)                        (* s.firebase(m) *)
| EvLog (what : string) (err : error)             (* log.Printf *)
| EvResponse (m : message)                        (* json.NewEncoder(w).Encode(m) *)
| EvWrite (m : message) (data : string)           (* w.Write([]byte(data)) for message m *)
| EvFileRemove (ids : list string)                (* s.fileCache.Remove(ids...) *)
| EvStats (published inCache nTopics nSubscribers nVisitors : Z). (* the stats line *)

Record World (C : Type) : Type := mkWorld {
  srv : Server C;
  events : list event
}.
Arguments mkWorld {C}.
Arguments srv {C}.
Arguments events {C}.

(** ** [server/server.go]: handlers

    A handler is a computation over the server and the events emitted so
    far; an error ends it, and what it changed before stays changed (the Go
    code mutates the server in place). *)

Definition M (C A : Type) : Type := World C -> (error + A) * World C.

#[global] Instance M_ret {C} : MRet (M C) :=
  fun A (x : A) w => (inr x, w).

#[global] Instance M_bind {C} : MBind (M C) :=
  fun A B (f : A -> M C B) (c : M C A) w =>
    match c w with
    | (inl e, w') => (inl e, w')
    | (inr x, w') => f x w'
    end.

Definition fail {C A} (e : error) : M C A := fun w => (inl e, w).

Definition failHTTP {C A} (e : errHTTP) : M C A := fail (errorHTTP e).

Definition liftE {C A} (r : error + A) : M C A := fun w => (r, w).

Definition getServer {C} : M C (Server C) := fun w => (inr (srv w), w).

Definition putServer {C} (s : Server C) : M C unit :=
  fun w => (inr tt, mkWorld s (events w)).

Definition emit {C} (ev : event) : M C unit :=
  fun w => (inr tt, mkWorld (srv w) (events w ++ [ev])).

Definition is_Some_b {A} (o : option A) : bool :=
  match o with Some _ => true | None => false end.

Definition when {C} (b : bool) (c : M C unit) : M C unit :=
  if b then c else mret tt.

Definition setTopics {C} (s : Server C) (ts : gmap string topic) : Server C :=
  mkServer (config s) ts (visitors s) (firebase s) (mailer_ s) (messages s) (cache_ s) (fileCache_ s).
Definition setVisitors {C} (s : Server C) (vs : gmap string visitor) : Server C :=
  mkServer (config s) (topics s) vs (firebase s) (mailer_ s) (messages s) (cache_ s) (fileCache_ s).
Definition setCache {C} (s : Server C) (c : C) : Server C :=
  mkServer (config s) (topics s) (visitors s) (firebase s) (mailer_ s) (messages s) c (fileCache_ s).
Definition setMessages {C} (s : Server C) (n : Z) : Server C :=
  mkServer (config s) (topics s) (visitors s) (firebase s) (mailer_ s) n (cache_ s) (fileCache_ s).

(** What one publish request reads from its environment: the random
    message id, the clock at each call of [time.Now()], in program order,
    whether the visitor's e-mail limiter allows one more e-mail, and the
    error of writing the response, if any. *)
Record publishEnv : Type := mkPublishEnv {
  newID : string;
  nowMessage : Time;       (* newDefaultMessage *)
  nowDelay : Time;         (* util.ParseFutureTime(delayStr, time.Now()) *)
  nowMinDelay : Time;      (* time.Now().Add(s.config.MinDelay) *)
  nowMaxDelay : Time;      (* time.Now().Add(s.config.MaxDelay) *)
  nowExpiryCheck : Time;   (* handleBodyAsAttachment, first call *)
  nowExpires : Time;       (* handleBodyAsAttachment, second call *)
  nowDelayed : Time;       (* delayed := m.Time > time.Now().Unix() *)
  nowAddMessage : Time;    (* the clock inside s.cache.AddMessage *)
  emailAllowed : bool;     (* v.EmailAllowed() == nil *)
  responseError : option error
}.

Definition updAttachment (m : message) (f : attachment -> attachment) : message :=
  setAttachment m (option_map f (Attachment m)).

Definition attachmentName (m : message) : string :=
  match Attachment m with Some a => Name a | None => "" end.

Definition attachmentURL (m : message) : string :=
  match Attachment m with Some a => URL a | None => "" end.

Definition nonEmpty (s : string) : bool := negb (String.eqb s "").

(** What one subscribe request reads from its environment. *)
Record subscribeEnv : Type := mkSubscribeEnv {
  conn : nat;                          (* the connection [w] *)
  subscriptionAllowed : bool;          (* v.SubscriptionAllowed() == nil *)
  nowSince : Time;                     (* parseSince: time.Now().Add(-1 * d) *)
  openID : string;
  nowOpen : Time;                      (* newOpenMessage *)
  (* the keepalive timer firings before the request context is done:
     the clock in v.Keepalive(), then id and clock of the keepalive message *)
  keepaliveTicks : list (Time * string * Time);
  (* the error of the write that follows [n] earlier events, if any *)
  writeError : nat -> option error
}.

(** [messageEncoder] *)
Definition messageEncoder : Type := message -> error + string.

Definition hasSuffix (suffix s : string) : bool :=
  let n := String.length s in
  let k := String.length suffix in
  (k <=? n)%nat && String.eqb (substring (n - k) k s) suffix.

(** [strings.TrimSuffix] *)
Definition TrimSuffix (s suffix : string) : string :=
  if hasSuffix suffix s
  then substring 0 (String.length s - String.length suffix) s
  else s.

(** [strings.ReplaceAll(s, "\n", " ")] *)
Fixpoint newlinesToSpaces (s : string) : string :=
  match s with
  | EmptyString => EmptyString
  | String c r =>
      String (if Ascii.eqb c "010"%char then " "%char else c) (newlinesToSpaces r)
  end.

Definition newline : string := String "010"%char EmptyString.

Definition passesQueryFilter (msg : message) (messageFilter titleFilter : string)
    (priorityFilter : list Z) (tagsFilter : list string) : bool :=
  if negb (String.eqb (Event msg) messageEvent) then
    true (* filters only apply to messages *)
  else if nonEmpty messageFilter && negb (String.eqb (Message msg) messageFilter) then
    false
  else if nonEmpty titleFilter && negb (String.eqb (Title msg) titleFilter) then
    false
  else
    let messagePriority := if Priority msg =? 0 then 3 else Priority msg in
    if (0 <? Z.of_nat (length priorityFilter))
       && negb (util.InIntList priorityFilter messagePriority) then
      false
    else if (0 <? Z.of_nat (length tagsFilter))
            && negb (util.InStringListAll (Tags msg) tagsFilter) then
      false
    else true.

(** The loop of [parseQueryFilters] over the priority names. *)
Fixpoint parsePriorities (ps : list string) : error + list Z :=
  match ps with
  | [] => inr []
  | p :: rest =>
      match util.ParsePriority p with
      | inl err => inl err
      | inr priority =>
          match parsePriorities rest with
          | inl err => inl err
          | inr l => inr (priority :: l)
          end
      end
  end.

Definition parseQueryFilters (r : Request)
    : error + (string * string * list Z * list string) :=
  let messageFilter := readParam r ["x-message"; "message"; "m"] in
  let titleFilter := readParam r ["x-title"; "title"; "t"] in
  let tagsFilter := util.SplitNoEmpty (readParam r ["x-tags"; "tags"; "tag"; "ta"]) "," in
  match parsePriorities
          (util.SplitNoEmpty (readParam r ["x-priority"; "priority"; "prio"; "p"]) ",") with
  | inl err => inl err
  | inr priorityFilter => inr (messageFilter, titleFilter, priorityFilter, tagsFilter)
  end.

(** *** Routing *)

Definition notNewline (c : ascii) : bool := negb (Ascii.eqb c "010"%char).

Definition isAlnum (c : ascii) : bool :=
  let n := N_of_ascii c in
  ((65 <=? n) && (n <=? 90))%N || ((97 <=? n) && (n <=? 122))%N
  || ((48 <=? n) && (n <=? 57))%N.

(** The part of [s] after its first [n] bytes. *)
Definition dropBytes (n : nat) (s : string) : string :=
  substring n (String.length s - n) s.

(** [topicPathRegex]: [^/[-_A-Za-z0-9]{1,64}$] *)
Definition topicPathRegex (path : string) : bool :=
  hasPrefix "/" path && topicRegex (dropBytes 1 path).

(** The shape shared by [jsonPathRegex], [ssePathRegex], [rawPathRegex],
    [wsPathRegex] and [publishPathRegex]: a slash, one or more topic names
    separated by commas, and the given suffix. *)
Definition topicsPathRegex (suffix path : string) : bool :=
  hasPrefix "/" path && hasSuffix suffix path
  && (String.length suffix + 1 <=? String.length path)%nat
  && forallb topicRegex
       (Split "," (substring 1 (String.length path - 1 - String.length suffix) path)).

Definition jsonPathRegex : string -> bool := topicsPathRegex "/json".
Definition ssePathRegex : string -> bool := topicsPathRegex "/sse".
Definition rawPathRegex : string -> bool := topicsPathRegex "/raw".
Definition wsPathRegex : string -> bool := topicsPathRegex "/ws".
Definition publishPathRegex (path : string) : bool :=
  topicsPathRegex "/publish" path || topicsPathRegex "/send" path
  || topicsPathRegex "/trigger" path.

(** [staticRegex]: [^/static/.+] *)
Definition staticRegex (path : string) : bool :=
  hasPrefix "/static/" path
  && match dropBytes 8 path with
     | EmptyString => false
     | String c _ => notNewline c
     end.

(** [docsRegex]: the path [/docs], alone or followed by a slash and any
    bytes up to the end. *)
Definition docsRegex (path : string) : bool :=
  String.eqb path "/docs"
  || (hasPrefix "/docs/" path && allChars notNewline (dropBytes 6 path)).

(** [fileRegex]: [^/file/([-_A-Za-z0-9]{1,64})(?:\.[A-Za-z0-9]{1,16})?$] *)
Definition fileRegex (path : string) : bool :=
  hasPrefix "/file/" path
  && match Split "." (dropBytes 6 path) with
     | [id] => topicRegex id
     | [id; ext] =>
         topicRegex id && allChars isAlnum ext
         && (1 <=? String.length ext)%nat && (String.length ext <=? 16)%nat
     | _ => false
     end.

(** The handler [handleInternal] passes a request to. *)
Inductive route : Type :=
| toHome | toExample | toEmpty | toStatic | toDocs | toFile | toOptions | toTopic
| toPublish | toSubscribeJSON | toSubscribeSSE | toSubscribeRaw | toSubscribeWS
| toNotFound.

Definition handleInternal (conf : Config) (r : Request) : route :=
  let get := String.eqb (Method r) "GET" in
  if get && String.eqb (Path r) "/" then toHome
  else if get && String.eqb (Path r) "/example.html" then toExample
  else if String.eqb (Method r) "HEAD" && String.eqb (Path r) "/" then toEmpty
  else if get && staticRegex (Path r) then toStatic
  else if get && docsRegex (Path r) then toDocs
  else if get && fileRegex (Path r) && nonEmpty (AttachmentCacheDir conf) then toFile
  else if String.eqb (Method r) "OPTIONS" then toOptions
  else if get && topicPathRegex (Path r) then toTopic
  else if (String.eqb (Method r) "PUT" || String.eqb (Method r) "POST")
          && topicPathRegex (Path r) then toPublish
  else if get && publishPathRegex (Path r) then toPublish
  else if get && jsonPathRegex (Path r) then toSubscribeJSON
  else if get && ssePathRegex (Path r) then toSubscribeSSE
  else if get && rawPathRegex (Path r) then toSubscribeRaw
  else if get && wsPathRegex (Path r) then toSubscribeWS
  else toNotFound.

Section Handlers.
Context {C : Type} {cacheC : cache C} {ext : External}.

(** [t.Publish(m)]: the call and the error it returns. *)
Definition Publish (t : topic) (m : message) : M C (option error) :=
  emit (EvPublish (topicID t) m);; mret (publishError (topicID t) m).

(** The loop of [topicsFromIDs]; [acc] is the slice [topics]. *)
Fixpoint topicsFromIDs_loop (ids : list string) (acc : list topic) : M C (list topic) :=
  match ids with
  | [] => mret acc
  | id :: rest =>
      if util.InStringList disallowedTopics id then
        failHTTP errHTTPBadRequestTopicDisallowed
      else
        s ← getServer;
        match topics s !! id with
        | Some t => topicsFromIDs_loop rest (acc ++ [t])
        | None =>
            if Z.of_nat (size (topics s)) >=? TotalTopicLimit (config s) then
              failHTTP errHTTPTooManyRequestsLimitTotalTopics
            else
              putServer (setTopics s (<[id := newTopic id]> (topics s)));;
              topicsFromIDs_loop rest (acc ++ [newTopic id])
        end
  end.

Definition topicsFromIDs (ids : list string) : M C (list topic) :=
  topicsFromIDs_loop ids [].

Definition topicFromPath (path : string) : M C topic :=
  match Split "/" path with
  | _ :: id :: _ =>
      ts ← topicsFromIDs [id];
      match ts with
      | t :: _ => mret t
      | [] => failHTTP errHTTPBadRequestTopicInvalid
      end
  | _ => failHTTP errHTTPBadRequestTopicInvalid
  end.

(** The [attach != ""] block of [parsePublishParams]. *)
Definition parseAttach (attach : string) (m : message) : M C message :=
  if nonEmpty attach then
    if negb (attachURLRegex attach) then
      failHTTP errHTTPBadRequestAttachmentURLInvalid
    else
      let m := updAttachment m (fun a => setURL a attach) in
      let m :=
        if String.eqb (attachmentName m) "" then
          match urlPathBase (attachmentURL m) with
          | Some base =>
              if String.eqb base "." || String.eqb base "/"
              then updAttachment m (fun a => setName a "")
              else updAttachment m (fun a => setName a base)
          | None => m
          end
        else m in
      let m :=
        if String.eqb (attachmentName m) ""
        then updAttachment m (fun a => setName a "attachment") else m in
      mret m
  else mret m.

(** The [delayStr != ""] block of [parsePublishParams]. *)
Definition parseDelay (o : publishEnv) (conf : Config) (cache : bool) (email delayStr : string)
    (m : message) : M C message :=
  if nonEmpty delayStr then
    if negb cache then failHTTP errHTTPBadRequestDelayNoCache
    else if nonEmpty email then failHTTP errHTTPBadRequestDelayNoEmail
    else
      match ParseFutureTime delayStr (nowDelay o) with
      | None => failHTTP errHTTPBadRequestDelayCannotParse
      | Some delay =>
          if Unix delay <? Unix (Add (nowMinDelay o) (MinDelay conf)) then
            failHTTP errHTTPBadRequestDelayTooSmall
          else if Unix delay >? Unix (Add (nowMaxDelay o) (MaxDelay conf)) then
            failHTTP errHTTPBadRequestDelayTooLarge
          else mret (setTime m (Unix delay))
      end
  else mret m.

Definition parsePublishParams (o : publishEnv) (r : Request) (v : visitor) (m : message)
    : M C (bool * bool * string * message) :=
  s ← getServer;
  let cache := negb (String.eqb (readParam r ["x-cache"; "cache"]) "no") in
  let firebase := negb (String.eqb (readParam r ["x-firebase"; "firebase"]) "no") in
  let m := setTitle m (readParam r ["x-title"; "title"; "t"]) in
  let m := setClick m (readParam r ["x-click"; "click"]) in
  let filename := readParam r ["x-filename"; "filename"; "file"; "f"] in
  let attach := readParam r ["x-attach"; "attach"; "a"] in
  let m := if nonEmpty attach || nonEmpty filename
           then setAttachment m (Some emptyAttachment) else m in
  let m := if nonEmpty filename
           then updAttachment m (fun a => setName a filename) else m in
  m ← parseAttach attach m;
  let email := readParam r ["x-email"; "x-e-mail"; "email"; "e-mail"; "mail"; "e"] in
  when (nonEmpty email && negb (emailAllowed o))
    (failHTTP errHTTPTooManyRequestsLimitEmails);;
  when (negb (is_Some_b (mailer_ s)) && nonEmpty email)
    (failHTTP errHTTPBadRequestEmailDisabled);;
  let messageStr := readParam r ["x-message"; "message"; "m"] in
  let m := if nonEmpty messageStr then setMessage m messageStr else m in
  match util.ParsePriority (readParam r ["x-priority"; "priority"; "prio"; "p"]) with
  | inl _ => failHTTP errHTTPBadRequestPriorityInvalid
  | inr priority =>
      let m := setPriority m priority in
      let tagsStr := readParam r ["x-tags"; "tags"; "tag"; "ta"] in
      let m := if nonEmpty tagsStr
               then setTags m (map TrimSpace (util.SplitNoEmpty tagsStr ","))
               else m in
      let delayStr := readParam r ["x-delay"; "delay"; "x-at"; "at"; "x-in"; "in"] in
      m ← parseDelay o (config s) cache email delayStr m;
      let unifiedpush :=
        String.eqb (readParam r ["x-unifiedpush"; "unifiedpush"; "up"]) "1" in
      let firebase := if unifiedpush then false else firebase in
      mret (cache, firebase, email, m)
  end.

(** handlePublishBody's first target: the body is the message. *)
Definition handleBodyAsMessage (m : message) (body : PeakedReadCloser) : M C message :=
  if negb (utf8Valid (PeakedBytes body)) then
    failHTTP errHTTPBadRequestMessageNotUTF8
  else
    let m := if 0 <? Z.of_nat (String.length (PeakedBytes body))
             then setMessage m (TrimSpace (PeakedBytes body)) else m in
    let m := if is_Some_b (Attachment m) && nonEmpty (attachmentName m)
                && String.eqb (Message m) ""
             then setMessage m (defaultAttachmentMessage (attachmentName m)) else m in
    mret m.

(** handlePublishBody's second target: the body is stored as a file. *)
Definition handleBodyAsAttachment (o : publishEnv) (r : Request) (v : visitor)
    (m : message) (body : PeakedReadCloser) : M C message :=
  s ← getServer;
  match fileCache_ s with
  | None => failHTTP errHTTPBadRequestAttachmentsDisallowed
  | Some fc =>
      if String.eqb (BaseURL (config s)) "" || String.eqb (AttachmentCacheDir (config s)) "" then
        failHTTP errHTTPBadRequestAttachmentsDisallowed
      else if Time_ m >? Unix (Add (nowExpiryCheck o) (AttachmentExpiryDuration (config s))) then
        failHTTP errHTTPBadRequestAttachmentsExpiryBeforeDelivery
      else
        visitorAttachmentsSize ← liftE (AttachmentsSize (cache_ s) (ip v));
        let remainingVisitorAttachmentSize :=
          VisitorAttachmentTotalSizeLimit (config s) - visitorAttachmentsSize in
        let contentLengthStr := Header_Get (Header r) "Content-Length" in
        let tooLarge :=
          nonEmpty contentLengthStr &&
          match ParseInt contentLengthStr with
          | Some contentLength =>
              (contentLength >? remainingVisitorAttachmentSize)
              || (contentLength >? AttachmentFileSizeLimit (config s))
          | None => false
          end in
        if tooLarge then failHTTP errHTTPBadRequestAttachmentTooLarge
        else
          let a := match Attachment m with Some a => a | None => emptyAttachment end in
          let '(type, ext) := DetectContentType (PeakedBytes body) (Name a) in
          let url := BaseURL (config s) +:+ "/file/" +:+ ID m +:+ ext in
          let name := if String.eqb (Name a) "" then "attachment" +:+ ext else Name a in
          let expires := Unix (Add (nowExpires o) (AttachmentExpiryDuration (config s))) in
          let msg := if String.eqb (Message m) ""
                     then defaultAttachmentMessage name else Message m in
          match Write fc (ID m) body remainingVisitorAttachmentSize with
          | inl err =>
              if decide (err = ErrLimitReached)
              then failHTTP errHTTPBadRequestAttachmentTooLarge
              else fail err
          | inr size =>
              mret (setMessage
                      (setAttachment m (Some (mkAttachment name type size expires url (ip v))))
                      msg)
          end
  end.

(** handlePublishBody consumes the PUT/POST body and decides whether the
    body is an attachment or the message. *)
Definition handlePublishBody (o : publishEnv) (r : Request) (v : visitor)
    (m : message) (body : PeakedReadCloser) : M C message :=
  if is_Some_b (Attachment m) && nonEmpty (attachmentURL m) then
    handleBodyAsMessage m body                 (* Case 1 *)
  else if is_Some_b (Attachment m) && nonEmpty (attachmentName m) then
    handleBodyAsAttachment o r v m body        (* Case 2 *)
  else if negb (LimitReached body) && utf8Valid (PeakedBytes body) then
    handleBodyAsMessage m body                 (* Case 3 *)
  else
    handleBodyAsAttachment o r v m body.       (* Case 4 *)

Definition handlePublish (o : publishEnv) (r : Request) (v : visitor) : M C message :=
  t ← topicFromPath (Path r);
  s ← getServer;
  body ← liftE (Peak (Body r) (MessageLimit (config s)));
  let m := newDefaultMessage (topicID t) "" (newID o) (nowMessage o) in
  '(cache, firebase, email, m) ← parsePublishParams o r v m;
  m ← handlePublishBody o r v m body;
  let m := if String.eqb (Message m) "" then setMessage m emptyMessageBody else m in
  let delayed := Time_ m >? Unix (nowDelayed o) in
  when (negb delayed)
    (err ← Publish t m;
     match err with Some e => fail e | None => mret tt end);;
  when (is_Some_b (server.firebase s) && firebase && negb delayed)
    (emit (EvGoFirebase m));;
  when (is_Some_b (mailer_ s) && nonEmpty email && negb delayed)
    (emit (EvGoMail (ip v) email m));;
  when cache
    (s ← getServer;
     c ← liftE (AddMessage (cache_ s) (nowAddMessage o) m);
     putServer (setCache s c));;
  emit (EvResponse m);;
  match responseError o with
  | Some e => fail e
  | None =>
      s ← getServer;
      putServer (setMessages s (messages s + 1));;
      mret m
  end.

(** parseSince returns a timestamp identifying the time span from which
    cached messages should be received. *)
Definition parseSince (now : Time) (r : Request) (poll : bool) : error + sinceTime :=
  let since := readParam r ["x-since"; "since"; "si"] in
  if String.eqb since "" then
    if poll then inr sinceAllMessages else inr sinceNoMessages
  else if String.eqb since "all" then inr sinceAllMessages
  else match ParseInt since with
  | Some s => inr (Unix_ s)
  | None =>
      match ParseDuration since with
      | Some d => inr (Add now (wrapInt64 (-1 * d)))
      | None => inl (errorHTTP errHTTPBadRequestSinceInvalid)
      end
  end.

(** The encoders of [handleSubscribeJSON], [handleSubscribeSSE] and
    [handleSubscribeRaw]. *)
Definition encoderJSON : messageEncoder := encodeJSON.

Definition encoderSSE : messageEncoder := fun msg =>
  match encodeJSON msg with
  | inl err => inl err
  | inr buf =>
      if negb (String.eqb (Event msg) messageEvent)
      then inr ("event: " +:+ Event msg +:+ newline +:+ "data: " +:+ buf +:+ newline)
      else inr ("data: " +:+ buf +:+ newline)
  end.

Definition encoderRaw : messageEncoder := fun msg =>
  if String.eqb (Event msg) messageEvent
  then inr (newlinesToSpaces (Message msg) +:+ newline)
  else inr newline.

(** The closure [sub] of [handleSubscribe]. *)
Definition sub (o : subscribeEnv) (encoder : messageEncoder)
    (filters : string * string * list Z * list string) (msg : message) : M C unit :=
  let '(messageFilter, titleFilter, priorityFilter, tagsFilter) := filters in
  if negb (passesQueryFilter msg messageFilter titleFilter priorityFilter tagsFilter) then
    mret tt
  else
    match encoder msg with
    | inl err => fail err
    | inr m =>
        fun w =>
          match writeError o (length (events w)) with
          | Some err => (inl err, w)
          | None => emit (EvWrite msg m) w
          end
    end.

Fixpoint forEach {A} (l : list A) (f : A -> M C unit) : M C unit :=
  match l with
  | [] => mret tt
  | x :: rest => f x;; forEach rest f
  end.

Definition sendOldMessages (topics : list topic) (since : sinceTime) (scheduled : bool)
    (sub : message -> M C unit) : M C unit :=
  if IsNone since then mret tt
  else
    forEach topics (fun t =>
      s ← getServer;
      messages ← liftE (Messages (cache_ s) (topicID t) since scheduled);
      forEach messages sub).

(** [defer]: the clean-up runs however the body ends. *)
Definition finally {A} (body : M C A) (cleanup : M C unit) : M C A :=
  fun w => let '(r, w') := body w in (r, snd (cleanup w')).

(** [t.Subscribe(sub)] on the topic object the server holds under [id]. *)
Definition topicSubscribe (o : subscribeEnv) (id : string) : M C Z :=
  s ← getServer;
  let t := default (newTopic id) (topics s !! id) in
  let '(t', subscriberID) := Subscribe t (conn o) in
  putServer (setTopics s (<[id := t']> (topics s)));;
  mret subscriberID.

Definition topicUnsubscribe (id : string) (subscriberID : Z) : M C unit :=
  s ← getServer;
  putServer (setTopics s (alter (fun t => Unsubscribe t subscriberID) id (topics s))).

Fixpoint subscribeAll (o : subscribeEnv) (ts : list topic) : M C (list Z) :=
  match ts with
  | [] => mret []
  | t :: rest =>
      subscriberID ← topicSubscribe o (topicID t);
      ids ← subscribeAll o rest;
      mret (subscriberID :: ids)
  end.

Fixpoint unsubscribeAll (ts : list topic) (subscriberIDs : list Z) : M C unit :=
  match ts, subscriberIDs with
  | t :: ts', subscriberID :: ids' =>
      topicUnsubscribe (topicID t) subscriberID;; unsubscribeAll ts' ids'
  | _, _ => mret tt
  end.

(** [v.Keepalive()] on the visitor object the server holds. *)
Definition visitorKeepalive (v : visitor) (now : Time) : M C unit :=
  s ← getServer;
  putServer (setVisitors s (alter (fun v => Keepalive v now) (ip v) (visitors s))).

Definition handleSubscribe (o : subscribeEnv) (r : Request) (v : visitor)
    (format : string) (encoder : messageEncoder) : M C unit :=
  if negb (subscriptionAllowed o) then
    failHTTP errHTTPTooManyRequestsLimitSubscriptions
  else
    let topicsStr :=
      TrimSuffix (substring 1 (String.length (Path r) - 1) (Path r)) ("/" +:+ format) in
    let topicIDs := util.SplitNoEmpty topicsStr "," in
    topics ← topicsFromIDs topicIDs;
    let poll := String.eqb (readParam r ["x-poll"; "poll"; "po"]) "1" in
    let scheduled := String.eqb (readParam r ["x-scheduled"; "scheduled"; "sched"]) "1" in
    since ← liftE (parseSince (nowSince o) r poll);
    filters ← liftE (parseQueryFilters r);
    let sub := sub o encoder filters in
    if poll then sendOldMessages topics since scheduled sub
    else
      subscriberIDs ← subscribeAll o topics;
      finally
        (sub (newOpenMessage topicsStr (openID o) (nowOpen o));;
         sendOldMessages topics since scheduled sub;;
         forEach (keepaliveTicks o) (fun '(nowSeen, id, now) =>
           visitorKeepalive v nowSeen;;
           sub (newKeepaliveMessage topicsStr id now)))
        (unsubscribeAll topics subscriberIDs).

(** The loop body of [sendDelayedMessages], for one due message. *)
Definition sendDelayedMessage (m : message) : M C unit :=
  s ← getServer;
  match topics s !! Topic m with
  | Some t =>
      err ← Publish t m;
      match err with
      | Some e => emit (EvLog "unable to publish message" e)
      | None => mret tt
      end
  | None => mret tt
  end;;
  match firebase s with
  | Some fb =>
      emit (EvFirebase m);;
      match fb m with
      | Some e => emit (EvLog "unable to publish to Firebase" e)
      | None => mret tt
      end
  | None => mret tt
  end;;
  c ← liftE (MarkPublished (cache_ s) m);
  s ← getServer;
  putServer (setCache s c).

Definition sendDelayedMessages (now : Time) : M C unit :=
  s ← getServer;
  messages ← liftE (MessagesDue (cache_ s) now);
  forEach messages sendDelayedMessage.

(** One firing of the timer in [runAtSender]. *)
Definition runAtSender (now : Time) : M C unit :=
  fun w =>
    match sendDelayedMessages now w with
    | (inl err, w') => emit (EvLog "error sending scheduled messages" err) w'
    | (inr tt, w') => (inr tt, w')
    end.

(** The first loop of [updateStatsAndPrune]: expire visitors.  [now ip]
    is the clock when the visitor with key [ip] is examined. *)
Definition expireVisitors (now : string -> Time) (vs : gmap string visitor)
    : gmap string visitor :=
  filter (fun kv => Stale kv.2 (now kv.1) = false) vs.

(** The loop over the topics in [updateStatsAndPrune]; [acc] holds the
    running sums [subscribers] and [messages]. *)
Fixpoint pruneTopics (ts : list (string * topic)) (acc : Z * Z) : M C (Z * Z) :=
  match ts with
  | [] => mret acc
  | (_, t) :: rest =>
      s ← getServer;
      let subs := Subscribers t in
      match MessageCount (cache_ s) (topicID t) with
      | inl err => emit (EvLog "cannot get stats for topic" err);; pruneTopics rest acc
      | inr msgs =>
          if (msgs =? 0) && (subs =? 0) then
            putServer (setTopics s (delete (topicID t) (topics s)));;
            pruneTopics rest acc
          else pruneTopics rest (acc.1 + subs, acc.2 + msgs)
      end
  end.

Definition updateStatsAndPrune (nowStale : string -> Time) (nowExpired nowPrune : Time)
    : M C unit :=
  (* Expire visitors from rate visitors map *)
  s ← getServer;
  putServer (setVisitors s (expireVisitors nowStale (visitors s)));;
  (* Delete expired attachments *)
  match fileCache_ s with
  | Some fc =>
      match AttachmentsExpired (cache_ s) nowExpired with
      | inr ids =>
          emit (EvFileRemove ids);;
          match Remove fc ids with
          | Some err => emit (EvLog "error while deleting attachments" err)
          | None => mret tt
          end
      | inl err => emit (EvLog "error retrieving expired attachments" err)
      end
  | None => mret tt
  end;;
  (* Prune message cache *)
  let olderThan := Add nowPrune (-1 * CacheDuration (config s)) in
  s ← getServer;
  match Prune (cache_ s) olderThan with
  | inl err => emit (EvLog "error pruning cache" err)
  | inr c => putServer (setCache s c)
  end;;
  (* Prune old topics, remove subscriptions without subscribers *)
  s ← getServer;
  '(subscribers, messages) ← pruneTopics (map_to_list (topics s)) (0, 0);
  (* Print stats *)
  s ← getServer;
  emit (EvStats (server.messages s) messages (Z.of_nat (size (topics s))) subscribers
          (Z.of_nat (size (visitors s)))).

End Handlers.

(** ** The message cache backends *)

(** Modelled from the spec: a cache entry is a persisted message plus a
    [published] flag ([server/cache_mem.go] is not among the sources). *)
Record cacheEntry : Type := mkEntry {
  entry : message;
  published : bool
}.

Fixpoint insertByTime (e : cacheEntry) (l : list cacheEntry) : list cacheEntry :=
  match l with
  | [] => [e]
  | x :: rest =>
      if Time_ (entry e) <? Time_ (entry x) then e :: l else x :: insertByTime e rest
  end.

(** Non-decreasing [time], ties in insertion order. *)
Definition sortByTime (l : list cacheEntry) : list cacheEntry :=
  fold_left (fun acc e => insertByTime e acc) l [].

Definition sinceIncludes (since : sinceTime) (m : message) : bool :=
  if IsAll since then true
  else if IsNone since then false
  else Unix since <=? Time_ m.

Definition markEntry (m : message) (e : cacheEntry) : cacheEntry :=
  if String.eqb (ID (entry e)) (ID m) then mkEntry (entry e) true else e.

Definition attachmentSizeOf (owner : string) (e : cacheEntry) : Z :=
  match Attachment (entry e) with
  | Some a => if String.eqb (Owner a) owner then Size a else 0
  | None => 0
  end.

Definition attachmentExpired (now : Time) (e : cacheEntry) : bool :=
  match Attachment (entry e) with
  | Some a => nonEmpty (Owner a) && (Expires a <? Unix now)
  | None => false
  end.

(** Modelled from the spec: the in-memory backend of section 4.2.  A
    message whose delivery time is after the clock is stored with
    [published = false]; [Messages] leaves out unpublished entries unless
    scheduled ones are asked for, and knows the sentinels "all" and "none";
    [MessagesDue] returns the unpublished entries whose time has come;
    pruning spares entries that are not yet delivered. *)
#[global] Instance memCache : cache (list cacheEntry) := {
  AddMessage c now m := inr (c ++ [mkEntry m (negb (Time_ m >? Unix now))]);
  Messages c topic since scheduled :=
    inr (map entry
           (sortByTime
              (List.filter
                 (fun e => String.eqb (Topic (entry e)) topic
                           && sinceIncludes since (entry e)
                           && (published e || scheduled)) c)));
  MessagesDue c now :=
    inr (map entry
           (List.filter (fun e => negb (published e) && (Time_ (entry e) <=? Unix now)) c));
  MarkPublished c m := inr (map (markEntry m) c);
  MessageCount c topic :=
    inr (Z.of_nat (length (List.filter (fun e => String.eqb (Topic (entry e)) topic) c)));
  AttachmentsSize c owner := inr (fold_right Z.add 0 (map (attachmentSizeOf owner) c));
  AttachmentsExpired c now := inr (map (fun e => ID (entry e)) (List.filter (attachmentExpired now) c));
  Prune c olderThan :=
    inr (List.filter
           (fun e => negb (published e) || (Unix olderThan <=? Time_ (entry e))) c)
}.

(** Modelled from the spec: the no-op backend accepts writes and returns
    empty reads. *)
Definition nopCache : cache unit := {|
  AddMessage c _ _ := inr c;
  Messages _ _ _ _ := inr [];
  MessagesDue _ _ := inr [];
  MarkPublished c _ := inr c;
  MessageCount _ _ := inr 0;
  AttachmentsSize _ _ := inr 0;
  AttachmentsExpired _ _ := inr [];
  Prune c _ := inr c
|}.

(** ** A streaming subscription next to concurrent publishers

    [handleSubscribe] and [handleSubscribeWS] run in the goroutine of the
    subscribe request; each publish runs in a goroutine of its own and
    reaches the connection through the callback registered with
    [t.Subscribe(sub)].  The relation below interleaves the handler's
    statements, in program order, with the callback invocations of
    publishers.  Every write is atomic (the write mutex of the connection),
    and what is written is tagged with who wrote it. *)

Inductive origin : Type :=
| Open        (* sub(newOpenMessage(topicsStr)) *)
| Replay      (* sub(m) in sendOldMessages *)
| KeepaliveMsg   (* sub(newKeepaliveMessage(topicsStr)) *)
| Live.       (* the callback called from topic.Publish *)

#[global] Instance origin_eq_dec : EqDecision origin.
Proof. solve_decision. Defined.

(** Where the handler is. *)
Inductive pc : Type :=
| AtSubscribe (rest : list topic)   (* the loop calling t.Subscribe(sub) *)
| AtOpen                            (* about to send the open message *)
| AtReplay (pending : list message) (rest : list topic)   (* inside sendOldMessages *)
| AtLoop                            (* the keepalive loop, or g.Wait() *)
| Returned.                         (* handler returned, callbacks unsubscribed *)

Record connection (C : Type) : Type := mkConnection {
  at_ : pc;
  registered : list string;            (* topics holding the callback *)
  written : list (origin * message);   (* what the connection carried so far *)
  shared : C                           (* the message cache *)
}.
Arguments mkConnection {C}.
Arguments at_ {C}.
Arguments registered {C}.
Arguments written {C}.
Arguments shared {C}.

Section Streaming.
Context {C : Type} {cacheC : cache C}.
Variable topics : list topic.
Variable since : sinceTime.
Variable scheduled : bool.
Variable filters : string * string * list Z * list string.

Definition passes (msg : message) : bool :=
  let '(messageFilter, titleFilter, priorityFilter, tagsFilter) := filters in
  passesQueryFilter msg messageFilter titleFilter priorityFilter tagsFilter.

(** What [sub] adds to the connection. *)
Definition deliver (o : origin) (msg : message) (out : list (origin * message))
    : list (origin * message) :=
  if passes msg then out ++ [(o, msg)] else out.

Definition start (c : C) : connection C :=
  mkConnection (AtSubscribe topics) [] [] c.

(** Modelled from the spec: [topic.Publish] ([server/topic.go] is not among
    the sources) invokes the callbacks registered on the topic of the
    message, so a connection receives a published message once its callback
    is registered on that topic. *)
Definition receivesLive (reg : list string) (m : message) : Prop :=
  Event m = messageEvent /\ In (Topic m) reg.

Inductive step : connection C -> connection C -> Prop :=
| step_subscribe t rest reg out c :
    step (mkConnection (AtSubscribe (t :: rest)) reg out c)
         (mkConnection (AtSubscribe rest) (reg ++ [topicID t]) out c)
| step_subscribed reg out c :
    step (mkConnection (AtSubscribe []) reg out c)
         (mkConnection AtOpen reg out c)
| step_open m reg out c :
    Event m = openEvent ->
    step (mkConnection AtOpen reg out c)
         (mkConnection (if IsNone since then AtLoop else AtReplay [] topics)
                       reg (deliver Open m out) c)
| step_fetch t rest msgs reg out c :
    Messages c (topicID t) since scheduled = inr msgs ->
    step (mkConnection (AtReplay [] (t :: rest)) reg out c)
         (mkConnection (AtReplay msgs rest) reg out c)
| step_replay m pending rest reg out c :
    step (mkConnection (AtReplay (m :: pending) rest) reg out c)
         (mkConnection (AtReplay pending rest) reg (deliver Replay m out) c)
| step_replayed reg out c :
    step (mkConnection (AtReplay [] []) reg out c)
         (mkConnection AtLoop reg out c)
| step_keepalive m reg out c :
    Event m = keepaliveEvent ->
    step (mkConnection AtLoop reg out c)
         (mkConnection AtLoop reg (deliver KeepaliveMsg m out) c)
| step_return p reg out c :
    (* the request context is done, or a write or a cache read failed *)
    (forall rest, p <> AtSubscribe rest) ->
    step (mkConnection p reg out c)
         (mkConnection Returned [] out c)
| step_live m p reg out c :
    (* a publisher calls t.Publish(m) on a topic holding the callback *)
    receivesLive reg m ->
    step (mkConnection p reg out c)
         (mkConnection p reg (deliver Live m out) c)
| step_cache c' p reg out c :
    (* another request or a background loop changes the cache *)
    step (mkConnection p reg out c)
         (mkConnection p reg out c').

Inductive steps : connection C -> connection C -> Prop :=
| steps_refl x : steps x x
| steps_step x y z : steps x y -> step y z -> steps x z.

Definition reachable (x : connection C) : Prop :=
  exists c0, steps (start c0) x.

End Streaming.

(** ** [server/server.go]: the entry points *)

Definition errHTTPNotFound : errHTTP :=
  mkErrHTTP 40401 StatusNotFound "page not found" "".
Definition errHTTPTooManyRequestsLimitRequests : errHTTP :=
  mkErrHTTP 42901 StatusTooManyRequests "limit reached: too many requests, please be nice" "https://ntfy.sh/docs/publish/#limitations".
Definition errHTTPInternalError : errHTTP :=
  mkErrHTTP 50001 StatusInternalServerError "internal server error" "".

(** What [s.visitor(r)] and [withRateLimit] read from their environment. *)
Record requestEnv : Type := mkRequestEnv {
  behindProxy : bool;                        (* s.config.BehindProxy *)
  SplitHostPort : string -> option string;   (* net.SplitHostPort: the host, or an error *)
  nowVisitor : Time;                         (* time.Now() in newVisitor or in v.Keepalive() *)
  requestAllowed : bool                      (* v.RequestAllowed() == nil *)
}.

(** The key under which [s.visitor(r)] looks the visitor up. *)
Definition visitorKey (e : requestEnv) (r : Request) : string :=
  let remoteAddr := RemoteAddr r in
  let ip := match SplitHostPort e remoteAddr with
            | Some host => host
            | None => remoteAddr  (* This should not happen in real life; only in tests. *)
            end in
  if behindProxy e && nonEmpty (Header_Get (Header r) "X-Forwarded-For")
  then Header_Get (Header r) "X-Forwarded-For"
  else ip.

Section Dispatch.
Context {C : Type} {cacheC : cache C} {ext : External}.

(** [s.visitor(r)]: visitor creates or retrieves a rate.Limiter for the
    given visitor. *)
Definition Server_visitor (e : requestEnv) (r : Request) : M C visitor :=
  s ← getServer;
  let ip := visitorKey e r in
  match visitors s !! ip with
  | None =>
      let v := newVisitor (config s) ip (nowVisitor e) in
      putServer (setVisitors s (<[ip := v]> (visitors s)));;
      mret v
  | Some v =>
      let v := Keepalive v (nowVisitor e) in
      putServer (setVisitors s (<[ip := v]> (visitors s)));;
      mret v
  end.

Definition withRateLimit {A} (e : requestEnv) (r : Request)
    (handler : visitor -> M C A) : M C A :=
  v ← Server_visitor e r;
  if negb (requestAllowed e) then failHTTP errHTTPTooManyRequestsLimitRequests
  else handler v.

Definition handleSubscribeJSON (o : subscribeEnv) (r : Request) (v : visitor) : M C unit :=
  handleSubscribe o r v "json" encoderJSON.
Definition handleSubscribeSSE (o : subscribeEnv) (r : Request) (v : visitor) : M C unit :=
  handleSubscribe o r v "sse" encoderSSE.
Definition handleSubscribeRaw (o : subscribeEnv) (r : Request) (v : visitor) : M C unit :=
  handleSubscribe o r v "raw" encoderRaw.

(** The handler call [handleInternal] makes for a route, for the routes
    whose handlers are embedded here; the pages, the files and the
    WebSocket handler are not. *)
Definition routed (e : requestEnv) (po : publishEnv) (so : subscribeEnv) (r : Request)
    (rt : route) : option (M C unit) :=
  match rt with
  | toEmpty => Some (mret tt)
  | toPublish => Some (withRateLimit e r (fun v => handlePublish po r v;; mret tt))
  | toSubscribeJSON => Some (withRateLimit e r (handleSubscribeJSON so r))
  | toSubscribeSSE => Some (withRateLimit e r (handleSubscribeSSE so r))
  | toSubscribeRaw => Some (withRateLimit e r (handleSubscribeRaw so r))
  | toNotFound => Some (failHTTP errHTTPNotFound)
  | _ => None
  end.

(** [handle]: when the handler fails, the error response that is written
    (status [HTTPCode] and the JSON of the error); an error that is not an
    [*errHTTP] is reported as [errHTTPInternalError]. *)
Definition handle {A} (handler : M C A) : World C -> option errHTTP * World C :=
  fun w =>
    match handler w with
    | (inl err, w') =>
        (Some (match err with
               | errorHTTP e => e
               | errorString _ => errHTTPInternalError
               end), w')
    | (inr _, w') => (None, w')
    end.

End Dispatch.

End server.

(** * The specification's notions, and sample servers and requests *)

Import GoStd util server.

(** The spellings [ParsePriority] knows, after lower-casing and trimming. *)
Definition knownPriorities : list (string * Z) :=
  [("", 0); ("1", 1); ("min", 1); ("2", 2); ("low", 2); ("3", 3); ("default", 3);
   ("4", 4); ("high", 4); ("5", 5); ("max", 5); ("urgent", 5)].

Fixpoint assoc (k : string) (l : list (string * Z)) : option Z :=
  match l with
  | [] => None
  | (k', v) :: rest => if String.eqb k' k then Some v else assoc k rest
  end.

(** ** Request parameters by name *)

Definition cacheParam (r : Request) : string := readParam r ["x-cache"; "cache"].
Definition firebaseParam (r : Request) : string := readParam r ["x-firebase"; "firebase"].
Definition unifiedpushParam (r : Request) : string :=
  readParam r ["x-unifiedpush"; "unifiedpush"; "up"].
Definition filenameParam (r : Request) : string :=
  readParam r ["x-filename"; "filename"; "file"; "f"].
Definition attachParam (r : Request) : string := readParam r ["x-attach"; "attach"; "a"].
Definition emailParam (r : Request) : string :=
  readParam r ["x-email"; "x-e-mail"; "email"; "e-mail"; "mail"; "e"].
Definition priorityParam (r : Request) : string :=
  readParam r ["x-priority"; "priority"; "prio"; "p"].
Definition delayParam (r : Request) : string :=
  readParam r ["x-delay"; "delay"; "x-at"; "at"; "x-in"; "in"].
Definition sinceParam (r : Request) : string := readParam r ["x-since"; "since"; "si"].

(** Caching is requested unless the request says [cache: no]; the push
    hook is wanted unless it says [firebase: no] or is a UnifiedPush
    request. *)
Definition cacheRequested (r : Request) : bool :=
  negb (String.eqb (cacheParam r) "no").
Definition pushRequested (r : Request) : bool :=
  if String.eqb (unifiedpushParam r) "1" then false
  else negb (String.eqb (firebaseParam r) "no").

(** ** Publishing *)

(** Step 5 of the publish pipeline, in the specification's words. *)
Inductive disposition : Type :=
| BodyIsMessage
| BodyIsAttachment.

Definition bodyDisposition (r : Request) (body : PeakedReadCloser) : disposition :=
  if nonEmpty (attachParam r) then BodyIsMessage
  else if nonEmpty (filenameParam r) then BodyIsAttachment
  else if utf8Valid (PeakedBytes body) && negb (LimitReached body) then BodyIsMessage
  else BodyIsAttachment.

(** The delivery time is in the future when the handler looks at the
    clock. *)
Definition delayed (o : publishEnv) (m : message) : bool :=
  Time_ m >? Unix (nowDelayed o).

(** What a publish does after the message is complete: live fan-out unless
    delayed, the push and e-mail tasks if applicable, the response. *)
Definition publishEvents {C} (s : Server C) (o : publishEnv) (t : topic) (v : visitor)
    (push : bool) (email : string) (m : message) : list event :=
  (if delayed o m then [] else [EvPublish (topicID t) m])
  ++ (if is_Some_b (firebase s) && push && negb (delayed o m)
      then [EvGoFirebase m] else [])
  ++ (if is_Some_b (mailer_ s) && nonEmpty email && negb (delayed o m)
      then [EvGoMail (ip v) email m] else [])
  ++ [EvResponse m].

(** The checks of [parsePublishParams] that come before the priority is
    parsed. *)
Definition earlierChecksPass {C} (s : Server C) (o : publishEnv) (r : Request) : bool :=
  (negb (nonEmpty (attachParam r)) || attachURLRegex (attachParam r))
  && (negb (nonEmpty (emailParam r)) || (emailAllowed o && is_Some_b (mailer_ s))).

(** The body handlers touch only the text and the attachment of a
    message. *)
Definition sameEnvelope (m m' : message) : Prop :=
  ID m' = ID m /\ Time_ m' = Time_ m /\ Event m' = Event m /\ Topic m' = Topic m
  /\ Priority m' = Priority m /\ Tags m' = Tags m /\ Title m' = Title m /\ Click m' = Click m.

(** A computation that leaves server and events as they are. *)
Definition readonly {C A} (c : M C A) : Prop := forall w, snd (c w) = w.

(** A computation that may add topics to the registry and does nothing
    else. *)
Definition onlyTopics {C A} (c : M C A) : Prop :=
  forall w, let w' := snd (c w) in
    events w' = events w /\ srv w' = setTopics (srv w) (topics (srv w')).

(** ** Visitors *)

(** The staleness threshold in the specification's words: one full refill
    interval of the request limiter (the time in which an empty bucket of
    [burst] tokens fills up again) or a configured minimum, whichever is
    larger. *)
Definition fullRefillInterval (l : Limiter) : Z := every l * burst l.

Definition specStaleThreshold (minimum : Z) (v : visitor) : Z :=
  Z.max (fullRefillInterval (requestLimiter v)) minimum.

(** How long a visitor has been inactive, as [time.Since(v.seen)] measures
    it before saturation. *)
Definition inactiveFor (v : visitor) (now : Time) : Z :=
  match mono now, mono (seen v) with
  | Some a, Some b => a - b
  | _, _ => wall now - wall (seen v)
  end.

(** A computation that leaves the visitor registry as it is. *)
Definition keepsVisitors {C A} (c : M C A) : Prop :=
  forall w, visitors (srv (snd (c w))) = visitors (srv w).

(** A server that refills one request token every 48 hours, and a visitor
    of it last seen 30 hours before the manager loop runs. *)
Definition slowRefillConfig : Config :=
  mkConfig "http://ntfy.example" (12 * Hour) "" 0 0 (45 * Second) 4096
           (10 * Second) (72 * Hour) 5000 0 1 (48 * Hour) 30.

Definition idleVisitor : visitor :=
  newVisitor slowRefillConfig "10.0.0.7" (mkTime (1700000000 * Second) (Some 5)).

Definition thirtyHoursLater : Time :=
  mkTime (1700000000 * Second + 30 * Hour) (Some (5 + 30 * Hour)).

(** ** Replay *)

(** "The messages with time >= the given unix timestamp", for the in-memory
    cache: the entries of the topic at or after [unix], unpublished ones
    only on request, ordered by time. *)
Definition messagesSinceUnix (c : list cacheEntry) (topic : string) (unix : Z)
    (scheduled : bool) : list message :=
  map entry
    (sortByTime
       (List.filter
          (fun e => String.eqb (Topic (entry e)) topic
                    && (unix <=? Time_ (entry e))
                    && (published e || scheduled)) c)).

(** Everything cached for a topic. *)
Definition messagesAll (c : list cacheEntry) (topic : string) (scheduled : bool)
    : list message :=
  map entry
    (sortByTime
       (List.filter
          (fun e => String.eqb (Topic (entry e)) topic && (published e || scheduled)) c)).

(** What [sendOldMessages] does when it is not cut short. *)
Definition replayEachTopic {C} `{cache C} (topics : list topic) (since : sinceTime)
    (scheduled : bool) (sub : message -> M C unit) : M C unit :=
  forEach topics (fun t =>
    s ← getServer;
    messages ← liftE (Messages (cache_ s) (topicID t) since scheduled);
    forEach messages sub).

(** The parameters of a subscription that decide the replay, and the topic
    list of its path: what lies between the leading slash and the format
    suffix. *)
Definition pollParam (r : Request) : string := readParam r ["x-poll"; "poll"; "po"].
Definition scheduledParam (r : Request) : string :=
  readParam r ["x-scheduled"; "scheduled"; "sched"].
Definition subscribePathTopics (r : Request) (format : string) : string :=
  TrimSuffix (substring 1 (String.length (Path r) - 1) (Path r)) ("/" +:+ format).

(** A streaming subscription around a given replay step: subscribe, write
    the open message, replay, keep alive until the client goes, unsubscribe. *)
Definition streamAround {C} {cacheC : cache C} {ext : External} (o : subscribeEnv)
    (v : visitor) (topicsStr : string) (topics : list topic)
    (sub : message -> M C unit) (replay : M C unit) : M C unit :=
  subscriberIDs ← subscribeAll o topics;
  finally
    (sub (newOpenMessage topicsStr (openID o) (nowOpen o));;
     replay;;
     forEach (keepaliveTicks o) (fun '(nowSeen, id, now) =>
       visitorKeepalive v nowSeen;;
       sub (newKeepaliveMessage topicsStr id now)))
    (unsubscribeAll topics subscriberIDs).

(** The writes of a replay: one per message, in order. *)
Definition replayWrites (f : message -> string) (msgs : list message) : list event :=
  map (fun m => EvWrite m (f m)) msgs.

(** A cache holding one published message dated five seconds after the
    epoch, and one holding a message dated five seconds before it. *)
Definition earlyMessage : message :=
  mkMessage "kq3mDx8Wp2" 5 messageEvent "alerts" "disk full" "" [] 0 "" None.

Definition beforeEpochMessage : message :=
  mkMessage "Zb81LmQa0x" (-5) messageEvent "alerts" "clock reset" "" [] 0 "" None.

(** ** A concrete server *)

Module Sample.

Definition conf : Config :=
  mkConfig "http://ntfy.example" (12 * Hour) "/var/cache/ntfy/attachments"
           (15 * 1024 * 1024) (3 * Hour) (45 * Second) 4096
           (10 * Second) (72 * Hour) 2 (100 * 1024 * 1024) 60 (5 * Second) 30.

(** No topics, no visitors, an empty in-memory cache, no hooks. *)
Definition server : Server (list cacheEntry) :=
  mkServer conf ∅ ∅ None None 0 [] None.

Definition world : World (list cacheEntry) := mkWorld server [].



(** Durations of the form [<digits>h], [<digits>m] and [<digits>s]. *)
Definition parseDuration (s : string) : option Z :=
  let n := String.length s in
  match parseUnsigned (substring 0 (n - 1) s) with
  | Some k =>
      match substring (n - 1) 1 s with
      | "h" => Some (k * Hour)
      | "m" => Some (k * 60 * Second)
      | "s" => Some (k * Second)
      | _ => None
      end
  | None => None
  end.

(** Library functions for the examples: a delay is a duration from now or
    a unix timestamp; every body is an octet stream; the peek reads up to
    the limit and reports whether it was reached; [Publish] never fails;
    the encoder writes id and text. *)
Definition ext : External := {|
  ParseDuration := parseDuration;
  ParseFutureTime s now :=
    match parseDuration s with
    | Some d => Some (Add now d)
    | None => option_map Unix_ (ParseInt s)
    end;
  DetectContentType _ _ := ("application/octet-stream", ".bin");
  urlPathBase url := Some (List.last (Split "/" url) "");
  Peak body limit :=
    inr (mkPeaked (substring 0 (Z.to_nat limit) body)
                  (limit <=? Z.of_nat (String.length body))
                  (substring (Z.to_nat limit) (String.length body - Z.to_nat limit) body));
  publishError _ _ := None;
  encodeJSON m := inr ("id=" +:+ ID m +:+ " message=" +:+ Message m)
|}.

Definition visitor : server.visitor :=
  newVisitor conf "10.0.0.7" (mkTime (1700000000 * Second) (Some 5)).

(** The clock of one publish: every reading is a little later than the one
    before. *)
Definition clock (n : Z) : Time := mkTime (1700000300 * Second + n) (Some (1000 + n)).

Definition env : publishEnv :=
  mkPublishEnv "Mz4tQw9Jx1" (clock 1) (clock 2) (clock 3) (clock 4) (clock 5) (clock 6)
               (clock 7) (clock 8) true None.

(** [PUT /alerts] with body [hello] and no parameters. *)
Definition putHello : Request :=
  mkRequest "PUT" "/alerts" [] [] "hello" "10.0.0.7:51234".

(** [PUT /alerts?priority=urgent] *)
Definition putUrgent : Request :=
  mkRequest "PUT" "/alerts" [] [("priority", "urgent")] "fire" "10.0.0.7:51234".

(** [PUT /alerts?priority=bogus] *)
Definition putBogus : Request :=
  mkRequest "PUT" "/alerts" [] [("priority", "bogus")] "fire" "10.0.0.7:51234".

(** [PUT /alerts?delay=30m] *)
Definition putDelayed : Request :=
  mkRequest "PUT" "/alerts" [] [("delay", "30m")] "later" "10.0.0.7:51234".

(** [GET /mytopic,docs/json]: a subscription to a new topic and to a
    reserved name. *)
Definition subscribeMixed : Request :=
  mkRequest "GET" "/mytopic,docs/json" [] [] "" "10.0.0.7:51234".

(** [GET /alerts/json?since=yesterday] and [GET /alerts/json?poll=1]. *)
Definition subscribeBadSince : Request :=
  mkRequest "GET" "/alerts/json" [] [("since", "yesterday")] "" "10.0.0.7:51234".

Definition pollAll : Request :=
  mkRequest "GET" "/alerts/json" [] [("poll", "1")] "" "10.0.0.7:51234".

(** [GET /alerts/json?since=all] and [GET /alerts/json]. *)
Definition streamAll : Request :=
  mkRequest "GET" "/alerts/json" [] [("since", "all")] "" "10.0.0.7:51234".

Definition streamOnly : Request :=
  mkRequest "GET" "/alerts/json" [] [] "" "10.0.0.7:51234".

(** A server whose cache holds one published message of [alerts]. *)
Definition oldMessage : message :=
  mkMessage "Hq7RvT2mKe" 1700000000 messageEvent "alerts" "disk at 91%" "" [] 0 "" None.

Definition cachedWorld : World (list cacheEntry) :=
  mkWorld (mkServer conf (<["alerts" := newTopic "alerts"]> ∅) ∅ None None 1
                    [mkEntry oldMessage true] None) [].

(** [GET /alerts/json?since=1] *)
Definition subscribeSinceOne : Request :=
  mkRequest "GET" "/alerts/json" [] [("since", "1")] "" "10.0.0.7:51234".

(** [PUT /docs] *)
Definition putDocs : Request :=
  mkRequest "PUT" "/docs" [] [] "hello" "10.0.0.7:51234".

(** The sample server once the topic [alerts] exists. *)
Definition alertsWorld : World (list cacheEntry) :=
  mkWorld (mkServer conf (<["alerts" := newTopic "alerts"]> ∅) ∅ None None 0 [] None) [].

(** A message tagged [disk] and [warning]. *)
Definition tagged : message :=
  mkMessage "Yc6WqE1rTz" 1700000000 messageEvent "alerts" "disk at 91%" ""
            ["disk"; "warning"] 0 "" None.

(** The environment of a subscription whose client goes away before the
    first keepalive; no write fails. *)
Definition subEnv : subscribeEnv :=
  mkSubscribeEnv 1 true (clock 0) "Op7cVb2NmQ" (clock 1) [] (fun _ => None).

(** The message of that request, due half an hour after the clock reading
    [clock 2], and the server after the request. *)
Definition delayedMessage : message :=
  mkMessage "Mz4tQw9Jx1" 1700002100 messageEvent "alerts" "later" "" [] 0 "" None.

Definition delayedWorld : World (list cacheEntry) :=
  mkWorld
    (mkServer conf (<["alerts" := newTopic "alerts"]> ∅) ∅ None None 1
              [mkEntry delayedMessage false] None)
    [EvResponse delayedMessage].

End Sample.

(** ** Scheduled delivery *)

(** What the scheduler does for one due message before it marks it: publish
    to the topic if it still exists, call the push hook if configured;
    an error of either is logged. *)
Definition deliveryEvents {C} `{External} (s : Server C) (m : message) : list event :=
  match topics s !! Topic m with
  | Some t =>
      EvPublish (topicID t) m ::
      match publishError (topicID t) m with
      | Some e => [EvLog "unable to publish message" e]
      | None => []
      end
  | None => []
  end
  ++
  match firebase s with
  | Some fb =>
      EvFirebase m ::
      match fb m with
      | Some e => [EvLog "unable to publish to Firebase" e]
      | None => []
      end
  | None => []
  end.

(** The cache after [MarkPublished] has been called for the messages one
    after the other, or the first error of a call. *)
Fixpoint markedInOrder {C} `{cache C} (c : C) (ms : list message) : error + C :=
  match ms with
  | [] => inr c
  | m :: rest =>
      match MarkPublished c m with
      | inr c' => markedInOrder c' rest
      | inl e => inl e
      end
  end.

(** A backend whose store has become read-only: reads are those of the
    in-memory cache, [MarkPublished] returns an error. *)
Definition lockedCache : cache (list cacheEntry) := {|
  AddMessage := AddMessage (cache := memCache);
  Messages := Messages (cache := memCache);
  MessagesDue := MessagesDue (cache := memCache);
  MarkPublished _ _ := inl (errorString "database is locked");
  MessageCount := MessageCount (cache := memCache);
  AttachmentsSize := AttachmentsSize (cache := memCache);
  AttachmentsExpired := AttachmentsExpired (cache := memCache);
  Prune := Prune (cache := memCache)
|}.

Module Scheduled.

Definition first : message :=
  mkMessage "Rk2pQz71Lm" 1700000100 messageEvent "alerts" "backup done" "" [] 0 "" None.

Definition second : message :=
  mkMessage "Ua90XcvB3n" 1700000160 messageEvent "alerts" "backup verified" "" [] 0 "" None.

(** Two scheduled messages, both due; the topic has a subscriber list. *)
Definition server : Server (list cacheEntry) :=
  mkServer Sample.conf (<["alerts" := newTopic "alerts"]> ∅) ∅ None None 2
           [mkEntry first false; mkEntry second false] None.

Definition world : World (list cacheEntry) := mkWorld server [].

Definition now : Time := mkTime (1700000200 * Second) (Some 900).

End Scheduled.

(** ** Order on a streaming connection *)

(** The open event comes before any replayed message. *)
Definition openBeforeReplay (out : list (origin * message)) : Prop :=
  forall i m, out !! i = Some (Replay, m) ->
    exists j o, (j < i)%nat /\ out !! j = Some (Open, o).

(** Every replayed message comes before any live message. *)
Definition replayBeforeLive (out : list (origin * message)) : Prop :=
  forall i j m m', out !! i = Some (Replay, m) -> out !! j = Some (Live, m') -> (i < j)%nat.

(** The handler has finished the replay. *)
Definition replayDone (p : pc) : Prop := p = AtLoop \/ p = Returned.

(** While the handler replays, the open message is on the connection. *)
Definition streamInvariant {C} (x : connection C) : Prop :=
  openBeforeReplay (written x)
  /\ match at_ x with
     | AtReplay _ _ => exists op, In (Open, op) (written x)
     | _ => True
     end.

(** A subscriber without query filters. *)
Definition noFilters : string * string * list Z * list string := ("", "", [], []).

Module Stream.

Definition cached : message :=
  mkMessage "Hq7RvT2mKe" 1700000000 messageEvent "alerts" "disk at 91%" "" [] 0 "" None.

Definition live : message :=
  mkMessage "Pw3ZxN8cYd" 1700000301 messageEvent "alerts" "disk at 95%" "" [] 0 "" None.

Definition opened : message :=
  newOpenMessage "alerts" "Bt5LkJ0sGh" (mkTime (1700000301 * Second) (Some 77)).

(** What the connection has carried when a publish arrives between
    [t.Subscribe(sub)] and the open message. *)
Definition liveFirst : connection (list cacheEntry) :=
  mkConnection (AtReplay [] []) ["alerts"]
               [(Live, live); (Open, opened); (Replay, cached)]
               [mkEntry cached true].

End Stream.

(** ** Reading a rendered duration

    One unit of the text [DurationToHuman] writes: the numeral and the
    unit letter for a positive count, nothing otherwise. *)
Definition unitPart (n : Z) (unit : string) : string :=
  if n >? 0 then Sprintf_d n +:+ unit else "".

(** The whole seconds of a duration after rounding. *)
Definition roundedSeconds (d : Z) : Z := Round d Second / Second.

(** A string given by its bytes. *)
Definition bytes (l : list Z) : string :=
  fold_right (fun n s => String (byteOf n) s) "" l.

(** A string that is empty or begins with a byte that starts a rune. *)
Definition startsRune (s : string) : bool :=
  match s with
  | EmptyString => true
  | String c _ => negb (isCont c)
  end.

(** The Unicode scalar values: all that [utf8.EncodeRune] writes as they
    are. *)
Definition validRune (r : Z) : bool :=
  (0 <=? r) && (r <=? MaxRune) && negb ((55296 <=? r) && (r <=? 57343)).

Definition runesFrom (lo hi : Z) : list Z :=
  map (fun k => lo + Z.of_nat k) (seq 0 (Z.to_nat (hi - lo + 1))).

(** What is asked of the lower-case image of a rune: it is a scalar value
    and is its own lower-case image. *)
Definition lowerOk (r : Z) : bool :=
  validRune (ToLowerRune r) && (ToLowerRune (ToLowerRune r) =? ToLowerRune r).

(** The white-space runes, in UTF-8. *)
Definition spaceRunes : list string :=
  map (fun n => bytes [n]) [9; 10; 11; 12; 13; 32]
  ++ [bytes [194; 133]; bytes [194; 160]; bytes [225; 154; 128]]
  ++ map (fun n => bytes [226; 128; n])
       [128; 129; 130; 131; 132; 133; 134; 135; 136; 137; 138; 168; 169; 175]
  ++ [bytes [226; 129; 159]; bytes [227; 128; 128]].

(** The request [r] with another query string. *)
Definition withQuery (r : Request) (q : list (string * string)) : Request :=
  mkRequest (Method r) (Path r) (Header r) q (Body r) (RemoteAddr r).

(** ** The topic registry *)

(** The registry files every topic under its own id. *)
Definition registryKeyed (ts : gmap string topic) : Prop :=
  forall id t, ts !! id = Some t -> topicID t = id.

(** A computation that keeps the registry filed that way. *)
Definition keepsKeyed {C A} (c : M C A) : Prop :=
  forall w, registryKeyed (topics (srv w)) -> registryKeyed (topics (srv (snd (c w)))).

(** A computation that leaves the registry as it is. *)
Definition keepsTopics {C A} (c : M C A) : Prop :=
  forall w, topics (srv (snd (c w))) = topics (srv w).

(** The test of the manager loop for dropping a topic: no cached message
    and no subscriber. *)
Definition prunable {C} `{cache C} (c : C) (t : topic) : bool :=
  match MessageCount c (topicID t) with
  | inr msgs => (msgs =? 0) && (Subscribers t =? 0)
  | inl _ => false
  end.

(** The registry without the topics the manager loop drops. *)
Definition prunedRegistry {C} `{cache C} (c : C) (ts : gmap string topic)
    : gmap string topic :=
  filter (fun kt => prunable c kt.2 = false) ts.

(** ** Subscribers *)

(** The subscribers of the topic filed under [id], none if there is no such
    topic. *)
Definition subscribersOf (ts : gmap string topic) (id : string) : gmap Z nat :=
  match ts !! id with
  | Some t => subscribers t
  | None => ∅
  end.

(** No subscriber of a topic has an id above the topic's id counter, so the
    next id the topic hands out is new. *)
Definition freshSubscriberIDs (ts : gmap string topic) : Prop :=
  forall id t k, ts !! id = Some t -> is_Some (subscribers t !! k) -> k <= lastSubscriberID t.

(** The registry after the deferred loop of [handleSubscribe] has
    unsubscribed the ids from the topics, pairwise. *)
Fixpoint unsubscribedRegistry (ts : list topic) (ids : list Z) (R : gmap string topic)
    : gmap string topic :=
  match ts, ids with
  | t :: ts', subscriberID :: ids' =>
      unsubscribedRegistry ts' ids'
        (alter (fun t => Unsubscribe t subscriberID) (topicID t) R)
  | _, _ => R
  end.

(** ** More sample requests *)

Module Cases.

(** [POST /alerts] with a tag list and a title in the headers, and the
    message and the server the sample server with topic [alerts] makes of
    it. *)
Definition putTagged : Request :=
  mkRequest "POST" "/alerts" [("X-Tags", "disk, warning ,,x"); ("X-Title", " Disk ")] []
            "disk at 91%" "10.0.0.7:51234".

Definition taggedMessage : message :=
  mkMessage "Mz4tQw9Jx1" 1700000300 messageEvent "alerts" "disk at 91%" "Disk"
            ["disk"; "warning"; "x"] 0 "" None.

Definition taggedWorld : World (list cacheEntry) :=
  mkWorld
    (mkServer Sample.conf (<["alerts" := newTopic "alerts"]> ∅) ∅ None None 1
              [mkEntry taggedMessage true] None)
    [EvPublish "alerts" taggedMessage; EvResponse taggedMessage].






(** [GET /alerts/json?priority=high,bogus] and [GET /alerts/json?since=30m]. *)
Definition subscribeBogus : Request :=
  mkRequest "GET" "/alerts/json" [] [("priority", "high,bogus")] "" "10.0.0.7:51234".

Definition subscribeHalfHour : Request :=
  mkRequest "GET" "/alerts/json" [] [("since", "30m")] "" "10.0.0.7:51234".

(** [PUT /alerts?priority=high] with a priority header of one blank. *)
Definition blankHeader : Request :=
  mkRequest "PUT" "/alerts" [("X-Priority", " ")] [("priority", "high")] "" "10.0.0.7:51234".

(** The host of [host:port]. *)
Definition hostOf (addr : string) : option string :=
  match Split ":" addr with
  | [host; _] => Some host
  | _ => None
  end.

(** A request of a visitor that is over its request limit, on a server
    that is not behind a proxy. *)
Definition limited : requestEnv := mkRequestEnv false hostOf (Sample.clock 0) false.

(** The manager examines every visitor one hour after [Sample.clock 0]. *)
Definition anHourLater (_ : string) : Time := Sample.clock (3600 * Second).

End Cases.

(** * Properties *)

(** ** The library models on small inputs *)

Example ParseInt_examples :
  ParseInt "42" = Some 42 /\ ParseInt "-7" = Some (-7) /\ ParseInt "+0" = Some 0
  /\ ParseInt "" = None /\ ParseInt "12h" = None /\ ParseInt "-" = None
  /\ ParseInt "9223372036854775807" = Some maxInt64
  /\ ParseInt "9223372036854775808" = None
  /\ ParseInt "-9223372036854775808" = Some minInt64.
Proof. repeat split. Qed.

Example strings_examples :
  TrimSpace "  a b  " = "a b" /\ TrimSpace "   " = "" /\ ToLower "URGENT" = "urgent"
  /\ Split "/" "/alerts" = [""; "alerts"]
  /\ SplitNoEmpty "a,,b," "," = ["a"; "b"]
  /\ TrimSuffix "alerts,backup/json" "/json" = "alerts,backup"
  /\ attachURLRegex "https://example.com/f.jpg" = true
  /\ attachURLRegex "ftp://example.com/f.jpg" = false.
Proof. repeat split. Qed.

(** White space and letters outside ASCII: no-break spaces around [5], an em
    space before and a broken sequence after [a], [HIGH] written with a
    dotted capital I, a capital E with acute followed by an invalid byte. *)
Example unicode_examples :
  TrimSpace (bytes [194; 160; 53; 194; 160]) = "5"
  /\ TrimSpace (bytes [226; 128; 131; 97; 226; 128]) = bytes [97; 226; 128]
  /\ ToLower (bytes [72; 196; 176; 71; 72]) = "high"
  /\ ToLower (bytes [195; 137; 255]) = bytes [195; 169; 239; 191; 189]
  /\ ParsePriority (bytes [194; 160; 53; 194; 160]) = inr 5
  /\ ParsePriority (bytes [72; 196; 176; 71; 72]) = inr 4.
Proof. vm_compute. repeat split. Qed.

Example utf8Valid_examples :
  utf8Valid "hello" = true
  /\ utf8Valid (String (ascii_of_nat 195) (String (ascii_of_nat 169) "")) = true
  /\ utf8Valid (String (ascii_of_nat 192) (String (ascii_of_nat 128) "")) = false
  /\ utf8Valid (String (ascii_of_nat 255) "") = false
  /\ utf8Valid (String (ascii_of_nat 226) (String (ascii_of_nat 130) "")) = false.
Proof. repeat split. Qed.

(** A header wins over the query string, and the value is trimmed. *)
Example readParam_examples :
  readParam (mkRequest "PUT" "/alerts" [("X-Priority", " high ")] [("priority", "low")] "" "")
            ["x-priority"; "priority"; "prio"; "p"] = "high"
  /\ readParam (mkRequest "PUT" "/alerts" [] [("p", "low")] "" "")
               ["x-priority"; "priority"; "prio"; "p"] = "low"
  /\ readParam (mkRequest "PUT" "/alerts" [] [] "" "")
               ["x-priority"; "priority"; "prio"; "p"] = "".
Proof. repeat split. Qed.

(** The reserved names are well-formed topic names, so only the list keeps
    them out. *)
Lemma reserved_names_match_topicRegex :
  Forall (fun id => topicRegex id = true) disallowedTopics.
Proof. repeat constructor. Qed.

(** [PUT /alerts] with body [hello] on the sample server: fan-out, then the
    response; the message is cached as published.  With
    [priority=urgent] the message carries priority 5. *)
Example handlePublish_examples :
  (let r := handlePublish (ext := Sample.ext) Sample.env Sample.putHello Sample.visitor
              Sample.world in
   exists m, fst r = inr m /\ Message m = "hello" /\ Topic m = "alerts"
     /\ events (snd r) = [EvPublish "alerts" m; EvResponse m]
     /\ cache_ (srv (snd r)) = [mkEntry m true])
  /\ (exists m, fst (handlePublish (ext := Sample.ext) Sample.env Sample.putUrgent
                      Sample.visitor Sample.world) = inr m
        /\ Priority m = 5).
Proof. split; eexists; vm_compute; repeat split. Qed.

(** With no publisher around, a stream with [since=all] writes the open
    event and then the cached message; without [since] it writes the open
    event only; a poll writes the cached message only. *)
Example handleSubscribe_examples :
  let opened := newOpenMessage "alerts" (openID Sample.subEnv) (nowOpen Sample.subEnv) in
  let run r := events (snd (handleSubscribe (ext := Sample.ext) Sample.subEnv r
                              Sample.visitor "json" (encoderJSON (ext := Sample.ext))
                              Sample.cachedWorld)) in
  run Sample.streamAll
    = [EvWrite opened "id=Op7cVb2NmQ message=";
       EvWrite Sample.oldMessage "id=Hq7RvT2mKe message=disk at 91%"]
  /\ run Sample.streamOnly = [EvWrite opened "id=Op7cVb2NmQ message="]
  /\ run Sample.pollAll
       = [EvWrite Sample.oldMessage "id=Hq7RvT2mKe message=disk at 91%"].
Proof. vm_compute. repeat split. Qed.

(** Where requests go: a publish to a reserved name and a subscription
    that lists one reach the publish and subscribe handlers; [GET] requests
    under [/docs], [/static] and [/file] are served as pages and files. *)
Example handleInternal_examples :
  handleInternal Sample.conf Sample.putHello = toPublish
  /\ handleInternal Sample.conf Sample.putDocs = toPublish
  /\ handleInternal Sample.conf Sample.subscribeMixed = toSubscribeJSON
  /\ handleInternal Sample.conf Sample.streamAll = toSubscribeJSON
  /\ handleInternal Sample.conf (mkRequest "GET" "/alerts/trigger" [] [] "" "") = toPublish
  /\ handleInternal Sample.conf (mkRequest "GET" "/alerts" [] [] "" "") = toTopic
  /\ handleInternal Sample.conf (mkRequest "GET" "/docs/json" [] [] "" "") = toDocs
  /\ handleInternal Sample.conf (mkRequest "GET" "/static/json" [] [] "" "") = toStatic
  /\ handleInternal Sample.conf (mkRequest "GET" "/file/json" [] [] "" "") = toFile
  /\ handleInternal Sample.conf (mkRequest "DELETE" "/alerts" [] [] "" "") = toNotFound.
Proof. repeat split. Qed.

(** ** Priorities *)

Lemma ParsePriority_table (priority : string) :
  ParsePriority priority =
  match assoc (TrimSpace (ToLower priority)) knownPriorities with
  | Some n => inr n
  | None => inl errInvalidPriority
  end.
Proof.
  unfold ParsePriority, knownPriorities, assoc.
  set (p := TrimSpace (ToLower priority)).
  rewrite !(String.eqb_sym _ p).
  repeat (destruct (String.eqb p _); [reflexivity|]); reflexivity.
Qed.

Lemma ParsePriority_range (priority : string) (n : Z) :
  ParsePriority priority = inr n -> 0 <= n <= 5.
Proof.
  unfold ParsePriority.
  repeat (match goal with
          | |- context [if ?b then _ else _] => destruct b
          end; [intros [= <-]; lia|]).
  discriminate.
Qed.

(** ** Running handlers *)

Ltac munfold :=
  unfold mbind, M_bind, mret, M_ret, when, failHTTP, fail, liftE, getServer,
    putServer, emit in *.

Section HandlerFacts.
Context {C : Type} {cacheC : cache C} {ext : External}.

Lemma readonly_ret {A} (x : A) : readonly (C:=C) (mret x).
Proof. intros w. reflexivity. Qed.

Lemma readonly_failHTTP {A} e : readonly (@failHTTP C A e).
Proof. intros w. reflexivity. Qed.

Lemma when_failHTTP_inv b e (w : World C) x w' :
  when b (failHTTP e) w = (inr x, w') -> b = false /\ w' = w.
Proof. destruct b; simpl; munfold; [discriminate|]. intros [= _ <-]. auto. Qed.

Lemma parseAttach_inv attach m (w : World C) m' w' :
  parseAttach attach m w = (inr m', w') ->
  w' = w /\ m' = setAttachment m (Attachment m') /\
  (nonEmpty attach = false -> m' = m) /\
  (nonEmpty attach = true -> attachURLRegex attach = true /\
     (is_Some_b (Attachment m) = true ->
      is_Some_b (Attachment m') = true /\ attachmentURL m' = attach)).
Proof.
  unfold parseAttach. destruct m as [i t e tp ms ti tg pr cl [a|]];
  repeat case_match; munfold; intros [= <- <-]; simpl;
  repeat split; try congruence; try discriminate;
  match goal with
  | H : negb (attachURLRegex attach) = false |- _ =>
      apply negb_false_iff in H; exact H
  end.
Qed.

Lemma parseDelay_inv o conf cache email delayStr m (w : World C) m' w' :
  parseDelay o conf cache email delayStr m w = (inr m', w') ->
  w' = w /\
  (nonEmpty delayStr = false -> m' = m) /\
  (nonEmpty delayStr = true ->
     cache = true /\ email = "" /\
     exists delay, ParseFutureTime delayStr (nowDelay o) = Some delay /\
       m' = setTime m (Unix delay) /\
       Unix (Add (nowMinDelay o) (MinDelay conf)) <= Unix delay
         <= Unix (Add (nowMaxDelay o) (MaxDelay conf))).
Proof.
  unfold parseDelay, nonEmpty.
  destruct (String.eqb delayStr "") eqn:Hd; simpl.
  - munfold. intros [= <- <-]. repeat split; auto; discriminate.
  - destruct cache; simpl; [|munfold; discriminate].
    destruct (String.eqb email "") eqn:He; simpl; [|munfold; discriminate].
    apply String.eqb_eq in He.
    destruct (ParseFutureTime delayStr (nowDelay o)) as [delay|] eqn:Hp;
      [|munfold; discriminate].
    destruct (_ <? _) eqn:H1; [munfold; discriminate|].
    destruct (_ >? _) eqn:H2; [munfold; discriminate|].
    munfold. intros [= <- <-]. split; [reflexivity|]. split; [discriminate|].
    intros _. repeat split; auto. exists delay. repeat split; auto; lia.
Qed.

Lemma parsePublishParams_inv o r v m0 (w : World C) cache push email m w' :
  parsePublishParams o r v m0 w = (inr (cache, push, email, m), w') ->
  w' = w /\
  cache = cacheRequested r /\
  push = pushRequested r /\
  email = emailParam r /\
  ParsePriority (priorityParam r) = inr (Priority m) /\
  ID m = ID m0 /\ Event m = Event m0 /\ Topic m = Topic m0 /\
  (nonEmpty (delayParam r) = false -> Time_ m = Time_ m0) /\
  (nonEmpty (delayParam r) = true -> cache = true /\ email = "") /\
  (nonEmpty (attachParam r) = true ->
     is_Some_b (Attachment m) = true /\ attachmentURL m = attachParam r) /\
  (nonEmpty (attachParam r) = false -> nonEmpty (filenameParam r) = true ->
     Attachment m = Some (setName emptyAttachment (filenameParam r))) /\
  (nonEmpty (attachParam r) = false -> nonEmpty (filenameParam r) = false ->
     Attachment m = Attachment m0) /\
  earlierChecksPass (srv w) o r = true.
Proof.
  unfold parsePublishParams, cacheRequested, pushRequested, earlierChecksPass, cacheParam,
    firebaseParam, unifiedpushParam, emailParam, priorityParam, delayParam, attachParam,
    filenameParam.
  set (attach := readParam r ["x-attach"; "attach"; "a"]).
  set (filename := readParam r ["x-filename"; "filename"; "file"; "f"]).
  set (email0 := readParam r ["x-email"; "x-e-mail"; "email"; "e-mail"; "mail"; "e"]).
  set (delayStr := readParam r ["x-delay"; "delay"; "x-at"; "at"; "x-in"; "in"]).
  set (prio := readParam r ["x-priority"; "priority"; "prio"; "p"]).
  set (tagsStr := readParam r ["x-tags"; "tags"; "tag"; "ta"]).
  set (messageStr := readParam r ["x-message"; "message"; "m"]).
  intros H. unfold mbind, M_bind in H. simpl in H.
  destruct (parseAttach attach _ w) as [[e|m1] w1] eqn:HA; [discriminate|].
  apply parseAttach_inv in HA as (-> & Hm1 & HAe & HAn).
  destruct (when (nonEmpty email0 && negb (emailAllowed o)) _ w) as [[e|[]] w2] eqn:H1;
    [discriminate|].
  apply when_failHTTP_inv in H1 as [Hlim ->].
  destruct (when (negb (is_Some_b (mailer_ (srv w))) && nonEmpty email0) _ w)
    as [[e|[]] w3] eqn:H2; [discriminate|].
  apply when_failHTTP_inv in H2 as [Hmail ->].
  destruct (ParsePriority prio) as [e|p] eqn:HP; [discriminate|].
  match type of H with
  | context [parseDelay ?o ?c ?ca ?em ?d ?mm w] =>
      destruct (parseDelay o c ca em d mm w) as [[e|m2] w4] eqn:HD; [discriminate|];
      apply parseDelay_inv in HD as (-> & HDe & HDn)
  end.
  unfold mret, M_ret in H. injection H as <- <- <- <- <-.
  do 4 (split; [reflexivity|]).
  assert (Hm2 : Priority m2 = p /\ ID m2 = ID m1 /\ Event m2 = Event m1 /\
                Topic m2 = Topic m1 /\ Attachment m2 = Attachment m1 /\
                (nonEmpty delayStr = false -> Time_ m2 = Time_ m1) /\
                (nonEmpty delayStr = true ->
                   negb (String.eqb (readParam r ["x-cache"; "cache"]) "no") = true
                   /\ email0 = "")).
  { destruct (nonEmpty delayStr) eqn:Hd.
    - destruct (HDn eq_refl) as (Hc & He & delay & _ & -> & _).
      destruct (nonEmpty tagsStr), (nonEmpty messageStr); simpl;
        repeat split; auto; discriminate.
    - rewrite (HDe eq_refl).
      destruct (nonEmpty tagsStr), (nonEmpty messageStr); simpl;
        repeat split; auto; discriminate. }
  destruct Hm2 as (-> & -> & -> & -> & Hatt & Htime & Hdel).
  unfold attachmentURL in *. rewrite Hatt. clear HDe HDn Hatt.
  assert (Hm1' : ID m1 = ID m0 /\ Event m1 = Event m0 /\ Topic m1 = Topic m0
                 /\ Time_ m1 = Time_ m0).
  { rewrite Hm1. destruct (nonEmpty filename), (nonEmpty attach); simpl; auto. }
  destruct Hm1' as (-> & -> & -> & Ht0).
  do 4 (split; [reflexivity|]).
  split; [intros Hd; rewrite (Htime Hd); exact Ht0|].
  split; [exact Hdel|].
  split.
  { intros Ha. apply HAn; [exact Ha|].
    rewrite Ha. simpl. destruct (nonEmpty filename); reflexivity. }
  split.
  { intros Ha Hf. rewrite (HAe Ha). rewrite Ha, Hf. reflexivity. }
  split.
  { intros Ha Hf. rewrite (HAe Ha). rewrite Ha, Hf. reflexivity. }
  apply andb_true_iff. split.
  - destruct (nonEmpty attach) eqn:Ha; [|reflexivity].
    simpl. apply (HAn eq_refl).
  - destruct (nonEmpty email0); [|reflexivity].
    simpl in *. rewrite andb_true_r in Hmail.
    destruct (emailAllowed o); [|discriminate].
    destruct (is_Some_b (mailer_ (srv w))); [reflexivity|discriminate].
Qed.

End HandlerFacts.

Section Publishing.
Context {C : Type} {cacheC : cache C} {ext : External}.

Lemma parseAttach_fail attach m (w : World C) e w' :
  parseAttach attach m w = (inl e, w') ->
  w' = w /\ e = errorHTTP errHTTPBadRequestAttachmentURLInvalid
  /\ nonEmpty attach = true /\ attachURLRegex attach = false.
Proof.
  unfold parseAttach.
  destruct (nonEmpty attach); [|munfold; discriminate].
  destruct (attachURLRegex attach); simpl; munfold; [discriminate|].
  intros [= <- <-]. auto.
Qed.

(** An unrecognised priority always makes [parsePublishParams] fail; the
    error is 40007 unless one of the earlier checks has already failed. *)
Lemma parsePublishParams_priority_invalid o r v m0 (w : World C) err :
  ParsePriority (priorityParam r) = inl err ->
  exists e, parsePublishParams o r v m0 w = (inl (errorHTTP e), w) /\
    (earlierChecksPass (srv w) o r = true -> e = errHTTPBadRequestPriorityInvalid).
Proof.
  unfold parsePublishParams, earlierChecksPass, emailParam, priorityParam, attachParam.
  set (attach := readParam r ["x-attach"; "attach"; "a"]).
  set (email0 := readParam r ["x-email"; "x-e-mail"; "email"; "e-mail"; "mail"; "e"]).
  intros HP. unfold mbind, M_bind. simpl.
  destruct (parseAttach attach _ w) as [[e|m1] w1] eqn:HA.
  - apply parseAttach_fail in HA as (-> & -> & Ha & Hre).
    eexists. split; [reflexivity|]. rewrite Ha, Hre. discriminate.
  - apply parseAttach_inv in HA as (-> & _).
    destruct (nonEmpty email0) eqn:He; simpl.
    + destruct (emailAllowed o); simpl.
      * destruct (is_Some_b (mailer_ (srv w))); simpl.
        -- rewrite HP. munfold. eexists. split; [reflexivity|]. reflexivity.
        -- munfold. eexists. split; [reflexivity|].
           rewrite andb_false_r. discriminate.
      * munfold. eexists. split; [reflexivity|]. rewrite andb_false_r. discriminate.
    + rewrite andb_false_r. simpl. rewrite HP. munfold.
      eexists. split; reflexivity.
Qed.

Lemma sameEnvelope_refl m : sameEnvelope m m.
Proof. repeat split. Qed.

Lemma handleBodyAsMessage_inv m body (w : World C) r w' :
  handleBodyAsMessage m body w = (r, w') ->
  w' = w /\ forall m', r = inr m' -> sameEnvelope m m' /\ Attachment m' = Attachment m.
Proof.
  unfold handleBodyAsMessage. repeat case_match; munfold; intros [= <- <-];
    (split; [reflexivity|]); intros m' [= <-]; (split; [repeat split|reflexivity]).
Qed.

Lemma handleBodyAsAttachment_inv o r v m body (w : World C) res w' :
  handleBodyAsAttachment o r v m body w = (res, w') ->
  w' = w /\ forall m', res = inr m' -> sameEnvelope m m'.
Proof.
  unfold handleBodyAsAttachment. munfold. simpl.
  repeat case_match; intros [= <- <-]; (split; [reflexivity|]);
    intros m' [= <-]; repeat split.
Qed.

Lemma handlePublishBody_inv o r v m body (w : World C) res w' :
  handlePublishBody o r v m body w = (res, w') ->
  w' = w /\ forall m', res = inr m' -> sameEnvelope m m'.
Proof.
  unfold handlePublishBody.
  repeat case_match; intros Hrun;
    first [ apply handleBodyAsAttachment_inv in Hrun; exact Hrun
          | apply handleBodyAsMessage_inv in Hrun; destruct Hrun as [-> Hrun];
            split; [reflexivity|]; intros m' Hm; apply (Hrun m' Hm) ].
Qed.

Lemma onlyTopics_ret {A} (x : A) : onlyTopics (C:=C) (mret x).
Proof. intros w. simpl. split; [reflexivity|]. destruct (srv w); reflexivity. Qed.

Lemma onlyTopics_failHTTP {A} e : onlyTopics (@failHTTP C A e).
Proof. intros w. simpl. split; [reflexivity|]. destruct (srv w); reflexivity. Qed.

Lemma onlyTopics_bind {A B} (c : M C A) (f : A -> M C B) :
  onlyTopics c -> (forall x, onlyTopics (f x)) -> onlyTopics (c ≫= f).
Proof.
  intros Hc Hf w. unfold mbind, M_bind.
  specialize (Hc w). destruct (c w) as [[e|x] w1]; simpl in *; [exact Hc|].
  specialize (Hf x w1). destruct (f x w1) as [r w2]; simpl in *.
  destruct Hc as [Hc1 Hc2], Hf as [Hf1 Hf2]. split; [congruence|].
  rewrite Hf2, Hc2. reflexivity.
Qed.

Lemma onlyTopics_loop ids acc : onlyTopics (C:=C) (topicsFromIDs_loop ids acc).
Proof.
  revert acc. induction ids as [|id rest IH]; intros acc; cbn [topicsFromIDs_loop].
  - apply onlyTopics_ret.
  - destruct (InStringList disallowedTopics id); [apply onlyTopics_failHTTP|].
    intros w. unfold mbind, M_bind, getServer. cbn [srv].
    destruct (topics (srv w) !! id) as [t|]; [apply IH|].
    destruct (_ >=? _); [apply onlyTopics_failHTTP|].
    unfold putServer. cbn [srv events].
    match goal with |- context [topicsFromIDs_loop rest ?a ?w1] =>
      specialize (IH a w1); destruct (topicsFromIDs_loop rest a w1) as [r w2] end.
    simpl in *. destruct IH as [IH1 IH2]. split; [exact IH1|].
    rewrite IH2. reflexivity.
Qed.

Lemma onlyTopics_topicFromPath path : onlyTopics (C:=C) (topicFromPath path).
Proof.
  unfold topicFromPath. destruct (Split "/" path) as [|p0 [|id l]];
    try apply onlyTopics_failHTTP.
  apply onlyTopics_bind; [apply onlyTopics_loop|].
  intros [|t ts]; [apply onlyTopics_failHTTP|apply onlyTopics_ret].
Qed.

(** A successful publish, stage by stage. *)
Lemma handlePublish_inv o r v (w : World C) m w' :
  handlePublish o r v w = (inr m, w') ->
  exists t w1 body cache push email m1 m2,
    topicFromPath (Path r) w = (inr t, w1) /\
    Peak (Body r) (MessageLimit (config (srv w1))) = inr body /\
    parsePublishParams o r v (newDefaultMessage (topicID t) "" (newID o) (nowMessage o)) w1
      = (inr (cache, push, email, m1), w1) /\
    handlePublishBody o r v m1 body w1 = (inr m2, w1) /\
    m = (if String.eqb (Message m2) "" then setMessage m2 emptyMessageBody else m2) /\
    events w' = events w1 ++ publishEvents (srv w1) o t v push email m /\
    (delayed o m = false -> publishError (topicID t) m = None) /\
    (if cache
     then AddMessage (cache_ (srv w1)) (nowAddMessage o) m = inr (cache_ (srv w'))
     else cache_ (srv w') = cache_ (srv w1)) /\
    topics (srv w') = topics (srv w1) /\
    responseError o = None.
Proof.
  unfold handlePublish. intros H.
  unfold mbind at 1, M_bind at 1 in H.
  destruct (topicFromPath (Path r) w) as [[e|t] w1] eqn:Ht; [discriminate|].
  unfold mbind at 1, M_bind at 1, getServer at 1 in H. cbn [srv] in H.
  unfold mbind at 1, M_bind at 1, liftE at 1 in H.
  destruct (Peak (Body r) (MessageLimit (config (srv w1)))) as [e|body] eqn:Hp;
    [discriminate|].
  unfold mbind at 1, M_bind at 1 in H.
  destruct (parsePublishParams o r v _ w1) as [[e|[[[cache push] email] m1]] w2] eqn:Hpp;
    [discriminate|].
  pose proof (parsePublishParams_inv _ _ _ _ _ _ _ _ _ _ Hpp) as [-> _].
  unfold mbind at 1, M_bind at 1 in H.
  destruct (handlePublishBody o r v m1 body w1) as [[e|m2] w3] eqn:Hb; [discriminate|].
  pose proof (handlePublishBody_inv _ _ _ _ _ _ _ _ Hb) as [-> _].
  exists t, w1, body, cache, push, email, m1, m2.
  do 4 (split; [first [assumption|reflexivity]|]).
  set (m' := if String.eqb (Message m2) "" then setMessage m2 emptyMessageBody else m2) in *.
  unfold publishEvents, delayed.
  destruct w1 as [s1 ev1]. cbn [srv events] in *.
  munfold. unfold Publish in H. munfold. cbn [srv events] in H.
  destruct (Time_ m' >? Unix (nowDelayed o)) eqn:Hd; cbn [negb andb] in *.
  - rewrite !andb_false_r in *. cbn in H.
    destruct cache; cbn in H.
    + destruct (AddMessage (cache_ s1) (nowAddMessage o) m') as [e|c] eqn:Hc; [discriminate|].
      cbn in H. destruct (responseError o); cbn in H; [discriminate|].
      injection H as <- <-. cbn. rewrite !Hd, !andb_false_r.
      repeat split; auto; discriminate.
    + destruct (responseError o); cbn in H; [discriminate|].
      injection H as <- <-. cbn. rewrite !Hd, !andb_false_r.
      repeat split; auto; discriminate.
  - rewrite !andb_true_r in *.
    destruct (publishError (topicID t) m') eqn:Hpe; [discriminate|].
    destruct (is_Some_b (firebase s1) && push) eqn:Hf,
      (is_Some_b (mailer_ s1) && nonEmpty email) eqn:Hm, cache; cbn in H;
      try (destruct (AddMessage (cache_ s1) (nowAddMessage o) m') as [e|c] eqn:Hc;
           [discriminate|]; cbn in H);
      (destruct (responseError o); cbn in H; [discriminate|]);
      injection H as <- <-; cbn; rewrite !Hd; cbn [negb]; rewrite ?andb_true_r, ?Hf, ?Hm;
      cbn; rewrite <- ?app_assoc; repeat split; auto.
Qed.

End Publishing.

(** ** The body of a publish request *)

Section BodyDisposition.
Context {C : Type} {cacheC : cache C} {ext : External}.

(** C1.  For every publish request that passes parameter parsing, the body
    is handled by the rules of step 5, in order: with an [attach] URL the
    body is the message text; otherwise with a [filename] the body is the
    attachment; otherwise a peeked body that is valid UTF-8 and did not
    reach the message limit is the message text; otherwise the body is the
    attachment. *)
Theorem C1_body_disposition (o : publishEnv) (r : Request) (v : visitor)
    (topic id : string) (w w1 : World C) (cache push : bool) (email : string)
    (m : message) (body : PeakedReadCloser) :
  parsePublishParams o r v (newDefaultMessage topic "" id (nowMessage o)) w
    = (inr (cache, push, email, m), w1) ->
  handlePublishBody o r v m body =
  match bodyDisposition r body with
  | BodyIsMessage => handleBodyAsMessage m body
  | BodyIsAttachment => handleBodyAsAttachment o r v m body
  end.
Proof.
  intros H. apply parsePublishParams_inv in H
    as (_ & _ & _ & _ & _ & _ & _ & _ & _ & _ & Hattach & Hfile & Hnone & _).
  unfold handlePublishBody, bodyDisposition.
  destruct (nonEmpty (attachParam r)) eqn:Ha.
  - destruct (Hattach eq_refl) as [Hs Hu]. rewrite Hs, Hu, Ha. reflexivity.
  - destruct (nonEmpty (filenameParam r)) eqn:Hf.
    + unfold attachmentURL, attachmentName. rewrite !(Hfile eq_refl eq_refl).
      cbn -[nonEmpty filenameParam]. change (nonEmpty "") with false.
      cbn -[nonEmpty filenameParam]. rewrite Hf. reflexivity.
    + unfold attachmentURL, attachmentName. rewrite !(Hnone eq_refl eq_refl).
      cbn -[nonEmpty]. rewrite andb_comm.
      destruct (utf8Valid (PeakedBytes body) && negb (LimitReached body)); reflexivity.
Qed.

End BodyDisposition.

(** ** Delayed and immediate publishes *)

Lemma Unix_mono (t u : Time) : wall t <= wall u -> Unix t <= Unix u.
Proof. intros H. unfold Unix. apply Z.div_le_mono; [reflexivity|exact H]. Qed.

Section PublishDelivery.
Context {ext : External}.

(** C2.  A publish whose delivery time is in the future when the handler
    reads the clock does no live fan-out, starts neither the push task nor
    the e-mail task, and stores the message in the cache (unpublished as
    long as the time is still ahead when the cache reads the clock).  Every
    other publish fans out through the topic, then starts the push task (if
    a push hook is configured and push was not switched off) and the e-mail
    task (if an address was given), and, when caching was requested, stores
    the message as published.  The clock does not run backwards. *)
Theorem C2_delayed_publish (o : publishEnv) (r : Request) (v : visitor)
    (w w' : World (list cacheEntry)) (m : message) :
  wall (nowMessage o) <= wall (nowDelayed o) ->
  wall (nowDelayed o) <= wall (nowAddMessage o) ->
  handlePublish o r v w = (inr m, w') ->
  exists t new,
    fst (topicFromPath (Path r) w) = inr t /\
    events w' = events w ++ new /\
    (delayed o m = true ->
       new = [EvResponse m] /\
       cache_ (srv w') =
         cache_ (srv w) ++ [mkEntry m (negb (Time_ m >? Unix (nowAddMessage o)))]) /\
    (delayed o m = false ->
       new = [EvPublish (topicID t) m]
             ++ (if is_Some_b (firebase (srv w)) && pushRequested r
                 then [EvGoFirebase m] else [])
             ++ (if nonEmpty (emailParam r)
                 then [EvGoMail (ip v) (emailParam r) m] else [])
             ++ [EvResponse m] /\
       cache_ (srv w') =
         if cacheRequested r then cache_ (srv w) ++ [mkEntry m true] else cache_ (srv w)).
Proof.
  intros Hclock1 Hclock2 H.
  apply handlePublish_inv in H
    as (t & w1 & body & cache & push & email & m1 & m2
        & Ht & _ & Hpp & Hb & Hm & Hev & _ & Hcache & _ & _).
  pose proof (onlyTopics_topicFromPath (Path r) w) as [Hev1 Hsrv1].
  rewrite Ht in Hev1, Hsrv1. cbn [snd] in Hev1, Hsrv1.
  assert (Hfb : firebase (srv w1) = firebase (srv w)) by (rewrite Hsrv1; reflexivity).
  assert (Hml : mailer_ (srv w1) = mailer_ (srv w)) by (rewrite Hsrv1; reflexivity).
  assert (Hca : cache_ (srv w1) = cache_ (srv w)) by (rewrite Hsrv1; reflexivity).
  apply parsePublishParams_inv in Hpp
    as (_ & -> & -> & -> & _ & _ & _ & _ & Hnodelay & Hdelay & _ & _ & _ & Hchecks).
  apply handlePublishBody_inv in Hb as [_ Hb].
  destruct (Hb m2 eq_refl) as (_ & Htime2 & _).
  assert (Htime : Time_ m = Time_ m1).
  { rewrite Hm. destruct (String.eqb (Message m2) ""); simpl; exact Htime2. }
  exists t, (publishEvents (srv w1) o t v (pushRequested r) (emailParam r) m).
  split; [rewrite Ht; reflexivity|].
  split; [rewrite Hev, Hev1; reflexivity|].
  unfold publishEvents. rewrite Hfb, Hml, Hca in *.
  split; intros Hd; rewrite Hd; cbn [negb].
  - assert (Hc : cacheRequested r = true).
    { destruct (nonEmpty (delayParam r)) eqn:Hdp; [apply (Hdelay eq_refl)|].
      exfalso. unfold delayed in Hd. rewrite Htime, (Hnodelay eq_refl) in Hd.
      cbn [newDefaultMessage newMessage Time_] in Hd.
      pose proof (Unix_mono _ _ Hclock1). lia. }
    rewrite Hc in Hcache. cbn in Hcache. injection Hcache as <-.
    rewrite !andb_false_r. split; reflexivity.
  - rewrite !andb_true_r. split.
    + cbn [app]. do 2 f_equal.
      unfold earlierChecksPass in Hchecks. apply andb_true_iff in Hchecks as [_ Hmail].
      rewrite Hml in Hmail.
      destruct (nonEmpty (emailParam r)); [|rewrite andb_false_r; reflexivity].
      cbn in Hmail. apply andb_true_iff in Hmail as [_ ->]. reflexivity.
    + destruct (cacheRequested r); [|exact Hcache].
      cbn in Hcache. injection Hcache as <-. do 3 f_equal.
      unfold delayed in Hd. pose proof (Unix_mono _ _ Hclock2).
      destruct (Time_ m >? Unix (nowAddMessage o)) eqn:Hgt; [lia|reflexivity].
Qed.

End PublishDelivery.

(** ** Priorities in a publish *)

Section PublishPriority.
Context {C : Type} {cacheC : cache C} {ext : External}.

Lemma handlePublish_priority_invalid o r v (w : World C) err :
  ParsePriority (priorityParam r) = inl err ->
  (exists e, fst (handlePublish o r v w) = inl e) /\
  (forall t w1 body,
     topicFromPath (Path r) w = (inr t, w1) ->
     Peak (Body r) (MessageLimit (config (srv w1))) = inr body ->
     earlierChecksPass (srv w1) o r = true ->
     fst (handlePublish o r v w) = inl (errorHTTP errHTTPBadRequestPriorityInvalid)).
Proof.
  intros HP. split.
  - unfold handlePublish.
    unfold mbind at 1, M_bind at 1.
    destruct (topicFromPath (Path r) w) as [[e|t] w1] eqn:Ht; [eexists; reflexivity|].
    unfold mbind at 1, M_bind at 1, getServer at 1. cbn [srv].
    unfold mbind at 1, M_bind at 1, liftE at 1.
    destruct (Peak (Body r) (MessageLimit (config (srv w1)))) as [e|body] eqn:Hp;
      [eexists; reflexivity|].
    unfold mbind at 1, M_bind at 1.
    destruct (parsePublishParams_priority_invalid o r v
                (newDefaultMessage (topicID t) "" (newID o) (nowMessage o)) w1 err HP)
      as (e & Heq & He).
    rewrite Heq. eexists; reflexivity.
  - intros t w1 body Ht Hp Hc. unfold handlePublish.
    unfold mbind at 1, M_bind at 1. rewrite Ht.
    unfold mbind at 1, M_bind at 1, getServer at 1. cbn [srv].
    unfold mbind at 1, M_bind at 1, liftE at 1. rewrite Hp.
    unfold mbind at 1, M_bind at 1.
    destruct (parsePublishParams_priority_invalid o r v
                (newDefaultMessage (topicID t) "" (newID o) (nowMessage o)) w1 err HP)
      as (e & Heq & He).
    rewrite Heq. cbn. rewrite (He Hc). reflexivity.
Qed.

(** A publish without attachment, e-mail and delay passes the parameter
    checks when its priority parses. *)
Lemma parsePublishParams_plain o r v m0 (w : World C) n :
  attachParam r = "" -> filenameParam r = "" -> emailParam r = "" -> delayParam r = "" ->
  ParsePriority (priorityParam r) = inr n ->
  exists m,
    parsePublishParams o r v m0 w = (inr (cacheRequested r, pushRequested r, "", m), w).
Proof.
  unfold attachParam, filenameParam, emailParam, delayParam, priorityParam,
    cacheRequested, pushRequested, cacheParam, firebaseParam, unifiedpushParam.
  intros Ha Hf He Hd Hp. unfold parsePublishParams.
  rewrite Ha, Hf, He, Hd, Hp. unfold parseAttach, parseDelay, when. cbn [nonEmpty].
  munfold. cbn. rewrite andb_false_r. eexists. reflexivity.
Qed.

(** Such a publish with a text body below the limit succeeds when the
    clock does not run backwards, the topic and the cache accept the
    message and the response can be written. *)
Lemma handlePublish_plain o r v (w w1 : World C) t body n :
  topicFromPath (Path r) w = (inr t, w1) ->
  Peak (Body r) (MessageLimit (config (srv w1))) = inr body ->
  LimitReached body = false -> utf8Valid (PeakedBytes body) = true ->
  attachParam r = "" -> filenameParam r = "" -> emailParam r = "" -> delayParam r = "" ->
  ParsePriority (priorityParam r) = inr n ->
  wall (nowMessage o) <= wall (nowDelayed o) ->
  (forall m, publishError (topicID t) m = None) ->
  (forall m, exists c, AddMessage (cache_ (srv w1)) (nowAddMessage o) m = inr c) ->
  responseError o = None ->
  exists m w', handlePublish o r v w = (inr m, w') /\ delayed o m = false.
Proof.
  intros Ht Hpeak Hlim Hutf Ha Hf He Hd Hp Hclock Hpub Hadd Hresp.
  destruct (parsePublishParams_plain o r v
              (newDefaultMessage (topicID t) "" (newID o) (nowMessage o)) w1 n
              Ha Hf He Hd Hp) as [m1 Hpp].
  pose proof (parsePublishParams_inv _ _ _ _ _ _ _ _ _ _ Hpp)
    as (_ & _ & _ & _ & _ & _ & _ & _ & Htime & _ & _ & _ & Hatt & _).
  assert (Hnd : nonEmpty (delayParam r) = false) by (rewrite Hd; reflexivity).
  assert (Hna : nonEmpty (attachParam r) = false) by (rewrite Ha; reflexivity).
  assert (Hnf : nonEmpty (filenameParam r) = false) by (rewrite Hf; reflexivity).
  specialize (Htime Hnd). specialize (Hatt Hna Hnf). cbn in Htime, Hatt.
  assert (Hbody : exists m2, handlePublishBody o r v m1 body w1 = (inr m2, w1)
                             /\ Time_ m2 = Time_ m1).
  { unfold handlePublishBody. rewrite Hatt. cbn [is_Some_b andb].
    rewrite Hlim, Hutf. cbn [negb andb]. unfold handleBodyAsMessage.
    rewrite Hutf. cbn [negb].
    destruct (0 <? _); cbn [Attachment setMessage]; rewrite Hatt;
      cbn [is_Some_b andb]; eexists; (split; [reflexivity|reflexivity]). }
  destruct Hbody as (m2 & Hb & Htime2).
  set (m := if String.eqb (Message m2) "" then setMessage m2 emptyMessageBody else m2).
  assert (Htm : Time_ m = Unix (nowMessage o)).
  { unfold m. destruct (String.eqb (Message m2) ""); cbn; congruence. }
  assert (Hnot : delayed o m = false).
  { unfold delayed. rewrite Htm, Z.gtb_ltb. apply Z.ltb_ge.
    unfold Unix. apply Z.div_le_mono; [reflexivity|exact Hclock]. }
  destruct (Hadd m) as [c Hc].
  unfold handlePublish.
  unfold mbind at 1, M_bind at 1. rewrite Ht.
  unfold mbind at 1, M_bind at 1, getServer at 1. cbn [srv].
  unfold mbind at 1, M_bind at 1, liftE at 1. rewrite Hpeak.
  unfold mbind at 1, M_bind at 1. rewrite Hpp.
  unfold mbind at 1, M_bind at 1. rewrite Hb. fold m.
  unfold delayed in Hnot. rewrite Hnot. cbn [negb]. rewrite !andb_true_r.
  rewrite andb_false_r, Hresp.
  unfold Publish. munfold. cbn [srv events]. rewrite Hpub. cbn [srv events].
  destruct (is_Some_b (firebase (srv w1)) && pushRequested r);
    destruct (cacheRequested r); unfold when; munfold;
    cbn [srv events cache_ setCache]; rewrite ?Hc;
    eexists; eexists; (split; [reflexivity|exact Hnot]).
Qed.

(** What a successful publish has done with its priority parameter: the
    message it returns carries the parsed priority, is the one that went
    out in the events of the request and, when caching was requested, the
    one that was added to the cache. *)
Lemma handlePublish_priority_carried o r v (w w' : World C) m :
  handlePublish o r v w = (inr m, w') ->
  ParsePriority (priorityParam r) = inr (Priority m)
  /\ exists t w1 push email,
       topicFromPath (Path r) w = (inr t, w1)
       /\ push = pushRequested r /\ email = emailParam r
       /\ events w' = events w ++ publishEvents (srv w) o t v push email m
       /\ (cacheRequested r = true ->
           AddMessage (cache_ (srv w)) (nowAddMessage o) m = inr (cache_ (srv w'))).
Proof.
  intros H.
  apply handlePublish_inv in H
    as (t & w1 & body & cache & push & email & m1 & m2
        & Ht & _ & Hpp & Hb & Hm & Hev & _ & Hcache & _ & _).
  pose proof (onlyTopics_topicFromPath (Path r) w) as [Hev1 Hsrv1].
  rewrite Ht in Hev1, Hsrv1. cbn [snd] in Hev1, Hsrv1.
  apply parsePublishParams_inv in Hpp as (_ & -> & -> & -> & Hprio & _).
  apply handlePublishBody_inv in Hb as [_ Hb].
  destruct (Hb m2 eq_refl) as (_ & _ & _ & _ & Hp2 & _).
  assert (Hp : Priority m = Priority m1).
  { rewrite Hm. destruct (String.eqb (Message m2) ""); simpl; exact Hp2. }
  rewrite <- Hp in Hprio.
  split; [exact Hprio|].
  exists t, w1, (pushRequested r), (emailParam r).
  split; [exact Ht|]. split; [reflexivity|]. split; [reflexivity|]. split.
  - rewrite Hev, Hev1. f_equal. unfold publishEvents. rewrite Hsrv1. reflexivity.
  - intros Hc. rewrite Hc in Hcache. rewrite Hsrv1 in Hcache. exact Hcache.
Qed.

(** C9.  [ParsePriority] maps the empty string to 0, [min]/[low]/
    [default]/[high] and the digits 1 to 5 to their values, and [max] and
    [urgent] to 5, ignoring case and surrounding white space.  A publish
    with a text body and without attachment, e-mail and delay succeeds when
    its priority parses (the topic, the cache and the connection accepting
    it): the message carries the parsed priority, it is the message that is
    published to the topic and the one that is added to the cache, so
    [priority=urgent] is stored and streamed with priority 5; the same holds
    of every publish that succeeds.  A publish with any other priority value
    fails, with error 40007 once the topic, the body and the attach and
    e-mail parameters before it have passed their checks. *)
Theorem C9_priority_parsing :
  Forall (fun kn => ParsePriority kn.1 = inr kn.2) knownPriorities
  /\ (forall p, ParsePriority p =
        match assoc (TrimSpace (ToLower p)) knownPriorities with
        | Some n => inr n
        | None => inl errInvalidPriority
        end)
  /\ (forall o r v (w w1 : World C) t body n,
        topicFromPath (Path r) w = (inr t, w1) ->
        Peak (Body r) (MessageLimit (config (srv w))) = inr body ->
        LimitReached body = false -> utf8Valid (PeakedBytes body) = true ->
        attachParam r = "" -> filenameParam r = "" ->
        emailParam r = "" -> delayParam r = "" ->
        wall (nowMessage o) <= wall (nowDelayed o) ->
        (forall m, publishError (topicID t) m = None) ->
        (forall m, exists c, AddMessage (cache_ (srv w)) (nowAddMessage o) m = inr c) ->
        responseError o = None ->
        ParsePriority (priorityParam r) = inr n ->
        exists m w',
          handlePublish o r v w = (inr m, w')
          /\ Priority m = n
          /\ (priorityParam r = "urgent" -> Priority m = 5)
          /\ events w'
             = events w
               ++ EvPublish (topicID t) m
                  :: (if is_Some_b (firebase (srv w)) && pushRequested r
                      then [EvGoFirebase m] else [])
                  ++ [EvResponse m]
          /\ (cacheRequested r = true ->
              AddMessage (cache_ (srv w)) (nowAddMessage o) m = inr (cache_ (srv w'))))
  /\ (forall o r v (w w' : World C) m,
        handlePublish o r v w = (inr m, w') ->
        ParsePriority (priorityParam r) = inr (Priority m)
        /\ (priorityParam r = "urgent" -> Priority m = 5)
        /\ exists t push email,
             events w' = events w ++ publishEvents (srv w) o t v push email m
             /\ (cacheRequested r = true ->
                 AddMessage (cache_ (srv w)) (nowAddMessage o) m = inr (cache_ (srv w'))))
  /\ (forall o r v (w : World C) err,
        ParsePriority (priorityParam r) = inl err ->
        (exists e, fst (handlePublish o r v w) = inl e)
        /\ (forall t w1 body,
              topicFromPath (Path r) w = (inr t, w1) ->
              Peak (Body r) (MessageLimit (config (srv w1))) = inr body ->
              earlierChecksPass (srv w1) o r = true ->
              fst (handlePublish o r v w)
                = inl (errorHTTP errHTTPBadRequestPriorityInvalid))).
Proof.
  assert (Hurgent : forall r n,
            ParsePriority (priorityParam r) = inr n -> priorityParam r = "urgent" -> n = 5).
  { intros r n Hp Hu. rewrite Hu in Hp.
    assert (H5 : ParsePriority "urgent" = inr 5) by reflexivity.
    congruence. }
  split; [repeat constructor|].
  split; [exact ParsePriority_table|].
  split.
  { intros o r v w w1 t body n Ht Hpeak Hlim Hutf Ha Hf He Hd Hclock Hpub Hadd Hresp Hp.
    pose proof (onlyTopics_topicFromPath (Path r) w) as [_ Hsrv1].
    rewrite Ht in Hsrv1. cbn [snd] in Hsrv1.
    assert (Hconf : config (srv w1) = config (srv w)) by (rewrite Hsrv1; reflexivity).
    assert (Hcache1 : cache_ (srv w1) = cache_ (srv w)) by (rewrite Hsrv1; reflexivity).
    rewrite <- Hconf in Hpeak.
    assert (Hadd1 : forall m, exists c,
              AddMessage (cache_ (srv w1)) (nowAddMessage o) m = inr c)
      by (rewrite Hcache1; exact Hadd).
    destruct (handlePublish_plain o r v w w1 t body n Ht Hpeak Hlim Hutf Ha Hf He Hd Hp
                Hclock Hpub Hadd1 Hresp) as (m & w' & Hrun & Hnot).
    exists m, w'. split; [exact Hrun|].
    destruct (handlePublish_priority_carried o r v w w' m Hrun)
      as (Hprio & t' & w1' & push & email & Ht' & -> & -> & Hev & Hc).
    assert (Hn : Priority m = n) by congruence.
    assert (Htt : t' = t) by congruence. subst t'.
    split; [exact Hn|]. split; [intros Hu; apply (Hurgent r _ Hprio Hu)|].
    split; [|exact Hc].
    rewrite Hev. unfold publishEvents. rewrite Hnot, He.
    cbn [negb nonEmpty String.eqb]. rewrite !andb_true_r, andb_false_r.
    reflexivity. }
  split; [|intros o r v w err; apply handlePublish_priority_invalid].
  intros o r v w w' m H.
  destruct (handlePublish_priority_carried o r v w w' m H)
    as (Hprio & t & w1 & push & email & _ & _ & _ & Hev & Hc).
  split; [exact Hprio|]. split; [intros Hu; apply (Hurgent r _ Hprio Hu)|].
  exists t, push, email. split; [exact Hev|exact Hc].
Qed.

End PublishPriority.

(** ** Query filters *)

Lemma InStringList_In (haystack : list string) (needle : string) :
  InStringList haystack needle = true <-> In needle haystack.
Proof.
  induction haystack as [|s rest IH]; simpl.
  - split; [discriminate|contradiction].
  - destruct (String.eqb s needle) eqn:E.
    + apply String.eqb_eq in E. tauto.
    + apply String.eqb_neq in E. rewrite IH. split; [tauto|].
      intros [Hs|Hr]; [contradiction|exact Hr].
Qed.

Lemma InStringListAll_In (haystack needles : list string) :
  InStringListAll haystack needles = true <-> forall s, In s needles -> In s haystack.
Proof.
  unfold InStringListAll. rewrite forallb_forall.
  split; intros H s Hs; apply InStringList_In, H, Hs.
Qed.

Section QueryFilters.
Context {C : Type} {cacheC : cache C} {ext : External}.

(** C6.  Filters apply to message events only: any other event, such as
    open and keepalive, passes whatever the filters are.  For the priority
    filter a message with priority 0 counts as priority 3.  A message that
    passes a non-empty tag filter carries every tag of the filter.  An event
    that does not pass is not written by the subscriber callback. *)
Theorem C6_query_filters :
  (forall msg mf tf pf tags,
     Event msg <> messageEvent -> passesQueryFilter msg mf tf pf tags = true)
  /\ (forall topic id now mf tf pf tags,
        passesQueryFilter (newOpenMessage topic id now) mf tf pf tags = true
        /\ passesQueryFilter (newKeepaliveMessage topic id now) mf tf pf tags = true)
  /\ (forall msg mf tf pf tags,
        Priority msg = 0 ->
        passesQueryFilter msg mf tf pf tags
          = passesQueryFilter (setPriority msg 3) mf tf pf tags)
  /\ (forall msg mf tf pf tags,
        Event msg = messageEvent -> tags <> [] ->
        passesQueryFilter msg mf tf pf tags = true ->
        forall tag, In tag tags -> In tag (Tags msg))
  /\ (forall o encoder mf tf pf tags msg (w : World C),
        passesQueryFilter msg mf tf pf tags = false ->
        sub o encoder (mf, tf, pf, tags) msg w = (inr tt, w)).
Proof.
  split.
  { intros msg mf tf pf tags Hev. unfold passesQueryFilter.
    destruct (String.eqb (Event msg) messageEvent) eqn:E; [|reflexivity].
    apply String.eqb_eq in E. contradiction. }
  split.
  { intros. split; reflexivity. }
  split.
  { intros msg mf tf pf tags Hp. unfold passesQueryFilter.
    destruct msg; simpl in *. subst. reflexivity. }
  split.
  { intros msg mf tf pf tags Hev Hne Hpass tag Hin.
    unfold passesQueryFilter in Hpass. rewrite Hev in Hpass. simpl in Hpass.
    destruct (nonEmpty mf && _); [discriminate|].
    destruct (nonEmpty tf && _); [discriminate|].
    destruct (_ && negb (InIntList _ _)); [discriminate|].
    destruct (_ && negb (InStringListAll _ _)) eqn:Ht; [discriminate|].
    apply andb_false_iff in Ht as [Ht|Ht].
    - destruct tags; [contradiction|]. simpl in *. discriminate.
    - apply negb_false_iff in Ht. eapply InStringListAll_In; eauto. }
  intros o encoder mf tf pf tags msg w Hpass. unfold sub. rewrite Hpass. reflexivity.
Qed.

End QueryFilters.

(** ** Stale visitors *)

Lemma saturate_gt_day (d : Z) :
  (saturate d >? visitorExpungeAfter) = true <-> d > visitorExpungeAfter.
Proof.
  unfold saturate, maxInt64, minInt64, visitorExpungeAfter, oneDay, Hour, Second.
  change (2 ^ 63) with 9223372036854775808.
  repeat case_match; lia.
Qed.

Lemma Stale_iff (v : visitor) (now : Time) :
  Stale v now = true <-> inactiveFor v now > visitorExpungeAfter.
Proof.
  unfold Stale, Sub, inactiveFor.
  destruct (mono now), (mono (seen v)); apply saturate_gt_day.
Qed.

Lemma expireVisitors_lookup (now : string -> Time) (vs : gmap string visitor)
    (ip : string) (v : visitor) :
  expireVisitors now vs !! ip = Some v <-> vs !! ip = Some v /\ Stale v (now ip) = false.
Proof. unfold expireVisitors. rewrite map_lookup_filter_Some. reflexivity. Qed.

(** C8, as stated, fails: no configured minimum makes the
    threshold of [Stale] the larger of that minimum and the refill interval
    of the request limiter.  With one token per 48 hours a visitor idle for
    30 hours is already stale. *)
Lemma C8_counterexample :
  ~ exists minimum, forall v now,
      Stale v now = (Sub now (seen v) >? specStaleThreshold minimum v).
Proof.
  intros [minimum H]. specialize (H idleVisitor thirtyHoursLater).
  assert (Hs : Stale idleVisitor thirtyHoursLater = true) by reflexivity.
  rewrite Hs in H. symmetry in H. apply Z.gtb_gt in H.
  assert (Hd : Sub thirtyHoursLater (seen idleVisitor) = 30 * Hour) by reflexivity.
  assert (Hr : fullRefillInterval (requestLimiter idleVisitor) = 48 * Hour) by reflexivity.
  unfold specStaleThreshold in H. rewrite Hd, Hr in H.
  unfold Hour, Second in H. lia.
Qed.

Section Manager.
Context {C : Type} {cacheC : cache C} {ext : External}.

Lemma keepsVisitors_pruneTopics ts acc : keepsVisitors (C:=C) (pruneTopics ts acc).
Proof.
  revert acc. induction ts as [|[k t] rest IH]; intros acc w; [reflexivity|].
  cbn [pruneTopics]. unfold mbind, M_bind, getServer. cbn [srv].
  destruct (MessageCount (cache_ (srv w)) (topicID t)) as [err|msgs].
  - unfold emit. cbn. rewrite IH. reflexivity.
  - destruct ((msgs =? 0) && (Subscribers t =? 0)).
    + unfold putServer. cbn. rewrite IH. reflexivity.
    + apply IH.
Qed.

Lemma keepsVisitors_topics_block (w : World C) :
  visitors (srv (snd
    ((s ← getServer;
      '(subscribers, messages) ← pruneTopics (map_to_list (topics s)) (0, 0);
      s ← getServer;
      emit (EvStats (server.messages s) messages (Z.of_nat (size (topics s))) subscribers
              (Z.of_nat (size (visitors s))))) w)))
  = visitors (srv w).
Proof.
  unfold mbind, M_bind, getServer. cbn [srv].
  pose proof (keepsVisitors_pruneTopics (map_to_list (topics (srv w))) (0, 0) w) as K.
  destruct (pruneTopics (map_to_list (topics (srv w))) (0, 0) w) as [[e|[a b]] w1];
    cbn [snd] in *; exact K.
Qed.

Lemma keepsVisitors_prune_block (olderThan : Time) (w : World C) :
  visitors (srv (snd
    ((s ← getServer;
      match Prune (cache_ s) olderThan with
      | inl err => emit (EvLog "error pruning cache" err)
      | inr c => putServer (setCache s c)
      end;;
      s ← getServer;
      '(subscribers, messages) ← pruneTopics (map_to_list (topics s)) (0, 0);
      s ← getServer;
      emit (EvStats (server.messages s) messages (Z.of_nat (size (topics s))) subscribers
              (Z.of_nat (size (visitors s))))) w)))
  = visitors (srv w).
Proof.
  unfold mbind at 1, M_bind at 1, getServer at 1. cbn [srv].
  unfold mbind at 1, M_bind at 1.
  destruct (Prune (cache_ (srv w)) olderThan) as [err|c]; cbn -[pruneTopics mbind];
    rewrite keepsVisitors_topics_block; reflexivity.
Qed.

Lemma updateStatsAndPrune_visitors nowStale nowExpired nowPrune (w : World C) :
  visitors (srv (snd (updateStatsAndPrune nowStale nowExpired nowPrune w)))
  = expireVisitors nowStale (visitors (srv w)).
Proof.
  unfold updateStatsAndPrune.
  unfold mbind at 1, M_bind at 1, getServer at 1. cbn [srv].
  unfold mbind at 1, M_bind at 1, putServer at 1. cbn [srv events].
  unfold mbind at 1, M_bind at 1.
  destruct (fileCache_ (srv w)) as [fc|].
  - destruct (AttachmentsExpired (cache_ (srv w)) nowExpired) as [err|ids].
    + cbn -[pruneTopics mbind]. rewrite keepsVisitors_prune_block. reflexivity.
    + unfold mbind at 1, M_bind at 1, emit at 1. cbn [srv events].
      destruct (Remove fc ids); cbn -[pruneTopics mbind];
        rewrite keepsVisitors_prune_block; reflexivity.
  - cbn -[pruneTopics mbind]. rewrite keepsVisitors_prune_block. reflexivity.
Qed.

(** C8, amended.  The staleness threshold is the constant
    [visitorExpungeAfter], 24 hours, whatever the request limiter and the
    configuration are: a visitor is stale exactly when it has been inactive
    for longer than that, and the manager loop removes exactly the stale
    visitors. *)
Theorem C8_stale_threshold :
  visitorExpungeAfter = 24 * 3600 * 1000000000
  /\ (forall v now, Stale v now = true <-> inactiveFor v now > visitorExpungeAfter)
  /\ (forall nowStale nowExpired nowPrune (w : World C) ip v,
        visitors (srv (snd (updateStatsAndPrune nowStale nowExpired nowPrune w))) !! ip
          = Some v
        <-> visitors (srv w) !! ip = Some v /\ Stale v (nowStale ip) = false).
Proof.
  split; [reflexivity|]. split; [exact Stale_iff|].
  intros. rewrite updateStatsAndPrune_visitors. apply expireVisitors_lookup.
Qed.

End Manager.

(** ** The [since] parameter *)

Lemma Unix_Unix_ (s : Z) : Unix (Unix_ s) = s.
Proof. unfold Unix, Unix_, Second. cbn [wall]. apply Z.div_mul. discriminate. Qed.

Lemma Unix__inj (s s' : Z) : Unix_ s = Unix_ s' -> s = s'.
Proof. intros H. rewrite <- (Unix_Unix_ s), <- (Unix_Unix_ s'), H. reflexivity. Qed.

Lemma IsAll_Unix_ (s : Z) : IsAll (Unix_ s) = bool_decide (s = 0).
Proof.
  unfold IsAll, sinceAllMessages. apply bool_decide_ext.
  split; [apply Unix__inj|intros ->; reflexivity].
Qed.

Lemma IsNone_Unix_ (s : Z) : IsNone (Unix_ s) = bool_decide (s = 1).
Proof.
  unfold IsNone, sinceNoMessages. apply bool_decide_ext.
  split; [apply Unix__inj|intros ->; reflexivity].
Qed.

(** For the in-memory cache a unix timestamp other than 0 and 1 selects
    exactly the messages at or after it. *)
Lemma memCache_Messages_since (c : list cacheEntry) (topic : string) (s : Z)
    (scheduled : bool) :
  s <> 0 -> s <> 1 ->
  Messages c topic (Unix_ s) scheduled = inr (messagesSinceUnix c topic s scheduled).
Proof.
  intros H0 H1. cbn [Messages memCache]. unfold messagesSinceUnix, sinceIncludes.
  rewrite IsAll_Unix_, IsNone_Unix_, Unix_Unix_.
  rewrite !bool_decide_eq_false_2 by assumption. reflexivity.
Qed.

Lemma memCache_Messages_all (c : list cacheEntry) (topic : string) (scheduled : bool) :
  Messages c topic sinceAllMessages scheduled = inr (messagesAll c topic scheduled).
Proof.
  cbn [Messages memCache]. unfold messagesAll. do 3 f_equal.
  apply List.filter_ext. intros e. unfold sinceIncludes.
  change (IsAll sinceAllMessages) with true. cbn. rewrite andb_true_r. reflexivity.
Qed.

Section Since.
Context {C : Type} {cacheC : cache C} {ext : External}.

Lemma parseSince_unfold now r poll :
  parseSince now r poll =
  let since := sinceParam r in
  if String.eqb since "" then
    if poll then inr sinceAllMessages else inr sinceNoMessages
  else if String.eqb since "all" then inr sinceAllMessages
  else match ParseInt since with
  | Some s => inr (Unix_ s)
  | None =>
      match ParseDuration since with
      | Some d => inr (Add now (wrapInt64 (-1 * d)))
      | None => inl (errorHTTP errHTTPBadRequestSinceInvalid)
      end
  end.
Proof. reflexivity. Qed.

Lemma sendOldMessages_none topics scheduled (sub : message -> M C unit) (w : World C) :
  sendOldMessages topics sinceNoMessages scheduled sub w = (inr tt, w).
Proof. reflexivity. Qed.

Lemma sendOldMessages_replay topics since scheduled (sub : message -> M C unit) :
  IsNone since = false ->
  sendOldMessages topics since scheduled sub = replayEachTopic topics since scheduled sub.
Proof. intros H. unfold sendOldMessages. rewrite H. reflexivity. Qed.

End Since.

Section Replay.
Context {C : Type} {cacheC : cache C} {ext : External}.

Lemma passes_noFilters (m : message) : passesQueryFilter m "" "" [] [] = true.
Proof. unfold passesQueryFilter. destruct (negb _); reflexivity. Qed.

(** Without filters, encoder errors and write errors the callback writes
    every message it is given. *)
Lemma forEach_sub_writes (o : subscribeEnv) (encoder : messageEncoder)
    (f : message -> string) (msgs : list message) (w : World C) :
  (forall n, writeError o n = None) ->
  (forall m, encoder m = inr (f m)) ->
  forEach msgs (sub o encoder noFilters) w
    = (inr tt, mkWorld (srv w) (events w ++ replayWrites f msgs)).
Proof.
  intros Hw He. revert w. induction msgs as [|m rest IH]; intros w.
  - cbn. rewrite app_nil_r. destruct w; reflexivity.
  - cbn [forEach]. unfold mbind, M_bind.
    assert (Hsub : sub o encoder noFilters m w
                   = (inr tt, mkWorld (srv w) (events w ++ [EvWrite m (f m)]))).
    { unfold sub, noFilters. rewrite passes_noFilters. cbn [negb].
      rewrite He, Hw. reflexivity. }
    rewrite Hsub, IH. cbn [srv events replayWrites map]. rewrite <- app_assoc. reflexivity.
Qed.

End Replay.

(** With the in-memory cache the replay under the "all" sentinel writes
    every cached message of the topics, topic by topic. *)
Lemma replay_all_writes {ext : External} (o : subscribeEnv) (encoder : messageEncoder)
    (f : message -> string) (topics : list topic) (scheduled : bool)
    (w : World (list cacheEntry)) :
  (forall n, writeError o n = None) ->
  (forall m, encoder m = inr (f m)) ->
  sendOldMessages topics sinceAllMessages scheduled (sub o encoder noFilters) w
    = (inr tt,
       mkWorld (srv w)
         (events w
          ++ replayWrites f
               (concat (map (fun t => messagesAll (cache_ (srv w)) (topicID t) scheduled)
                            topics)))).
Proof.
  intros Hw He. rewrite sendOldMessages_replay by reflexivity. unfold replayEachTopic.
  revert w. induction topics as [|t rest IH]; intros w.
  - cbn. rewrite app_nil_r. destruct w; reflexivity.
  - cbn [forEach]. unfold mbind at 1, M_bind at 1.
    unfold mbind at 1, M_bind at 1, getServer at 1. cbn [srv].
    unfold mbind at 1, M_bind at 1, liftE at 1.
    rewrite memCache_Messages_all.
    rewrite (forEach_sub_writes o encoder f _ w Hw He).
    rewrite IH. cbn [srv events map concat]. unfold replayWrites.
    rewrite map_app, <- app_assoc. reflexivity.
Qed.

(** How a subscription that is admitted and whose topics are resolved goes
    on: the [since] parameter is parsed with the request's own poll flag,
    then the filters, and the parsed time is what the replay gets. *)
Lemma handleSubscribe_since {C : Type} {cacheC : cache C} {ext : External}
    o r v format encoder (w w1 : World C) topics :
  subscriptionAllowed o = true ->
  topicsFromIDs (SplitNoEmpty (subscribePathTopics r format) ",") w = (inr topics, w1) ->
  handleSubscribe o r v format encoder w =
  match parseSince (nowSince o) r (String.eqb (pollParam r) "1") with
  | inl e => (inl e, w1)
  | inr since =>
      match parseQueryFilters r with
      | inl e => (inl e, w1)
      | inr filters =>
          let replay :=
            sendOldMessages topics since (String.eqb (scheduledParam r) "1")
              (sub o encoder filters) in
          if String.eqb (pollParam r) "1" then replay w1
          else streamAround o v (subscribePathTopics r format) topics
                 (sub o encoder filters) replay w1
      end
  end.
Proof.
  intros Ho Hrun. unfold handleSubscribe. rewrite Ho. cbn [negb]. cbv zeta.
  unfold subscribePathTopics in Hrun.
  unfold mbind at 1, M_bind at 1. rewrite Hrun.
  unfold mbind at 1, M_bind at 1, liftE at 1. fold (pollParam r).
  destruct (parseSince (nowSince o) r (String.eqb (pollParam r) "1")) as [e|since];
    [reflexivity|].
  unfold mbind at 1, M_bind at 1, liftE at 1.
  destruct (parseQueryFilters r) as [e|filters]; [reflexivity|].
  destruct (String.eqb (pollParam r) "1"); reflexivity.
Qed.

(** C5.  For a subscribe request that is admitted, whose topics are
    resolved and whose filters parse: without a [since] parameter a
    streaming subscribe goes from the open message straight to the
    keepalives and never reads the cache, while a poll ([poll=1]) replays
    under the "all" sentinel; [since=all] replays under the "all" sentinel
    in a stream and in a poll.  Under that sentinel every topic's cache is
    read without a time bound (for the in-memory cache: every published
    entry of the topic, and the scheduled ones on request), and a poll
    without filters writes each of these messages.  A [since] value that is
    not [all], not an integer and not a duration makes the request fail
    with error 40008 before anything is subscribed or written. *)
Theorem C5_since_semantics {C : Type} {cacheC : cache C} {ext : External} :
  (forall o r v format encoder (w w1 : World C) topics filters,
     subscriptionAllowed o = true ->
     topicsFromIDs (SplitNoEmpty (subscribePathTopics r format) ",") w = (inr topics, w1) ->
     parseQueryFilters r = inr filters ->
     let scheduled := String.eqb (scheduledParam r) "1" in
     let sub := sub o encoder filters in
     let replayAll := replayEachTopic topics sinceAllMessages scheduled sub in
     let run := handleSubscribe o r v format encoder w in
     (sinceParam r = "" -> pollParam r <> "1" ->
      run = streamAround o v (subscribePathTopics r format) topics sub (mret tt) w1)
     /\ (sinceParam r = "" -> pollParam r = "1" -> run = replayAll w1)
     /\ (sinceParam r = "all" -> pollParam r <> "1" ->
         run = streamAround o v (subscribePathTopics r format) topics sub replayAll w1)
     /\ (sinceParam r = "all" -> pollParam r = "1" -> run = replayAll w1))
  /\ (forall (c : list cacheEntry) topic scheduled,
        Messages c topic sinceAllMessages scheduled = inr (messagesAll c topic scheduled))
  /\ (forall o r v format encoder f (w w1 : World (list cacheEntry)) topics,
        subscriptionAllowed o = true ->
        topicsFromIDs (SplitNoEmpty (subscribePathTopics r format) ",") w = (inr topics, w1) ->
        parseQueryFilters r = inr noFilters ->
        sinceParam r = "" \/ sinceParam r = "all" ->
        pollParam r = "1" ->
        (forall n, writeError o n = None) ->
        (forall m, encoder m = inr (f m)) ->
        handleSubscribe o r v format encoder w
          = (inr tt,
             mkWorld (srv w1)
               (events w1
                ++ replayWrites f
                     (concat (map (fun t => messagesAll (cache_ (srv w1)) (topicID t)
                                               (String.eqb (scheduledParam r) "1"))
                                  topics)))))
  /\ (forall o r v format encoder (w w1 : World C) topics,
        subscriptionAllowed o = true ->
        topicsFromIDs (SplitNoEmpty (subscribePathTopics r format) ",") w = (inr topics, w1) ->
        sinceParam r <> "" -> sinceParam r <> "all" ->
        ParseInt (sinceParam r) = None -> ParseDuration (sinceParam r) = None ->
        handleSubscribe o r v format encoder w
          = (inl (errorHTTP errHTTPBadRequestSinceInvalid), w1))
  /\ Code errHTTPBadRequestSinceInvalid = 40008.
Proof.
  split.
  { intros o r v format encoder w w1 topics filters Ho Hrun Hf. cbv zeta.
    rewrite (handleSubscribe_since o r v format encoder w w1 topics Ho Hrun).
    rewrite Hf, !parseSince_unfold. cbv zeta.
    repeat split; intros Hs Hp; rewrite Hs; cbn [String.eqb Ascii.eqb Bool.eqb];
      try (rewrite Hp; cbn [String.eqb Ascii.eqb Bool.eqb]);
      try (apply String.eqb_neq in Hp; rewrite Hp);
      rewrite ?sendOldMessages_replay by reflexivity; reflexivity. }
  split; [exact memCache_Messages_all|].
  split.
  { intros o r v format encoder f w w1 topics Ho Hrun Hf Hs Hp Hw He.
    rewrite (handleSubscribe_since o r v format encoder w w1 topics Ho Hrun).
    rewrite Hf, parseSince_unfold, Hp. cbv zeta.
    assert (Hsince : (if String.eqb (sinceParam r) "" then inr sinceAllMessages
                      else if String.eqb (sinceParam r) "all" then inr sinceAllMessages
                      else match ParseInt (sinceParam r) with
                           | Some s => inr (Unix_ s)
                           | None =>
                               match ParseDuration (sinceParam r) with
                               | Some d => inr (Add (nowSince o) (wrapInt64 (-1 * d)))
                               | None => inl (errorHTTP errHTTPBadRequestSinceInvalid)
                               end
                           end) = (inr sinceAllMessages : error + sinceTime))
      by (destruct Hs as [-> | ->]; reflexivity).
    cbn [String.eqb Ascii.eqb Bool.eqb]. rewrite Hsince.
    apply replay_all_writes; assumption. }
  split; [|reflexivity].
  intros o r v format encoder w w1 topics Ho Hrun H1 H2 H3 H4.
  rewrite (handleSubscribe_since o r v format encoder w w1 topics Ho Hrun).
  rewrite parseSince_unfold. cbv zeta.
  apply String.eqb_neq in H1, H2. rewrite H1, H2, H3, H4. reflexivity.
Qed.

(** C10.  The unix timestamps 0 and 1 are the sentinels themselves:
    [since=0] parses to the "all" sentinel, so the replay is that of
    [since=all]; [since=1] parses to the "none" sentinel, so nothing is
    replayed.  Both differ from "the messages with time >= the timestamp":
    with [since=1] a cached message dated 5 is not replayed, and with
    [since=0] the in-memory cache also returns a message dated before the
    epoch. *)
Theorem C10_since_sentinels {C : Type} {cacheC : cache C} {ext : External} :
  (forall now r poll,
     sinceParam r = "0" ->
     parseSince now r poll = inr sinceAllMessages
     /\ IsAll sinceAllMessages = true
     /\ forall rall, sinceParam rall = "all" ->
          parseSince now rall poll = parseSince now r poll)
  /\ (forall now r poll,
        sinceParam r = "1" ->
        parseSince now r poll = inr sinceNoMessages
        /\ IsNone sinceNoMessages = true
        /\ forall topics scheduled (sub : message -> M C unit) (w : World C),
             sendOldMessages topics sinceNoMessages scheduled sub w = (inr tt, w))
  /\ (Messages [mkEntry earlyMessage true] "alerts" (Unix_ 1) false = inr []
      /\ messagesSinceUnix [mkEntry earlyMessage true] "alerts" 1 false = [earlyMessage])
  /\ (Messages [mkEntry beforeEpochMessage true] "alerts" (Unix_ 0) false
        = inr [beforeEpochMessage]
      /\ messagesSinceUnix [mkEntry beforeEpochMessage true] "alerts" 0 false = []).
Proof.
  split.
  { intros now r poll Hs. rewrite parseSince_unfold, Hs.
    split; [reflexivity|]. split; [reflexivity|].
    intros rall Hall. rewrite parseSince_unfold, Hall. reflexivity. }
  split.
  { intros now r poll Hs. rewrite parseSince_unfold, Hs.
    split; [reflexivity|]. split; [reflexivity|].
    intros. apply sendOldMessages_none. }
  split; split; reflexivity.
Qed.

(** ** Reserved topic names *)


Section ReservedTopics.
Context {C : Type} {cacheC : cache C} {ext : External}.

Lemma topicsFromIDs_loop_reserved_first id rest acc (w : World C) :
  In id disallowedTopics ->
  topicsFromIDs_loop (id :: rest) acc w
    = (inl (errorHTTP errHTTPBadRequestTopicDisallowed), w).
Proof.
  intros Hin. cbn [topicsFromIDs_loop].
  apply InStringList_In in Hin. rewrite Hin. reflexivity.
Qed.

(** What one round of the loop does with a name that is not reserved. *)
Lemma topicsFromIDs_loop_cons id rest acc (w : World C) :
  ~ In id disallowedTopics ->
  topicsFromIDs_loop (id :: rest) acc w =
  match topics (srv w) !! id with
  | Some t => topicsFromIDs_loop rest (acc ++ [t]) w
  | None =>
      if Z.of_nat (size (topics (srv w))) >=? TotalTopicLimit (config (srv w))
      then (inl (errorHTTP errHTTPTooManyRequestsLimitTotalTopics), w)
      else topicsFromIDs_loop rest (acc ++ [newTopic id])
             (mkWorld (setTopics (srv w) (<[id := newTopic id]> (topics (srv w))))
                      (events w))
  end.
Proof.
  intros Hin. cbn [topicsFromIDs_loop].
  destruct (InStringList disallowedTopics id) eqn:E;
    [apply InStringList_In in E; contradiction|].
  unfold mbind, M_bind, getServer. cbn [srv].
  destruct (topics (srv w) !! id); [reflexivity|].
  destruct (_ >=? _); reflexivity.
Qed.


(** Whatever the outcome, the registry only gains fresh topics for names
    of the list that are not reserved. *)
Lemma topicsFromIDs_loop_registry ids acc (w : World C) k :
  let w' := snd (topicsFromIDs_loop ids acc w) in
  topics (srv w') !! k = topics (srv w) !! k
  \/ (topics (srv w) !! k = None /\ topics (srv w') !! k = Some (newTopic k)
      /\ In k ids /\ ~ In k disallowedTopics).
Proof.
  revert acc w. induction ids as [|id rest IH]; intros acc w; [left; reflexivity|].
  destruct (decide (In id disallowedTopics)) as [Hid|Hid].
  - rewrite topicsFromIDs_loop_reserved_first by exact Hid. left; reflexivity.
  - rewrite topicsFromIDs_loop_cons by exact Hid.
    destruct (topics (srv w) !! id) as [t|] eqn:Hl.
    + destruct (IH (acc ++ [t]) w) as [H|(H1 & H2 & H3 & H4)]; [left; exact H|].
      right. repeat split; auto. right; exact H3.
    + destruct (_ >=? _); [left; reflexivity|].
      match goal with |- context [topicsFromIDs_loop rest ?a ?x] =>
        destruct (IH a x) as [H|(H1 & H2 & H3 & H4)] end; cbn [srv topics setTopics] in *.
      * destruct (decide (id = k)) as [->|Hne].
        -- right. rewrite H, lookup_insert_eq. repeat split; auto. left; reflexivity.
        -- left. rewrite H, lookup_insert_ne by exact Hne. reflexivity.
      * destruct (decide (id = k)) as [->|Hne].
        -- rewrite lookup_insert_eq in H1. discriminate.
        -- rewrite lookup_insert_ne in H1 by exact Hne.
           right. repeat split; auto. right; exact H3.
Qed.






End ReservedTopics.

(** ** The scheduled-delivery loop *)

(** C3, as stated, fails when the cache cannot mark a message:
    [sendDelayedMessages] returns at the first such error, and the due
    messages after it are not processed in that run. *)
Lemma C3_counterexample :
  let w' := snd (runAtSender (cacheC := lockedCache) (ext := Sample.ext)
                   Scheduled.now Scheduled.world) in
  MessagesDue (cache := lockedCache) (cache_ (srv Scheduled.world)) Scheduled.now
    = inr [Scheduled.first; Scheduled.second]
  /\ events w' =
       [EvPublish "alerts" Scheduled.first;
        EvLog "error sending scheduled messages" (errorString "database is locked")]
  /\ ~ In (EvPublish "alerts" Scheduled.second) (events w').
Proof.
  vm_compute. split; [reflexivity|]. split; [reflexivity|].
  intros [H|[H|[]]]; discriminate.
Qed.

Section ScheduledDelivery.
Context {C : Type} {cacheC : cache C} {ext : External}.

Lemma sendDelayedMessage_run (m : message) (w : World C) :
  sendDelayedMessage m w =
  match MarkPublished (cache_ (srv w)) m with
  | inl e => (inl e, mkWorld (srv w) (events w ++ deliveryEvents (srv w) m))
  | inr c => (inr tt, mkWorld (setCache (srv w) c) (events w ++ deliveryEvents (srv w) m))
  end.
Proof.
  unfold sendDelayedMessage, deliveryEvents, Publish.
  destruct w as [s ev]. munfold. cbn [srv events].
  destruct (topics s !! Topic m) as [t|]; cbn [srv events];
    [destruct (publishError (topicID t) m); cbn [srv events]|];
    (destruct (firebase s) as [fb|]; cbn [srv events];
     [destruct (fb m); cbn [srv events]|]);
    destruct (MarkPublished (cache_ s) m); cbn [srv events];
    rewrite <- ?app_assoc, ?app_nil_r; reflexivity.
Qed.

Lemma deliveryEvents_setCache (s : Server C) (c : C) (m : message) :
  deliveryEvents (setCache s c) m = deliveryEvents s m.
Proof. reflexivity. Qed.

(** The loop processes a prefix of the due messages, the whole list unless
    marking a message fails; the cache it leaves is the one the calls of
    [MarkPublished] have produced, and nothing else of the server changes. *)
Lemma sendDelayedLoop (due : list message) (w : World C) :
  let r := forEach due sendDelayedMessage w in
  exists k, (k <= length due)%nat
    /\ events (snd r) = events w ++ flat_map (deliveryEvents (srv w)) (firstn k due)
    /\ srv (snd r) = setCache (srv w) (cache_ (srv (snd r)))
    /\ match fst r with
       | inr _ =>
           k = length due
           /\ markedInOrder (cache_ (srv w)) due = inr (cache_ (srv (snd r)))
       | inl e =>
           (0 < k)%nat
           /\ markedInOrder (cache_ (srv w)) (firstn (k - 1) due)
              = inr (cache_ (srv (snd r)))
           /\ exists m, due !! (k - 1)%nat = Some m
                /\ MarkPublished (cache_ (srv (snd r))) m = inl e
       end.
Proof.
  revert w. induction due as [|m rest IH]; intros w; cbn zeta.
  - exists 0%nat. cbn. rewrite app_nil_r.
    split; [lia|]. split; [reflexivity|].
    split; [destruct (srv w); reflexivity|]. split; reflexivity.
  - cbn [forEach]. unfold mbind, M_bind. rewrite sendDelayedMessage_run.
    destruct (MarkPublished (cache_ (srv w)) m) as [e|c] eqn:Hm.
    + exists 1%nat. cbn [fst snd srv events firstn flat_map length Nat.sub].
      rewrite app_nil_r.
      split; [lia|]. split; [reflexivity|].
      split; [destruct (srv w); reflexivity|].
      split; [lia|]. split; [reflexivity|].
      exists m. split; [reflexivity|exact Hm].
    + match goal with |- context [forEach rest sendDelayedMessage ?x] =>
        destruct (IH x) as (k & Hk & Hev & Hsrv & Hres) end.
      exists (S k). cbn [firstn flat_map length srv events] in *.
      assert (Hfm : forall l, flat_map (deliveryEvents (setCache (srv w) c)) l
                              = flat_map (deliveryEvents (srv w)) l)
        by (intros l; reflexivity).
      rewrite Hfm in Hev. rewrite Hev, <- app_assoc.
      split; [lia|]. split; [reflexivity|].
      split; [rewrite Hsrv at 1; reflexivity|].
      cbn [markedInOrder]. rewrite Hm.
      destruct (fst (forEach rest sendDelayedMessage _)) as [e|u].
      * destruct Hres as (Hpos & Hmark & m' & Hl & Hf).
        split; [lia|].
        destruct k as [|k']; [lia|].
        cbn [Nat.sub] in *. rewrite Nat.sub_0_r in *.
        cbn [firstn markedInOrder]. rewrite Hm.
        split; [exact Hmark|]. exists m'. split; [exact Hl|exact Hf].
      * destruct Hres as [-> Hmark]. split; [reflexivity|exact Hmark].
Qed.

(** C3, amended.  In a run of the scheduled-delivery loop the due messages
    are processed in order: publish to the topic if it still exists, call
    the push hook if configured, mark the message published.  An error of
    the topic or of the push hook is logged and the run goes on.  The cache
    after the run is the one that marking the processed messages in order
    has produced, and nothing else of the server has changed.  With a cache
    that marks without error every due message is processed and marked.  An
    error of [MarkPublished] ends the run at that message: the messages
    before it are marked, the ones after it are neither delivered nor
    marked in this run; the loop logs the error and keeps running. *)
Theorem C3_scheduled_delivery (now : Time) (w : World C) (due : list message) :
  MessagesDue (cache_ (srv w)) now = inr due ->
  let r := sendDelayedMessages now w in
  (exists k, (k <= length due)%nat
     /\ events (snd r) = events w ++ flat_map (deliveryEvents (srv w)) (firstn k due)
     /\ srv (snd r) = setCache (srv w) (cache_ (srv (snd r)))
     /\ match fst r with
        | inr _ =>
            k = length due
            /\ markedInOrder (cache_ (srv w)) due = inr (cache_ (srv (snd r)))
        | inl e =>
            (0 < k)%nat
            /\ markedInOrder (cache_ (srv w)) (firstn (k - 1) due)
               = inr (cache_ (srv (snd r)))
            /\ exists m, due !! (k - 1)%nat = Some m
                 /\ MarkPublished (cache_ (srv (snd r))) m = inl e
        end)
  /\ ((forall c m, exists c', MarkPublished c m = inr c') -> fst r = inr tt)
  /\ runAtSender now w
     = (inr tt,
        match fst r with
        | inl e =>
            mkWorld (srv (snd r))
                    (events (snd r) ++ [EvLog "error sending scheduled messages" e])
        | inr _ => snd r
        end).
Proof.
  intros Hdue. cbn zeta.
  assert (Hrun : sendDelayedMessages now w = forEach due sendDelayedMessage w).
  { unfold sendDelayedMessages. munfold. cbn [srv]. rewrite Hdue. reflexivity. }
  rewrite Hrun. split; [apply sendDelayedLoop|]. split.
  - intros Htotal. clear Hrun Hdue. revert w.
    induction due as [|m rest IH]; intros w; [reflexivity|].
    cbn [forEach]. unfold mbind, M_bind. rewrite sendDelayedMessage_run.
    destruct (Htotal (cache_ (srv w)) m) as [c' ->]. apply IH.
  - unfold runAtSender. rewrite Hrun.
    destruct (forEach due sendDelayedMessage w) as [[e|[]] w1]; reflexivity.
Qed.

End ScheduledDelivery.

(** ** Open, replay and live messages on one connection *)

(** A run in which a publish arrives between [t.Subscribe(sub)] and the
    open message. *)
Lemma liveFirst_reachable :
  reachable [newTopic "alerts"] sinceAllMessages false noFilters Stream.liveFirst.
Proof.
  exists [mkEntry Stream.cached true].
  pose (T := [newTopic "alerts"]). pose (F := noFilters).
  pose (c := [mkEntry Stream.cached true]).
  pose proof (steps_refl T sinceAllMessages false F (start T c)) as H0.
  pose proof (steps_step _ _ _ _ _ _ _ H0
                (step_subscribe T sinceAllMessages false F (newTopic "alerts") [] [] [] c))
    as H1.
  pose proof (steps_step _ _ _ _ _ _ _ H1
                (step_live T sinceAllMessages false F Stream.live (AtSubscribe [])
                   ["alerts"] [] c (conj eq_refl (or_introl eq_refl)))) as H2.
  pose proof (steps_step _ _ _ _ _ _ _ H2
                (step_subscribed T sinceAllMessages false F _ _ c)) as H3.
  pose proof (steps_step _ _ _ _ _ _ _ H3
                (step_open T sinceAllMessages false F Stream.opened _ _ c eq_refl)) as H4.
  pose proof (steps_step _ _ _ _ _ _ _ H4
                (step_fetch T sinceAllMessages false F (newTopic "alerts") []
                   [Stream.cached] _ _ c eq_refl)) as H5.
  pose proof (steps_step _ _ _ _ _ _ _ H5
                (step_replay T sinceAllMessages false F Stream.cached [] [] _ _ c)) as H6.
  exact H6.
Qed.

(** With no publisher around the connection carries the open event and
    then the cached message, as the handler alone writes them. *)
Example handlerOnly_reachable :
  reachable [newTopic "alerts"] sinceAllMessages false noFilters
    (mkConnection AtLoop ["alerts"] [(Open, Stream.opened); (Replay, Stream.cached)]
                  [mkEntry Stream.cached true]).
Proof.
  exists [mkEntry Stream.cached true].
  pose (T := [newTopic "alerts"]). pose (F := noFilters).
  pose (c := [mkEntry Stream.cached true]).
  pose proof (steps_refl T sinceAllMessages false F (start T c)) as H0.
  pose proof (steps_step _ _ _ _ _ _ _ H0
                (step_subscribe T sinceAllMessages false F (newTopic "alerts") [] [] [] c))
    as H1.
  pose proof (steps_step _ _ _ _ _ _ _ H1
                (step_subscribed T sinceAllMessages false F _ _ c)) as H2.
  pose proof (steps_step _ _ _ _ _ _ _ H2
                (step_open T sinceAllMessages false F Stream.opened _ _ c eq_refl)) as H3.
  pose proof (steps_step _ _ _ _ _ _ _ H3
                (step_fetch T sinceAllMessages false F (newTopic "alerts") []
                   [Stream.cached] _ _ c eq_refl)) as H4.
  pose proof (steps_step _ _ _ _ _ _ _ H4
                (step_replay T sinceAllMessages false F Stream.cached [] [] _ _ c)) as H5.
  pose proof (steps_step _ _ _ _ _ _ _ H5
                (step_replayed T sinceAllMessages false F _ _ c)) as H6.
  exact H6.
Qed.

(** C4, as stated, fails: the callback is registered on the
    topic before the open message is sent, so a message published in
    between is written first, ahead of the open event and of the replay. *)
Lemma C4_counterexample :
  reachable [newTopic "alerts"] sinceAllMessages false noFilters Stream.liveFirst
  /\ ~ replayBeforeLive (written Stream.liveFirst).
Proof.
  split; [exact liveFirst_reachable|].
  intros H. specialize (H 2%nat 0%nat Stream.cached Stream.live eq_refl eq_refl). lia.
Qed.

Section StreamOrder.
Context {C : Type} {cacheC : cache C}.
Variable topics : list topic.
Variable since : sinceTime.
Variable scheduled : bool.
Variable filters : string * string * list Z * list string.

Lemma deliver_cases (o : origin) (m : message) (out : list (origin * message)) :
  deliver filters o m out = out \/ deliver filters o m out = out ++ [(o, m)].
Proof. unfold deliver. destruct (passes filters m); auto. Qed.

Lemma deliver_open (m : message) (out : list (origin * message)) :
  Event m = openEvent -> deliver filters Open m out = out ++ [(Open, m)].
Proof.
  intros Hev. unfold deliver, passes. destruct filters as [[[mf tf] pf] tags].
  unfold passesQueryFilter. rewrite Hev. reflexivity.
Qed.

Lemma openBeforeReplay_snoc (o : origin) (m : message) (out : list (origin * message)) :
  openBeforeReplay out ->
  (o = Replay -> exists op, In (Open, op) out) ->
  openBeforeReplay (out ++ [(o, m)]).
Proof.
  intros Hout Hopen i m' Hi.
  apply lookup_app_Some in Hi as [Hi|[Hlen Hi]].
  - destruct (Hout i m' Hi) as (j & op & Hj & Hl).
    exists j, op. split; [exact Hj|]. apply lookup_app_l_Some. exact Hl.
  - destruct (i - length out)%nat eqn:Hd; [|destruct n; discriminate].
    cbn in Hi. injection Hi as -> ->.
    destruct (Hopen eq_refl) as [op Hin].
    apply list_elem_of_In, list_elem_of_lookup in Hin as [j Hj].
    exists j, op. split; [|apply lookup_app_l_Some; exact Hj].
    apply lookup_lt_Some in Hj. lia.
Qed.

Lemma openBeforeReplay_deliver (o : origin) (m : message) (out : list (origin * message)) :
  openBeforeReplay out ->
  (o = Replay -> exists op, In (Open, op) out) ->
  openBeforeReplay (deliver filters o m out).
Proof.
  intros Hout Hopen. destruct (deliver_cases o m out) as [->| ->]; [exact Hout|].
  apply openBeforeReplay_snoc; assumption.
Qed.

Lemma In_deliver (x : origin * message) (o : origin) (m : message)
    (out : list (origin * message)) :
  In x out -> In x (deliver filters o m out).
Proof.
  intros H. destruct (deliver_cases o m out) as [->| ->]; [exact H|].
  apply in_or_app. left; exact H.
Qed.

Lemma streamInvariant_step (x y : connection C) :
  step topics since scheduled filters x y -> streamInvariant x -> streamInvariant y.
Proof.
  intros Hstep [Hobr Hopen]. unfold streamInvariant.
  inversion Hstep; subst; cbn [at_ written] in *.
  - auto.
  - auto.
  - rewrite deliver_open by assumption. split.
    + apply openBeforeReplay_snoc; [exact Hobr|discriminate].
    + destruct (IsNone since); [exact I|].
      exists m. apply in_or_app. right. left. reflexivity.
  - auto.
  - split.
    + apply openBeforeReplay_deliver; [exact Hobr|intros _; exact Hopen].
    + destruct Hopen as [op Hin]. exists op. apply In_deliver. exact Hin.
  - auto.
  - split; [|exact I]. apply openBeforeReplay_deliver; [exact Hobr|discriminate].
  - auto.
  - split.
    + apply openBeforeReplay_deliver; [exact Hobr|discriminate].
    + destruct p; auto. destruct Hopen as [op Hin]. exists op. apply In_deliver. exact Hin.
  - auto.
Qed.

Lemma streamInvariant_reachable (x : connection C) :
  reachable topics since scheduled filters x -> streamInvariant x.
Proof.
  intros [c0 Hsteps].
  remember (start topics c0) as x0 eqn:Hx0.
  induction Hsteps as [x|x y z Hxy IH Hyz].
  - subst. split; [|exact I]. intros i m Hi. cbn in Hi. discriminate.
  - eapply streamInvariant_step; [exact Hyz|]. apply IH. exact Hx0.
Qed.

(** Once the replay is over, only keepalive and live messages follow. *)
Lemma after_replay_step (x y : connection C) :
  step topics since scheduled filters x y -> replayDone (at_ x) ->
  replayDone (at_ y)
  /\ exists extra, written y = written x ++ extra
       /\ Forall (fun it => it.1 = KeepaliveMsg \/ it.1 = Live) extra.
Proof.
  intros Hstep Hdone. unfold replayDone in *.
  inversion Hstep; subst; cbn [at_ written] in *;
    try (destruct Hdone; discriminate).
  - split; [auto|]. destruct (deliver_cases KeepaliveMsg m out) as [->| ->].
    + exists []. rewrite app_nil_r. auto.
    + exists [(KeepaliveMsg, m)]. split; [reflexivity|].
      constructor; [left; reflexivity|constructor].
  - split; [auto|]. exists []. rewrite app_nil_r. auto.
  - split; [exact Hdone|]. destruct (deliver_cases Live m out) as [->| ->].
    + exists []. rewrite app_nil_r. auto.
    + exists [(Live, m)]. split; [reflexivity|].
      constructor; [right; reflexivity|constructor].
  - split; [exact Hdone|]. exists []. rewrite app_nil_r. auto.
Qed.

Lemma after_replay_steps (x y : connection C) :
  steps topics since scheduled filters x y -> replayDone (at_ x) ->
  replayDone (at_ y)
  /\ exists extra, written y = written x ++ extra
       /\ Forall (fun it => it.1 = KeepaliveMsg \/ it.1 = Live) extra.
Proof.
  intros Hsteps Hdone. induction Hsteps as [x|x y z Hxy IH Hyz].
  - split; [exact Hdone|]. exists []. rewrite app_nil_r. auto.
  - destruct (IH Hdone) as (Hy & e1 & He1 & Hf1).
    destruct (after_replay_step _ _ Hyz Hy) as (Hz & e2 & He2 & Hf2).
    split; [exact Hz|]. exists (e1 ++ e2). rewrite He2, He1, app_assoc.
    split; [reflexivity|]. apply Forall_app. auto.
Qed.

(** C4, amended.  On a streaming connection the open event is written
    before any replayed cached message.  Live messages reach the connection
    from the moment the callback is registered, which is before the open
    event is written, so they may come before or between the open event and
    the replayed messages; what is written after the replay has finished is
    keepalive and live messages only, so those live messages follow every
    replayed message. *)
Theorem C4_stream_order (x : connection C) :
  reachable topics since scheduled filters x ->
  openBeforeReplay (written x)
  /\ forall y, replayDone (at_ x) -> steps topics since scheduled filters x y ->
       exists extra, written y = written x ++ extra
         /\ Forall (fun it => it.1 = KeepaliveMsg \/ it.1 = Live) extra.
Proof.
  intros Hreach. split; [apply (streamInvariant_reachable x Hreach)|].
  intros y Hdone Hsteps. apply (after_replay_steps x y Hsteps Hdone).
Qed.

End StreamOrder.

(** * The theorems at concrete requests *)

(** [PUT /alerts] with body [hello]: no [attach], no [filename], valid
    UTF-8 below the limit, so the body is the message. *)
Lemma C1_witness :
  exists m,
    parsePublishParams (C := list cacheEntry) (ext := Sample.ext) Sample.env Sample.putHello
      Sample.visitor (newDefaultMessage "alerts" "" "Mz4tQw9Jx1" (nowMessage Sample.env))
      Sample.world = (inr (true, true, "", m), Sample.world)
    /\ handlePublishBody (cacheC := memCache) (ext := Sample.ext) Sample.env Sample.putHello
         Sample.visitor m (mkPeaked "hello" false "")
       = handleBodyAsMessage m (mkPeaked "hello" false "").
Proof.
  eexists. split; [reflexivity|].
  apply (C1_body_disposition (cacheC := memCache) (ext := Sample.ext) Sample.env
           Sample.putHello Sample.visitor "alerts" "Mz4tQw9Jx1" Sample.world Sample.world
           true true "" _ (mkPeaked "hello" false "")).
  reflexivity.
Defined.

(** [PUT /alerts?delay=30m]: nothing but the response is emitted, and the
    message is stored unpublished. *)
Lemma C2_witness :
  wall (nowMessage Sample.env) <= wall (nowDelayed Sample.env)
  /\ wall (nowDelayed Sample.env) <= wall (nowAddMessage Sample.env)
  /\ handlePublish (ext := Sample.ext) Sample.env Sample.putDelayed Sample.visitor
       Sample.world = (inr Sample.delayedMessage, Sample.delayedWorld)
  /\ delayed Sample.env Sample.delayedMessage = true
  /\ events Sample.delayedWorld = [EvResponse Sample.delayedMessage]
  /\ cache_ (srv Sample.delayedWorld) = [mkEntry Sample.delayedMessage false].
Proof.
  assert (H1 : wall (nowMessage Sample.env) <= wall (nowDelayed Sample.env))
    by (vm_compute; discriminate).
  assert (H2 : wall (nowDelayed Sample.env) <= wall (nowAddMessage Sample.env))
    by (vm_compute; discriminate).
  assert (Hrun : handlePublish (ext := Sample.ext) Sample.env Sample.putDelayed
                   Sample.visitor Sample.world
                 = (inr Sample.delayedMessage, Sample.delayedWorld))
    by (vm_compute; reflexivity).
  split; [exact H1|]. split; [exact H2|]. split; [exact Hrun|].
  split; [reflexivity|].
  destruct (C2_delayed_publish (ext := Sample.ext) Sample.env Sample.putDelayed
              Sample.visitor Sample.world Sample.delayedWorld Sample.delayedMessage
              H1 H2 Hrun)
    as (t & new & _ & Hev & Hdel & _).
  destruct (Hdel eq_refl) as [Hnew Hcache].
  split; [rewrite Hev, Hnew; reflexivity|exact Hcache].
Defined.

(** Two due messages in the in-memory cache: both are published to the
    topic and both are marked in the cache. *)
Lemma C3_witness :
  MessagesDue (cache_ (srv Scheduled.world)) Scheduled.now
    = inr [Scheduled.first; Scheduled.second]
  /\ (let r := runAtSender (ext := Sample.ext) Scheduled.now Scheduled.world in
      fst r = inr tt
      /\ events (snd r)
         = [EvPublish "alerts" Scheduled.first; EvPublish "alerts" Scheduled.second]
      /\ cache_ (srv (snd r))
         = [mkEntry Scheduled.first true; mkEntry Scheduled.second true]).
Proof.
  assert (Hdue : MessagesDue (cache_ (srv Scheduled.world)) Scheduled.now
                 = inr [Scheduled.first; Scheduled.second]) by reflexivity.
  split; [exact Hdue|].
  destruct (C3_scheduled_delivery (ext := Sample.ext) Scheduled.now Scheduled.world
              [Scheduled.first; Scheduled.second] Hdue)
    as ((k & _ & Hev & _ & Hres) & Htotal & Hloop).
  assert (Hok : fst (sendDelayedMessages (ext := Sample.ext) Scheduled.now Scheduled.world)
                = inr tt).
  { apply Htotal. intros c m. eexists. reflexivity. }
  cbn zeta. rewrite Hloop. rewrite Hok in Hres |- *. destruct Hres as [-> Hmark].
  split; [reflexivity|]. split; [exact Hev|].
  cbn [snd].
  apply (f_equal (fun x : error + list cacheEntry =>
                    match x with inr c => c | inl _ => [] end)) in Hmark.
  symmetry. exact Hmark.
Defined.

(** Even in the run where a live message comes first, the open event
    precedes the replayed message. *)
Lemma C4_witness :
  reachable [newTopic "alerts"] sinceAllMessages false noFilters Stream.liveFirst
  /\ openBeforeReplay (written Stream.liveFirst).
Proof.
  split; [exact liveFirst_reachable|].
  apply (C4_stream_order [newTopic "alerts"] sinceAllMessages false noFilters
           Stream.liveFirst liveFirst_reachable).
Defined.

(** [GET /alerts/json?poll=1] on a server with one cached message writes
    that message; [GET /alerts/json?since=yesterday] is rejected with
    40008. *)
Lemma C5_witness :
  handleSubscribe (ext := Sample.ext) Sample.subEnv Sample.pollAll Sample.visitor "json"
    (encoderJSON (ext := Sample.ext)) Sample.cachedWorld
  = (inr tt,
     mkWorld (srv Sample.cachedWorld)
             [EvWrite Sample.oldMessage "id=Hq7RvT2mKe message=disk at 91%"])
  /\ handleSubscribe (ext := Sample.ext) Sample.subEnv Sample.subscribeBadSince
       Sample.visitor "json" (encoderJSON (ext := Sample.ext)) Sample.cachedWorld
     = (inl (errorHTTP errHTTPBadRequestSinceInvalid), Sample.cachedWorld).
Proof.
  destruct (C5_since_semantics (C := list cacheEntry) (ext := Sample.ext))
    as (_ & _ & Hpoll & Hbad & _).
  assert (Hallowed : subscriptionAllowed Sample.subEnv = true) by reflexivity.
  assert (Htopics : forall r,
            Path r = "/alerts/json" ->
            topicsFromIDs (SplitNoEmpty (subscribePathTopics r "json") ",")
              Sample.cachedWorld
            = (inr [newTopic "alerts"], Sample.cachedWorld)).
  { intros r Hp. unfold subscribePathTopics. rewrite Hp. vm_compute. reflexivity. }
  split.
  - rewrite (Hpoll Sample.subEnv Sample.pollAll Sample.visitor "json"
               (encoderJSON (ext := Sample.ext))
               (fun m => "id=" +:+ ID m +:+ " message=" +:+ Message m)
               Sample.cachedWorld Sample.cachedWorld [newTopic "alerts"] Hallowed
               (Htopics Sample.pollAll eq_refl) eq_refl (or_introl eq_refl) eq_refl
               (fun n => eq_refl) (fun m => eq_refl)).
    vm_compute. reflexivity.
  - apply (Hbad Sample.subEnv Sample.subscribeBadSince Sample.visitor "json"
             (encoderJSON (ext := Sample.ext)) Sample.cachedWorld Sample.cachedWorld
             [newTopic "alerts"] Hallowed (Htopics Sample.subscribeBadSince eq_refl));
      [discriminate|discriminate|reflexivity|reflexivity].
Defined.

(** A message that passes the tag filter [disk] carries the tag. *)
Lemma C6_witness :
  passesQueryFilter Sample.tagged "" "" [] ["disk"] = true
  /\ In "disk" (Tags Sample.tagged).
Proof.
  assert (Hp : passesQueryFilter Sample.tagged "" "" [] ["disk"] = true) by reflexivity.
  split; [exact Hp|].
  destruct (C6_query_filters (C := list cacheEntry))
    as (_ & _ & _ & Htags & _).
  apply (Htags Sample.tagged "" "" [] ["disk"] eq_refl); [discriminate|exact Hp|].
  left; reflexivity.
Defined.


(** The visitor idle for 30 hours is stale, and the manager loop drops
    it. *)
Lemma C8_witness :
  inactiveFor idleVisitor thirtyHoursLater > visitorExpungeAfter
  /\ Stale idleVisitor thirtyHoursLater = true.
Proof.
  assert (H : inactiveFor idleVisitor thirtyHoursLater > visitorExpungeAfter)
    by reflexivity.
  split; [exact H|].
  destruct (C8_stale_threshold (C := list cacheEntry)) as (_ & Hs & _).
  apply Hs. exact H.
Defined.

(** [PUT /alerts?priority=urgent] succeeds: the message has priority 5,
    goes out to the topic and is added to the cache.
    [PUT /alerts?priority=bogus] fails with 40007. *)
Lemma C9_witness :
  (exists m w',
     handlePublish (ext := Sample.ext) Sample.env Sample.putUrgent Sample.visitor
       Sample.world = (inr m, w')
     /\ Priority m = 5
     /\ events w' = [EvPublish "alerts" m; EvResponse m]
     /\ cache_ (srv w') = [mkEntry m true])
  /\ ParsePriority (priorityParam Sample.putBogus) = inl errInvalidPriority
  /\ fst (handlePublish (ext := Sample.ext) Sample.env Sample.putBogus Sample.visitor
            Sample.world)
     = inl (errorHTTP errHTTPBadRequestPriorityInvalid).
Proof.
  destruct (C9_priority_parsing (C := list cacheEntry) (ext := Sample.ext))
    as (_ & _ & Hgood & _ & Hbad).
  split.
  - assert (Hu : priorityParam Sample.putUrgent = "urgent") by reflexivity.
    destruct (Hgood Sample.env Sample.putUrgent Sample.visitor Sample.world
                Sample.alertsWorld (newTopic "alerts") (mkPeaked "fire" false "") 5)
      as (m & w' & Hrun & _ & H5 & Hev & Hc);
      try reflexivity.
    + vm_compute. discriminate.
    + intros m. eexists. reflexivity.
    + exists m, w'. split; [exact Hrun|]. split; [exact (H5 Hu)|].
      split; [exact Hev|].
      assert (Ht : Time_ m = 1700000300).
      { assert (Hr := Hrun). vm_compute in Hr. injection Hr as <- _. reflexivity. }
      specialize (Hc eq_refl). cbn [AddMessage memCache] in Hc. rewrite Ht in Hc.
      injection Hc as Hc. symmetry. exact Hc.
  - assert (Hp : ParsePriority (priorityParam Sample.putBogus) = inl errInvalidPriority)
      by reflexivity.
    split; [exact Hp|].
    destruct (Hbad Sample.env Sample.putBogus Sample.visitor Sample.world _ Hp)
      as [_ Hcode].
    apply (Hcode (newTopic "alerts") Sample.alertsWorld (mkPeaked "fire" false ""));
      reflexivity.
Defined.

(** [since=1] parses to the "none" sentinel. *)
Lemma C10_witness :
  sinceParam Sample.subscribeSinceOne = "1"
  /\ parseSince (ext := Sample.ext) (Sample.clock 0) Sample.subscribeSinceOne true
     = inr sinceNoMessages.
Proof.
  assert (H : sinceParam Sample.subscribeSinceOne = "1") by reflexivity.
  split; [exact H|].
  destruct (C10_since_sentinels (C := list cacheEntry) (ext := Sample.ext))
    as (_ & Hone & _).
  apply (Hone (Sample.clock 0) Sample.subscribeSinceOne true H).
Defined.

(** * Further properties of the code *)

(** ** Letter case and white space *)

Lemma append_nil_r (s : string) : s +:+ "" = s.
Proof.
  induction s as [|c s IH]; [reflexivity|].
  change (String c s +:+ "") with (String c (s +:+ "")). rewrite IH. reflexivity.
Qed.

Lemma append_assoc (a b c : string) : (a +:+ b) +:+ c = a +:+ (b +:+ c).
Proof.
  induction a as [|x a IH]; [reflexivity|].
  change (String x ((a +:+ b) +:+ c) = String x (a +:+ (b +:+ c))). rewrite IH. reflexivity.
Qed.

Lemma append_cons c (a b : string) : String c a +:+ b = String c (a +:+ b).
Proof. reflexivity. Qed.

Lemma append_nil_l (s : string) : "" +:+ s = s.
Proof. reflexivity. Qed.

Lemma length_append (a b : string) :
  String.length (a +:+ b) = (String.length a + String.length b)%nat.
Proof.
  induction a as [|c a IH]; [reflexivity|].
  rewrite append_cons. cbn [String.length]. rewrite IH. reflexivity.
Qed.

(** Induction on the length of a string. *)
Lemma string_length_ind (P : string -> Prop) :
  (forall s, (forall t, (String.length t < String.length s)%nat -> P t) -> P s) ->
  forall s, P s.
Proof.
  intros H s. remember (String.length s) as n eqn:Hn.
  revert s Hn. induction n as [n IH] using lt_wf_ind. intros s ->.
  apply H. intros t Ht. apply (IH _ Ht). reflexivity.
Qed.

Lemma space2_cont c0 c1 : space2 c0 c1 = true -> isCont c0 = false /\ isCont c1 = true.
Proof.
  unfold space2, isCont. cbv zeta. intros H.
  apply andb_true_iff in H as [H0 H1]. apply N.eqb_eq in H0. rewrite H0.
  split; [reflexivity|].
  apply orb_true_iff in H1 as [H1|H1]; apply N.eqb_eq in H1; rewrite H1; reflexivity.
Qed.

Lemma space3_cont c0 c1 c2 :
  space3 c0 c1 c2 = true -> isCont c0 = false /\ isCont c1 = true /\ isCont c2 = true.
Proof.
  unfold space3, isCont. cbv zeta. intros H.
  repeat match type of H with
         | (_ || _)%bool = true => apply orb_true_iff in H as [H|H]
         end;
  repeat match goal with
         | H : (_ && _)%bool = true |- _ => apply andb_true_iff in H as [? ?]
         | H : (_ || _)%bool = true |- _ => apply orb_true_iff in H as [H|H]
         | H : (_ =? _)%N = true |- _ => apply N.eqb_eq in H; rewrite H
         end;
  repeat split; try reflexivity.
  all: apply andb_true_iff; split; apply N.leb_le;
    match goal with
    | H1 : (128 <=? _)%N = true, H2 : (_ <=? 138)%N = true |- _ =>
        apply N.leb_le in H1, H2; lia
    end.
Qed.

Lemma isSpace_cont c : isSpace c = true -> isCont c = false.
Proof. destruct c as [[] [] [] [] [] [] [] []]; try discriminate; reflexivity. Qed.

Lemma trimLeft_step s :
  trimLeft s = match leadingSpace s with Some r => trimLeft r | None => s end.
Proof.
  destruct s as [|c0 r0]; [reflexivity|].
  change (trimLeft (String c0 r0))
    with (if isSpace c0 then trimLeft r0
          else match r0 with
               | String c1 r1 =>
                   if space2 c0 c1 then trimLeft r1
                   else match r1 with
                        | String c2 r2 =>
                            if space3 c0 c1 c2 then trimLeft r2 else String c0 r0
                        | _ => String c0 r0
                        end
               | _ => String c0 r0
               end).
  cbn [leadingSpace]. destruct (isSpace c0); [reflexivity|].
  destruct r0 as [|c1 r1]; [reflexivity|]. destruct (space2 c0 c1); [reflexivity|].
  destruct r1 as [|c2 r2]; [reflexivity|]. destruct (space3 c0 c1 c2); reflexivity.
Qed.

(** A leading white-space rune and what follows it. *)
Lemma leadingSpace_split s r :
  leadingSpace s = Some r -> exists e, s = e +:+ r /\ isSpaceRune e = true.
Proof.
  unfold isSpaceRune.
  destruct s as [|c0 [|c1 [|c2 r2]]]; cbn [leadingSpace]; try discriminate.
  - destruct (isSpace c0) eqn:E0; [|discriminate]. intros [= <-].
    exists (String c0 ""). cbn [leadingSpace]. rewrite E0. auto.
  - destruct (isSpace c0) eqn:E0.
    { intros [= <-]. exists (String c0 ""). cbn [leadingSpace]. rewrite E0. auto. }
    destruct (space2 c0 c1) eqn:E1; [|discriminate]. intros [= <-].
    exists (String c0 (String c1 "")). cbn [leadingSpace]. rewrite E0, E1. auto.
  - destruct (isSpace c0) eqn:E0.
    { intros [= <-]. exists (String c0 ""). cbn [leadingSpace]. rewrite E0. auto. }
    destruct (space2 c0 c1) eqn:E1.
    { intros [= <-]. exists (String c0 (String c1 "")).
      cbn [leadingSpace]. rewrite E0, E1. auto. }
    destruct (space3 c0 c1 c2) eqn:E2; [|discriminate]. intros [= <-].
    exists (String c0 (String c1 (String c2 ""))).
    cbn [leadingSpace]. rewrite E0, E1, E2. auto.
Qed.

Lemma isSpaceRune_leading e s : isSpaceRune e = true -> leadingSpace (e +:+ s) = Some s.
Proof.
  unfold isSpaceRune.
  destruct e as [|c0 [|c1 [|c2 r2]]]; cbn [leadingSpace]; try discriminate.
  - destruct (isSpace c0) eqn:E0; [|discriminate]. intros _.
    rewrite ?append_cons, ?append_nil_l; cbn [leadingSpace]. rewrite E0. reflexivity.
  - destruct (isSpace c0) eqn:E0; [discriminate|].
    destruct (space2 c0 c1) eqn:E1; [|discriminate]. intros _.
    rewrite ?append_cons, ?append_nil_l; cbn [leadingSpace]. rewrite E0, E1. reflexivity.
  - destruct (isSpace c0) eqn:E0; [discriminate|].
    destruct (space2 c0 c1) eqn:E1; [discriminate|].
    destruct (space3 c0 c1 c2) eqn:E2; [|discriminate].
    destruct r2; [|discriminate]. intros _.
    rewrite ?append_cons, ?append_nil_l; cbn [leadingSpace]. rewrite E0, E1, E2. reflexivity.
Qed.

Lemma isSpaceRune_startsRune e : isSpaceRune e = true -> startsRune e = true.
Proof.
  unfold isSpaceRune, startsRune.
  destruct e as [|c0 [|c1 [|c2 r2]]]; cbn [leadingSpace]; try discriminate.
  - destruct (isSpace c0) eqn:E0; [|discriminate].
    rewrite (isSpace_cont _ E0). reflexivity.
  - destruct (isSpace c0) eqn:E0; [discriminate|].
    destruct (space2 c0 c1) eqn:E1; [|discriminate].
    destruct (space2_cont _ _ E1) as [-> _]. reflexivity.
  - destruct (isSpace c0) eqn:E0; [discriminate|].
    destruct (space2 c0 c1) eqn:E1; [discriminate|].
    destruct (space3 c0 c1 c2) eqn:E2; [|discriminate].
    destruct (space3_cont _ _ _ E2) as [-> _]. reflexivity.
Qed.

Lemma leadingSpace_app a b r :
  leadingSpace a = Some r -> leadingSpace (a +:+ b) = Some (r +:+ b).
Proof.
  intros H. destruct (leadingSpace_split a r H) as (e & -> & He).
  rewrite append_assoc. apply isSpaceRune_leading, He.
Qed.

(** Across the end of a string that does not begin with white space no
    white-space rune is found, when a rune starts there. *)
Lemma leadingSpace_app_None a b :
  a <> "" -> leadingSpace a = None -> startsRune b = true ->
  leadingSpace (a +:+ b) = None.
Proof.
  intros Ha H Hb.
  destruct a as [|c0 [|c1 [|c2 r2]]]; [contradiction| | |];
    rewrite ?append_cons, ?append_nil_l in *; cbn [leadingSpace] in *;
    destruct (isSpace c0) eqn:E0; try discriminate.
  - destruct b as [|b0 [|b1 b2]]; [reflexivity| |]; cbn [startsRune] in Hb;
      apply negb_true_iff in Hb.
    + destruct (space2 c0 b0) eqn:E; [|reflexivity].
      apply space2_cont in E as [_ E]. congruence.
    + destruct (space2 c0 b0) eqn:E; [apply space2_cont in E as [_ E]; congruence|].
      destruct (space3 c0 b0 b1) eqn:E'; [|reflexivity].
      apply space3_cont in E' as (_ & E' & _). congruence.
  - destruct (space2 c0 c1) eqn:E1; [discriminate|].
    destruct b as [|b0 b1]; [reflexivity|]. cbn [startsRune] in Hb.
    apply negb_true_iff in Hb. rewrite ?append_cons, ?append_nil_l; cbn [leadingSpace].
    destruct (space3 c0 c1 b0) eqn:E'; [|reflexivity].
    apply space3_cont in E' as (_ & _ & E'). congruence.
  - destruct (space2 c0 c1) eqn:E1; [discriminate|].
    destruct (space3 c0 c1 c2) eqn:E2; [discriminate|]. reflexivity.
Qed.

Lemma leadingSpace_shorter s r :
  leadingSpace s = Some r -> (String.length r < String.length s)%nat.
Proof.
  intros H. destruct (leadingSpace_split s r H) as (e & -> & He).
  rewrite length_append. destruct e; [discriminate|]. cbn [String.length]. lia.
Qed.

Lemma trimLeft_fixed s : leadingSpace (trimLeft s) = None.
Proof.
  induction s as [s IH] using string_length_ind.
  rewrite trimLeft_step. destruct (leadingSpace s) as [r|] eqn:E; [|exact E].
  apply IH, (leadingSpace_shorter _ _ E).
Qed.

Lemma trimLeft_id s : leadingSpace s = None -> trimLeft s = s.
Proof. intros H. rewrite trimLeft_step, H. reflexivity. Qed.

Lemma trimLeft_suffix s : exists pre, s = pre +:+ trimLeft s.
Proof.
  induction s as [s IH] using string_length_ind.
  rewrite trimLeft_step. destruct (leadingSpace s) as [r|] eqn:E; [|exists ""; reflexivity].
  destruct (leadingSpace_split s r E) as (e & -> & _).
  destruct (IH r (leadingSpace_shorter _ _ E)) as [pre Hpre].
  exists (e +:+ pre). rewrite append_assoc, <- Hpre. reflexivity.
Qed.

Lemma trimRight_prefix s : exists suf, s = trimRight s +:+ suf.
Proof.
  induction s as [|c r [suf IH]]; [exists ""; reflexivity|].
  cbn [trimRight]. cbv zeta.
  destruct (isSpaceRune (String c (trimRight r))).
  - exists (String c r). reflexivity.
  - exists suf. rewrite append_cons, <- IH. reflexivity.
Qed.

Lemma trimRight_idem s : trimRight (trimRight s) = trimRight s.
Proof.
  induction s as [|c r IH]; [reflexivity|].
  cbn [trimRight]. cbv zeta.
  destruct (isSpaceRune (String c (trimRight r))) eqn:E; [reflexivity|].
  cbn [trimRight]. cbv zeta. rewrite IH, E. reflexivity.
Qed.

Lemma leadingSpace_trimRight s : leadingSpace s = None -> leadingSpace (trimRight s) = None.
Proof.
  intros H. destruct (trimRight_prefix s) as [suf Hs].
  destruct (leadingSpace (trimRight s)) as [r|] eqn:E; [|reflexivity].
  rewrite Hs, (leadingSpace_app _ suf _ E) in H. discriminate.
Qed.

Lemma TrimSpace_idem s : TrimSpace (TrimSpace s) = TrimSpace s.
Proof.
  unfold TrimSpace.
  rewrite (trimLeft_id (trimRight (trimLeft s))).
  - apply trimRight_idem.
  - apply leadingSpace_trimRight, trimLeft_fixed.
Qed.

(** White space at either end does not matter to what is computed from
    the trimmed string. *)
Lemma trimRight_invariant {A} (F : string -> A) :
  (forall e s, isSpaceRune e = true -> F (s +:+ e) = F s) ->
  forall s, F (trimRight s) = F s.
Proof.
  intros HF s. revert F HF. induction s as [|c r IH]; intros F HF; [reflexivity|].
  cbn [trimRight]. cbv zeta.
  assert (Hc : F (String c (trimRight r)) = F (String c r)).
  { apply (IH (fun x => F (String c x))). intros e s He.
    rewrite <- append_cons. apply HF, He. }
  destruct (isSpaceRune (String c (trimRight r))) eqn:E; [|exact Hc].
  rewrite <- Hc. symmetry. apply (HF _ "" E).
Qed.

Lemma trimLeft_invariant {A} (F : string -> A) :
  (forall e s, isSpaceRune e = true -> F (e +:+ s) = F s) ->
  forall s, F (trimLeft s) = F s.
Proof.
  intros HF s. induction s as [s IH] using string_length_ind.
  rewrite trimLeft_step. destruct (leadingSpace s) as [r|] eqn:E; [|reflexivity].
  destruct (leadingSpace_split s r E) as (e & -> & He).
  rewrite (HF e r He). apply IH. rewrite length_append.
  destruct e; [discriminate|]. cbn [String.length]. lia.
Qed.

Lemma TrimSpace_invariant {A} (F : string -> A) :
  (forall e s, isSpaceRune e = true -> F (e +:+ s) = F s) ->
  (forall e s, isSpaceRune e = true -> F (s +:+ e) = F s) ->
  forall s, F (TrimSpace s) = F s.
Proof.
  intros H1 H2 s. unfold TrimSpace.
  rewrite (trimRight_invariant F H2). apply (trimLeft_invariant F H1).
Qed.

Lemma trimRight_spaceRune e : isSpaceRune e = true -> trimRight e = "".
Proof.
  intros He. pose proof He as He'. unfold isSpaceRune in He.
  destruct e as [|c0 [|c1 [|c2 r2]]]; cbn [leadingSpace] in He; try discriminate.
  - cbn [trimRight]. cbv zeta. rewrite He'. reflexivity.
  - destruct (isSpace c0) eqn:E0; [discriminate|].
    destruct (space2 c0 c1) eqn:E1; [|discriminate].
    destruct (space2_cont _ _ E1) as [_ Hc1].
    cbn [trimRight]. cbv zeta.
    assert (H1 : isSpaceRune (String c1 "") = false).
    { unfold isSpaceRune. cbn [leadingSpace].
      destruct (isSpace c1) eqn:E; [|reflexivity].
      apply isSpace_cont in E. congruence. }
    rewrite H1, He'. reflexivity.
  - destruct (isSpace c0) eqn:E0; [discriminate|].
    destruct (space2 c0 c1) eqn:E1; [discriminate|].
    destruct (space3 c0 c1 c2) eqn:E2; [|discriminate].
    destruct r2; [|discriminate].
    destruct (space3_cont _ _ _ E2) as (_ & Hc1 & Hc2).
    cbn [trimRight]. cbv zeta.
    assert (H2 : isSpaceRune (String c2 "") = false).
    { unfold isSpaceRune. cbn [leadingSpace].
      destruct (isSpace c2) eqn:E; [|reflexivity].
      apply isSpace_cont in E. congruence. }
    rewrite H2.
    assert (H1 : isSpaceRune (String c1 (String c2 "")) = false).
    { unfold isSpaceRune. cbn [leadingSpace].
      destruct (isSpace c1) eqn:E; [apply isSpace_cont in E; congruence|].
      destruct (space2 c1 c2) eqn:E'; [|reflexivity].
      apply space2_cont in E' as [E' _]. congruence. }
    rewrite H1, He'. reflexivity.
Qed.

Lemma trimRight_app_space x e : isSpaceRune e = true -> trimRight (x +:+ e) = trimRight x.
Proof.
  intros He. induction x as [|c x IH]; [apply trimRight_spaceRune, He|].
  rewrite append_cons. cbn [trimRight]. rewrite IH. reflexivity.
Qed.

Lemma trimLeft_app_space x e :
  isSpaceRune e = true ->
  trimLeft (x +:+ e) = match trimLeft x with "" => "" | t => t +:+ e end.
Proof.
  intros He. induction x as [x IH] using string_length_ind.
  rewrite (trimLeft_step x). destruct (leadingSpace x) as [r|] eqn:E.
  - rewrite trimLeft_step, (leadingSpace_app _ e _ E).
    apply IH, (leadingSpace_shorter _ _ E).
  - destruct x as [|c x'].
    + rewrite append_nil_l. rewrite trimLeft_step.
      rewrite <- (append_nil_r e) at 1. rewrite (isSpaceRune_leading e "" He). reflexivity.
    + rewrite trimLeft_step, leadingSpace_app_None;
        [reflexivity|discriminate|exact E|apply isSpaceRune_startsRune, He].
Qed.

Lemma TrimSpace_prefix_space e s : isSpaceRune e = true -> TrimSpace (e +:+ s) = TrimSpace s.
Proof.
  intros He. unfold TrimSpace. rewrite trimLeft_step, (isSpaceRune_leading e s He).
  reflexivity.
Qed.

Lemma TrimSpace_suffix_space e s : isSpaceRune e = true -> TrimSpace (s +:+ e) = TrimSpace s.
Proof.
  intros He. unfold TrimSpace. rewrite (trimLeft_app_space s e He).
  destruct (trimLeft s) as [|c t] eqn:E; [reflexivity|].
  apply trimRight_app_space, He.
Qed.

(** ** Runes *)

Lemma second3_false c0 c1 : isCont c1 = false -> second3 c0 c1 = false.
Proof.
  unfold second3, isCont, inRange. cbv zeta. intros H.
  apply andb_false_iff in H.
  repeat case_match; apply andb_false_iff;
    destruct H as [H|H]; apply N.leb_gt in H; [left|right|left|right|left|right];
    apply N.leb_gt; lia.
Qed.

Lemma second4_false c0 c1 : isCont c1 = false -> second4 c0 c1 = false.
Proof.
  unfold second4, isCont, inRange. cbv zeta. intros H.
  apply andb_false_iff in H.
  repeat case_match; apply andb_false_iff;
    destruct H as [H|H]; apply N.leb_gt in H; [left|right|left|right|left|right];
    apply N.leb_gt; lia.
Qed.

Lemma decodeMulti_shorter c0 r0 r rest :
  decodeMulti c0 r0 = Some (r, rest) -> (String.length rest < String.length r0)%nat.
Proof.
  unfold decodeMulti.
  destruct r0 as [|c1 [|c2 [|c3 r3]]];
    repeat (case_match; try discriminate);
    intros [= <- <-]; cbn [String.length]; lia.
Qed.

Lemma decodeRune_shorter s r rest :
  decodeRune s = Some (r, rest) -> (String.length rest < String.length s)%nat.
Proof.
  destruct s as [|c0 r0]; [discriminate|]. cbn [decodeRune String.length].
  destruct (N_of_ascii c0 <? 128)%N; [intros [= <- <-]; lia|].
  destruct (decodeMulti c0 r0) as [[r' rest']|] eqn:E.
  - intros [= <- <-]. apply decodeMulti_shorter in E. lia.
  - intros [= <- <-]. lia.
Qed.

Lemma decodeMulti_app c0 r0 b r rest :
  decodeMulti c0 r0 = Some (r, rest) ->
  decodeMulti c0 (r0 +:+ b) = Some (r, rest +:+ b).
Proof.
  unfold decodeMulti.
  destruct r0 as [|c1 [|c2 [|c3 r3]]]; rewrite ?append_cons;
    repeat (case_match; try discriminate);
    intros [= <- <-]; reflexivity.
Qed.

Lemma decodeMulti_app_None c0 r0 b :
  decodeMulti c0 r0 = None -> startsRune b = true ->
  decodeMulti c0 (r0 +:+ b) = None.
Proof.
  intros H Hb.
  assert (Hb0 : forall c t, b = String c t -> isCont c = false).
  { intros c t ->. apply negb_true_iff in Hb. exact Hb. }
  unfold decodeMulti in *.
  destruct (inRange 194 223 c0).
  { destruct r0 as [|c1 r1]; rewrite ?append_cons, ?append_nil_l.
    - destruct b as [|b0 b']; [reflexivity|]. rewrite (Hb0 _ _ eq_refl). reflexivity.
    - destruct (isCont c1); [discriminate|reflexivity]. }
  destruct (inRange 224 239 c0).
  { destruct r0 as [|c1 [|c2 r2]]; rewrite ?append_cons, ?append_nil_l.
    - destruct b as [|b0 [|b1 b']]; [reflexivity|reflexivity|].
      rewrite (second3_false c0 b0 (Hb0 _ _ eq_refl)). reflexivity.
    - destruct b as [|b0 b']; [reflexivity|].
      rewrite (Hb0 _ _ eq_refl), andb_false_r. reflexivity.
    - destruct (second3 c0 c1 && isCont c2); [discriminate|reflexivity]. }
  destruct (inRange 240 244 c0); [|reflexivity].
  destruct r0 as [|c1 [|c2 [|c3 r3]]]; rewrite ?append_cons, ?append_nil_l.
  - destruct b as [|b0 [|b1 [|b2 b']]]; [reflexivity|reflexivity|reflexivity|].
    rewrite (second4_false c0 b0 (Hb0 _ _ eq_refl)). reflexivity.
  - destruct b as [|b0 [|b1 b']]; [reflexivity|reflexivity|].
    rewrite (Hb0 _ _ eq_refl), andb_false_r. reflexivity.
  - destruct b as [|b0 b']; [reflexivity|].
    rewrite (Hb0 _ _ eq_refl), andb_false_r. reflexivity.
  - destruct (second4 c0 c1 && isCont c2 && isCont c3); [discriminate|reflexivity].
Qed.

(** The first rune of a string does not depend on what follows the string,
    when a rune starts there. *)
Lemma decodeRune_app a b r rest :
  decodeRune a = Some (r, rest) -> startsRune b = true ->
  decodeRune (a +:+ b) = Some (r, rest +:+ b).
Proof.
  destruct a as [|c0 r0]; [discriminate|]. rewrite append_cons. cbn [decodeRune].
  destruct (N_of_ascii c0 <? 128)%N; [intros [= <- <-]; reflexivity|].
  destruct (decodeMulti c0 r0) as [[r' rest']|] eqn:E.
  - intros [= <- <-] _. rewrite (decodeMulti_app _ _ b _ _ E). reflexivity.
  - intros [= <- <-] Hb. rewrite (decodeMulti_app_None _ _ b E Hb). reflexivity.
Qed.

Lemma decodeRune_cons c s : decodeRune (String c s) <> None.
Proof. cbn [decodeRune]. repeat case_match; discriminate. Qed.

Lemma mapRunes_fuel f n m s :
  (String.length s <= n)%nat -> (String.length s <= m)%nat ->
  mapRunes f n s = mapRunes f m s.
Proof.
  revert m s. induction n as [|n IH]; intros m s Hn Hm.
  - destruct s; [|cbn in Hn; lia]. destruct m; reflexivity.
  - destruct m as [|m].
    + destruct s; [reflexivity|cbn in Hm; lia].
    + cbn [mapRunes]. destruct (decodeRune s) as [[r rest]|] eqn:E; [|reflexivity].
      apply decodeRune_shorter in E. rewrite (IH m rest) by lia. reflexivity.
Qed.

Lemma Map_step f s :
  Map f s =
  match decodeRune s with
  | None => ""
  | Some (r, rest) => (if f r <? 0 then "" else encodeRune (f r)) +:+ Map f rest
  end.
Proof.
  unfold Map. destruct s as [|c s']; [reflexivity|].
  cbn [String.length mapRunes].
  destruct (decodeRune (String c s')) as [[r rest]|] eqn:E; [|reflexivity].
  apply decodeRune_shorter in E. cbn [String.length] in E.
  rewrite (mapRunes_fuel f (String.length s') (String.length rest) rest) by lia.
  reflexivity.
Qed.

Lemma Map_app f a b :
  startsRune b = true -> Map f (a +:+ b) = Map f a +:+ Map f b.
Proof.
  intros Hb. induction a as [a IH] using string_length_ind.
  destruct a as [|c a']; [reflexivity|].
  rewrite (Map_step f (String c a')).
  destruct (decodeRune (String c a')) as [[r rest]|] eqn:E;
    [|destruct (decodeRune_cons _ _ E)].
  rewrite Map_step, (decodeRune_app _ b _ _ E Hb).
  rewrite (IH rest (decodeRune_shorter _ _ _ E)), append_assoc. reflexivity.
Qed.

(** ** Encoding and decoding *)

Lemma N_of_ascii_byteOf n : 0 <= n < 256 -> N_of_ascii (byteOf n) = Z.to_N n.
Proof. intros H. unfold byteOf. apply N_ascii_embedding. lia. Qed.

Lemma byteZ_byteOf n : 0 <= n < 256 -> byteZ (byteOf n) = n.
Proof. intros H. unfold byteZ. rewrite N_of_ascii_byteOf by exact H. lia. Qed.

Lemma inRange_byteOf lo hi n :
  0 <= n < 256 ->
  inRange lo hi (byteOf n) = (Z.of_N lo <=? n) && (n <=? Z.of_N hi).
Proof.
  intros H. unfold inRange. cbv zeta. rewrite N_of_ascii_byteOf by exact H.
  destruct (Z.leb_spec (Z.of_N lo) n), (Z.leb_spec n (Z.of_N hi)),
    (N.leb_spec lo (Z.to_N n)), (N.leb_spec (Z.to_N n) hi); try reflexivity; lia.
Qed.

Lemma isCont_byteOf n :
  0 <= n < 256 -> isCont (byteOf n) = (128 <=? n) && (n <=? 191).
Proof. intros H. apply (inRange_byteOf 128 191 n H). Qed.

Lemma eqb_byteOf n k :
  0 <= n < 256 -> (N_of_ascii (byteOf n) =? k)%N = (n =? Z.of_N k).
Proof.
  intros H. rewrite N_of_ascii_byteOf by exact H.
  destruct (N.eqb_spec (Z.to_N n) k), (Z.eqb_spec n (Z.of_N k)); try reflexivity; lia.
Qed.

Lemma ltb_byteOf n k :
  0 <= n < 256 -> (N_of_ascii (byteOf n) <? k)%N = (n <? Z.of_N k).
Proof.
  intros H. rewrite N_of_ascii_byteOf by exact H.
  destruct (N.ltb_spec (Z.to_N n) k), (Z.ltb_spec n (Z.of_N k)); try reflexivity; lia.
Qed.

(** The digits of a rune to the base 64. *)
Lemma rune_digits r :
  0 <= r ->
  0 <= r mod 64 < 64 /\ 0 <= (r / 64) mod 64 < 64 /\ 0 <= (r / 4096) mod 64 < 64
  /\ r = 64 * (r / 64) + r mod 64
  /\ r = 4096 * (r / 4096) + 64 * ((r / 64) mod 64) + r mod 64
  /\ r = 262144 * (r / 262144) + 4096 * ((r / 4096) mod 64)
         + 64 * ((r / 64) mod 64) + r mod 64
  /\ 0 <= r / 64 /\ 0 <= r / 4096 /\ 0 <= r / 262144.
Proof. intros H. Z.to_euclidean_division_equations. lia. Qed.

Ltac decide_Z :=
  repeat match goal with
         | |- context [?a <=? ?b] =>
             first [rewrite (proj2 (Z.leb_le a b)) by lia
                   |rewrite (proj2 (Z.leb_gt a b)) by lia]
         | |- context [?a <? ?b] =>
             first [rewrite (proj2 (Z.ltb_lt a b)) by lia
                   |rewrite (proj2 (Z.ltb_ge a b)) by lia]
         | |- context [?a =? ?b] =>
             first [rewrite (proj2 (Z.eqb_eq a b)) by lia
                   |rewrite (proj2 (Z.eqb_neq a b)) by lia]
         end.

Ltac bytes_to_Z :=
  cbn [decodeRune]; unfold decodeMulti, second3, second4;
  rewrite ?ltb_byteOf, ?eqb_byteOf, ?inRange_byteOf, ?isCont_byteOf, ?byteZ_byteOf by lia;
  cbn [Z.of_N].

Lemma decode_encode r t :
  validRune r = true -> decodeRune (encodeRune r +:+ t) = Some (r, t).
Proof.
  unfold validRune, MaxRune. intros Hv.
  apply andb_true_iff in Hv as [Hv Hs]. apply andb_true_iff in Hv as [H0 H1].
  apply Z.leb_le in H0, H1. apply negb_true_iff, andb_false_iff in Hs.
  assert (Hsur : r < 55296 \/ 57343 < r).
  { destruct Hs as [Hs|Hs]; apply Z.leb_gt in Hs; lia. }
  clear Hs. unfold encodeRune, encode3, MaxRune.
  destruct (rune_digits r H0) as (D0 & D1 & D2 & E1 & E2 & E3 & Q1 & Q2 & Q3).
  set (d0 := r mod 64) in *. set (d1 := (r / 64) mod 64) in *.
  set (d2 := (r / 4096) mod 64) in *.
  set (q1 := r / 64) in *. set (q2 := r / 4096) in *. set (q3 := r / 262144) in *.
  clearbody d0 d1 d2 q1 q2 q3.
  destruct (Z.leb_spec r 127) as [Ha|Ha].
  { decide_Z. cbv beta iota delta [andb orb negb]. rewrite append_cons, append_nil_l.
    bytes_to_Z. decide_Z. reflexivity. }
  destruct (Z.leb_spec r 2047) as [Hb|Hb].
  { decide_Z. cbv beta iota delta [andb orb negb]. rewrite !append_cons, append_nil_l.
    bytes_to_Z. decide_Z. cbv beta iota delta [andb orb negb]. f_equal. f_equal. lia. }
  destruct (Z.leb_spec r 65535) as [Hd|Hd].
  { destruct Hsur as [Hsur|Hsur];
      decide_Z; cbv beta iota delta [andb orb negb];
      rewrite !append_cons, append_nil_l; bytes_to_Z;
    (destruct (Z.eqb_spec (224 + q2) 224) as [E|E];
      [|destruct (Z.eqb_spec (224 + q2) 237) as [E'|E']];
      decide_Z; cbv beta iota delta [andb orb negb]; f_equal; f_equal; lia). }
  decide_Z. cbv beta iota delta [andb orb negb].
  rewrite !append_cons, append_nil_l. bytes_to_Z.
  destruct (Z.eqb_spec (240 + q3) 240) as [E|E];
    [|destruct (Z.eqb_spec (240 + q3) 244) as [E'|E']];
    decide_Z; cbv beta iota delta [andb orb negb]; f_equal; f_equal; lia.
Qed.

Ltac bool_to_N :=
  repeat match goal with
         | H : (_ && _)%bool = true |- _ => apply andb_true_iff in H as [? ?]
         | H : (_ || _)%bool = true |- _ => apply orb_true_iff in H
         | H : (_ <=? _)%N = true |- _ => apply N.leb_le in H
         | H : (_ <? _)%N = true |- _ => apply N.ltb_lt in H
         | H : (_ <? _)%N = false |- _ => apply N.ltb_ge in H
         | H : (_ =? _)%N = true |- _ => apply N.eqb_eq in H
         | H : (_ =? _)%N = false |- _ => apply N.eqb_neq in H
         | H : (_ <=? _)%N = false |- _ => apply N.leb_gt in H
         end.

Lemma validRune_intro r :
  0 <= r <= 1114111 -> (r < 55296 \/ 57343 < r) -> validRune r = true.
Proof.
  intros H1 H2. unfold validRune, MaxRune.
  destruct (Z.leb_spec 0 r); [|lia]. destruct (Z.leb_spec r 1114111); [|lia].
  destruct (Z.leb_spec 55296 r); [|reflexivity].
  destruct (Z.leb_spec r 57343); [lia|reflexivity].
Qed.

(** The runes of a string are Unicode scalar values. *)
Lemma decodeRune_valid s r rest : decodeRune s = Some (r, rest) -> validRune r = true.
Proof.
  destruct s as [|c0 r0]; [discriminate|]. cbn [decodeRune].
  destruct (N_of_ascii c0 <? 128)%N eqn:E0.
  { intros [= <- <-]. bool_to_N. unfold byteZ. apply validRune_intro; lia. }
  destruct (decodeMulti c0 r0) as [[r' rest']|] eqn:E; [|intros [= <- <-]; reflexivity].
  intros [= <- <-]. revert E. unfold decodeMulti, second3, second4, inRange, isCont, byteZ.
  cbv zeta.
  repeat (case_match; try discriminate); intros [= <- <-];
    bool_to_N; apply validRune_intro; lia.
Qed.

(** ** Letter case *)

Lemma runesFrom_In lo hi r : lo <= r <= hi -> In r (runesFrom lo hi).
Proof.
  intros H. unfold runesFrom. apply in_map_iff. exists (Z.to_nat (r - lo)).
  split; [lia|]. apply in_seq. lia.
Qed.

Lemma toLowerIn_cases ranges r :
  toLowerIn ranges r = r
  \/ exists lo hi delta, In (lo, hi, delta) ranges /\ lo <= r <= hi.
Proof.
  induction ranges as [|[[lo hi] delta] rest IH]; [left; reflexivity|].
  cbn [toLowerIn].
  destruct (Z.leb_spec lo r); [destruct (Z.leb_spec r hi)|]; cbn [andb].
  - right. exists lo, hi, delta. split; [left; reflexivity|lia].
  - destruct IH as [IH|(lo' & hi' & d' & Hin & Hr)]; [left; exact IH|].
    right. exists lo', hi', d'. split; [right; exact Hin|exact Hr].
  - destruct IH as [IH|(lo' & hi' & d' & Hin & Hr)]; [left; exact IH|].
    right. exists lo', hi', d'. split; [right; exact Hin|exact Hr].
Qed.

Lemma lowerCaseRanges_ok :
  forallb (fun '(lo, hi, _) => forallb lowerOk (runesFrom lo hi)) lowerCaseRanges = true.
Proof. vm_compute. reflexivity. Qed.

Lemma ToLowerRune_ok r : validRune r = true -> lowerOk r = true.
Proof.
  intros Hv. unfold lowerOk.
  destruct (Z.leb_spec r 127) as [Ha|Ha].
  - unfold ToLowerRune at 1 3. rewrite (proj2 (Z.leb_le r 127) Ha).
    unfold validRune, MaxRune in Hv.
    apply andb_true_iff in Hv as [Hv _]. apply andb_true_iff in Hv as [H0 _].
    apply Z.leb_le in H0.
    destruct (Z.leb_spec 65 r); [destruct (Z.leb_spec r 90)|]; cbn [andb].
    all: unfold ToLowerRune; decide_Z; cbv beta iota delta [andb]; decide_Z;
      rewrite ?Z.eqb_refl; rewrite validRune_intro by lia; reflexivity.
  - assert (Hr : ToLowerRune r = toLowerIn lowerCaseRanges r).
    { unfold ToLowerRune. rewrite (proj2 (Z.leb_gt r 127)) by lia. reflexivity. }
    destruct (toLowerIn_cases lowerCaseRanges r) as [Hid|(lo & hi & d & Hin & Hlohi)].
    + rewrite Hr, Hid, Hr, Hid, Hv, Z.eqb_refl. reflexivity.
    + pose proof lowerCaseRanges_ok as Hall.
      rewrite forallb_forall in Hall. specialize (Hall _ Hin). cbn beta iota in Hall.
      rewrite forallb_forall in Hall. apply (Hall r), runesFrom_In, Hlohi.
Qed.

Lemma ToLowerRune_valid r : validRune r = true -> validRune (ToLowerRune r) = true.
Proof.
  intros H. apply ToLowerRune_ok, andb_true_iff in H as [H _]. exact H.
Qed.

Lemma ToLowerRune_idem r :
  validRune r = true -> ToLowerRune (ToLowerRune r) = ToLowerRune r.
Proof.
  intros H. apply ToLowerRune_ok, andb_true_iff in H as [_ H].
  apply Z.eqb_eq, H.
Qed.

Lemma validRune_nonneg r : validRune r = true -> (r <? 0) = false.
Proof.
  unfold validRune. intros H.
  apply andb_true_iff in H as [H _]. apply andb_true_iff in H as [H _].
  apply Z.leb_le in H. apply Z.ltb_ge. exact H.
Qed.

(** The lower-case form of a string, rune by rune. *)
Lemma ToLower_step s :
  ToLower s =
  match decodeRune s with
  | None => ""
  | Some (r, rest) => encodeRune (ToLowerRune r) +:+ ToLower rest
  end.
Proof.
  unfold ToLower. rewrite Map_step.
  destruct (decodeRune s) as [[r rest]|] eqn:E; [|reflexivity].
  rewrite (validRune_nonneg _ (ToLowerRune_valid _ (decodeRune_valid _ _ _ E))).
  reflexivity.
Qed.

Lemma ToLower_idem s : ToLower (ToLower s) = ToLower s.
Proof.
  induction s as [s IH] using string_length_ind.
  rewrite (ToLower_step s).
  destruct (decodeRune s) as [[r rest]|] eqn:E; [|reflexivity].
  pose proof (ToLowerRune_valid _ (decodeRune_valid _ _ _ E)) as Hv.
  rewrite ToLower_step, (decode_encode _ _ Hv).
  rewrite (IH rest (decodeRune_shorter _ _ _ E)).
  pose proof (ToLowerRune_ok r (decodeRune_valid _ _ _ E)) as Hok.
  apply andb_true_iff in Hok as [_ Hok]. apply Z.eqb_eq in Hok. rewrite Hok.
  reflexivity.
Qed.

(** ** White space and letter case *)

Lemma ascii_by_N c n : N_of_ascii c = n -> c = ascii_of_N n.
Proof. intros <-. symmetry. apply ascii_N_embedding. Qed.

Ltac in_list := repeat (first [left; reflexivity | right]); fail.

Lemma isSpaceRune_cases e : isSpaceRune e = true -> In e spaceRunes.
Proof.
  unfold isSpaceRune.
  destruct e as [|c0 [|c1 [|c2 r2]]]; cbn [leadingSpace]; try discriminate.
  - destruct (isSpace c0) eqn:E0; [|discriminate]. intros _.
    destruct c0 as [[] [] [] [] [] [] [] []]; try discriminate E0; vm_compute; in_list.
  - destruct (isSpace c0) eqn:E0; [discriminate|].
    destruct (space2 c0 c1) eqn:E1; [|discriminate]. intros _.
    unfold space2 in E1. cbv zeta in E1.
    apply andb_true_iff in E1 as [H0 H1]. apply N.eqb_eq, ascii_by_N in H0. subst c0.
    apply orb_true_iff in H1 as [H1|H1]; apply N.eqb_eq, ascii_by_N in H1; subst c1;
      vm_compute; in_list.
  - destruct (isSpace c0) eqn:E0; [discriminate|].
    destruct (space2 c0 c1) eqn:E1; [discriminate|].
    destruct (space3 c0 c1 c2) eqn:E2; [|discriminate].
    destruct r2; [|discriminate]. intros _. clear E0 E1.
    unfold space3 in E2. cbv zeta in E2.
    repeat match type of E2 with
           | (_ || _)%bool = true => apply orb_true_iff in E2 as [E2|E2]
           end;
      repeat match goal with
             | H : (_ && _)%bool = true |- _ => apply andb_true_iff in H as [? ?]
             | H : (_ || _)%bool = true |- _ => apply orb_true_iff in H as [H|H]
             | H : (_ =? _)%N = true |- _ => apply N.eqb_eq, ascii_by_N in H; subst
             end;
      try (vm_compute; in_list).
    match goal with
    | H1 : (128 <=? ?n)%N = true, H2 : (?n <=? 138)%N = true |- _ =>
        apply N.leb_le in H1, H2;
        assert (Hn : In n [128; 129; 130; 131; 132; 133; 134; 135; 136; 137; 138]%N)
          by (cbn [In]; lia)
    end.
    cbn [In] in Hn.
    repeat destruct Hn as [Hn|Hn]; try contradiction;
      symmetry in Hn; apply ascii_by_N in Hn; subst c2; vm_compute; in_list.
Qed.

Lemma ToLower_space_prefix e s : isSpaceRune e = true -> ToLower (e +:+ s) = e +:+ ToLower s.
Proof.
  intros He. apply isSpaceRune_cases in He. unfold spaceRunes in He.
  cbn [map app In] in He.
  repeat destruct He as [<-|He]; try contradiction;
    rewrite ToLower_step; reflexivity.
Qed.

Lemma ToLower_space_suffix e s : isSpaceRune e = true -> ToLower (s +:+ e) = ToLower s +:+ e.
Proof.
  intros He. unfold ToLower.
  rewrite (Map_app _ s e (isSpaceRune_startsRune e He)). f_equal.
  pose proof (ToLower_space_prefix e "" He) as H.
  rewrite append_nil_r in H. unfold ToLower in H. rewrite H.
  apply append_nil_r.
Qed.

Ltac units :=
  change Hour with 3600000000000 in *; change Minute with 60000000000 in *;
  change Second with 1000000000 in *.

Lemma Round_Second_sign d :
  (0 < d -> 0 <= Round d Second) /\ (d < 0 -> Round d Second <= 0).
Proof.
  unfold Round, Second, minInt64, maxInt64.
  split; intros Hd.
  - repeat case_match; Z.to_euclidean_division_equations; lia.
  - repeat case_match; Z.to_euclidean_division_equations; lia.
Qed.

Lemma Round_Second_small d : 0 < d -> d < 500000000 -> Round d Second = 0.
Proof.
  intros H1 H2. unfold Round, Second, minInt64, maxInt64.
  repeat case_match; Z.to_euclidean_division_equations; lia.
Qed.

Lemma DurationToHuman_of_rounded d :
  d <> 0 ->
  let D := Round d Second in
  DurationToHuman d =
    unitPart (Z.quot (Z.quot D Hour) 24) "d"
    +:+ unitPart (Z.quot (D - Z.quot (Z.quot D Hour) 24 * Hour * 24) Hour) "h"
    +:+ unitPart (Z.quot (D - Z.quot (Z.quot D Hour) 24 * Hour * 24
                     - Z.quot (D - Z.quot (Z.quot D Hour) 24 * Hour * 24) Hour * Hour) Minute) "m"
    +:+ unitPart (Z.quot (D - Z.quot (Z.quot D Hour) 24 * Hour * 24
                     - Z.quot (D - Z.quot (Z.quot D Hour) 24 * Hour * 24) Hour * Hour
                     - Z.quot (D - Z.quot (Z.quot D Hour) 24 * Hour * 24
                     - Z.quot (D - Z.quot (Z.quot D Hour) 24 * Hour * 24) Hour * Hour) Minute * Minute) Second) "s".
Proof.
  intros Hd D. unfold DurationToHuman.
  destruct (Z.eqb_spec d 0) as [|_]; [contradiction|].
  fold D. cbv zeta. unfold unitPart.
  repeat match goal with |- context [if ?b then _ else _] => destruct b end;
    cbn [append]; rewrite ?append_assoc, ?append_nil_r; reflexivity.
Qed.

(** X1.  A positive duration is rendered, after rounding to the second
    (half a second and more is rounded up), as its days, hours, minutes and
    seconds, each followed by its unit letter, largest first, a unit that is
    zero being left out; the hours are below 24, the minutes and seconds
    below 60. *)
Theorem DurationToHuman_parts d :
  0 < d ->
  let s := roundedSeconds d in
  DurationToHuman d =
    unitPart (s / 86400) "d" +:+ unitPart ((s / 3600) mod 24) "h"
    +:+ unitPart ((s / 60) mod 60) "m" +:+ unitPart (s mod 60) "s".
Proof.
  intros Hd s. rewrite DurationToHuman_of_rounded by lia. cbv zeta.
  unfold s, roundedSeconds.
  pose proof (proj1 (Round_Second_sign d) Hd) as HD.
  generalize dependent (Round d Second). intros D HD.
  assert (E1 : Z.quot (Z.quot D Hour) 24 = D / Second / 86400).
  { units. Z.to_euclidean_division_equations. lia. }
  rewrite E1.
  assert (E2 : Z.quot (D - D / Second / 86400 * Hour * 24) Hour = (D / Second / 3600) mod 24).
  { units. Z.to_euclidean_division_equations. lia. }
  rewrite E2.
  assert (E3 : Z.quot (D - D / Second / 86400 * Hour * 24 - (D / Second / 3600) mod 24 * Hour) Minute
               = (D / Second / 60) mod 60).
  { units. Z.to_euclidean_division_equations. lia. }
  rewrite E3.
  assert (E4 : Z.quot (D - D / Second / 86400 * Hour * 24 - (D / Second / 3600) mod 24 * Hour
                       - (D / Second / 60) mod 60 * Minute) Second
               = (D / Second) mod 60).
  { units. Z.to_euclidean_division_equations. lia. }
  rewrite E4. reflexivity.
Qed.

Lemma DurationToHuman_small d :
  d <> 0 -> d < 500000000 -> DurationToHuman d = "".
Proof.
  intros Hd Hs. rewrite DurationToHuman_of_rounded by exact Hd. cbv zeta.
  assert (HD : Round d Second <= 0).
  { destruct (Z.lt_ge_cases d 0) as [Hn|Hp].
    - apply Round_Second_sign; exact Hn.
    - rewrite Round_Second_small by lia. lia. }
  generalize dependent (Round d Second). intros D HD.
  unfold unitPart.
  repeat match goal with |- context [if ?b >? 0 then _ else _] =>
    let E := fresh in destruct (Z.gtb_spec b 0) as [E|E];
    [exfalso; revert E; units; Z.to_euclidean_division_equations; lia|] end.
  reflexivity.
Qed.

Lemma Round_Second_large d : 500000000 <= d -> Second <= Round d Second.
Proof.
  intros H. unfold Round, minInt64, maxInt64. units.
  repeat case_match; Z.to_euclidean_division_equations; lia.
Qed.

Lemma append_empty (a b : string) : a +:+ b = "" -> a = "" /\ b = "".
Proof. destruct a; [auto|discriminate]. Qed.

Lemma unitPart_empty n (unit : string) : unit <> "" -> unitPart n unit = "" -> n <= 0.
Proof.
  intros Hu. unfold unitPart. destruct (Z.gtb_spec n 0) as [Hn|Hn]; [|lia].
  intros H. apply append_empty in H as [_ H]. contradiction.
Qed.

(** X2.  Only the duration zero is rendered as [0].  Every negative
    duration, and every positive one below half a second, is rendered as
    the empty string; every duration from half a second on is rendered as
    a text that is not empty. *)
Theorem DurationToHuman_blank :
  DurationToHuman 0 = "0"
  /\ (forall d, d <> 0 -> d < 500000000 -> DurationToHuman d = "")
  /\ (forall d, 500000000 <= d -> DurationToHuman d <> "").
Proof.
  split; [reflexivity|]. split; [exact DurationToHuman_small|].
  intros d Hd Hblank.
  pose proof (Round_Second_large d Hd) as HD.
  rewrite DurationToHuman_of_rounded in Hblank by lia. cbv zeta in Hblank.
  generalize dependent (Round d Second). intros D Hblank HD.
  apply append_empty in Hblank as [H1 Hblank].
  apply append_empty in Hblank as [H2 Hblank].
  apply append_empty in Hblank as [H3 H4].
  apply unitPart_empty in H1, H2, H3, H4; try discriminate.
  revert H1 H2 H3 H4 HD. units. Z.to_euclidean_division_equations. lia.
Qed.

(** X3.  [ParsePriority] does not depend on the case of the letters nor
    on white space around the name, and a priority it accepts is between 0
    and 5. *)
Theorem ParsePriority_normalises (p : string) :
  ParsePriority (TrimSpace p) = ParsePriority p
  /\ ParsePriority (ToLower p) = ParsePriority p
  /\ forall n, ParsePriority p = inr n -> 0 <= n <= 5.
Proof.
  split; [|split].
  - unfold ParsePriority.
    rewrite (TrimSpace_invariant (fun s => TrimSpace (ToLower s))); [reflexivity| |].
    + intros e s He. rewrite (ToLower_space_prefix e s He).
      apply TrimSpace_prefix_space, He.
    + intros e s He. rewrite (ToLower_space_suffix e s He).
      apply TrimSpace_suffix_space, He.
  - unfold ParsePriority. rewrite ToLower_idem. reflexivity.
  - intros n. apply ParsePriority_range.
Qed.

Lemma firstValue_Some get names v :
  firstValue get names = Some v -> v <> "" /\ exists n, In n names /\ get n = v.
Proof.
  induction names as [|n rest IH]; simpl; [discriminate|].
  destruct (String.eqb (get n) "") eqn:E; simpl.
  - intros H. destruct (IH H) as [Hv [m [Hm Hg]]]. split; [exact Hv|]. exists m. auto.
  - intros [= <-]. apply String.eqb_neq in E. split; [exact E|]. exists n. auto.
Qed.

Lemma firstValue_is_Some get names n :
  In n names -> get n <> "" -> exists v, firstValue get names = Some v.
Proof.
  induction names as [|m rest IH]; simpl; [contradiction|].
  intros Hin Hn. destruct (String.eqb (get m) "") eqn:E; simpl; [|eauto].
  destruct Hin as [->|Hin]; [|auto].
  apply String.eqb_eq in E. contradiction.
Qed.

Lemma readParam_TrimSpace r names : TrimSpace (readParam r names) = readParam r names.
Proof.
  unfold readParam. repeat case_match; try apply TrimSpace_idem. reflexivity.
Qed.

Lemma firstValue_None get names :
  (forall n, In n names -> get n = "") -> firstValue get names = None.
Proof.
  induction names as [|n rest IH]; intros H; [reflexivity|].
  cbn [firstValue]. rewrite (H n (or_introl eq_refl)). cbn. apply IH.
  intros m Hm. apply H. right. exact Hm.
Qed.

Lemma readParam_ignores_query r names n q :
  In n names -> Header_Get (Header r) n <> "" ->
  readParam (withQuery r q) names = readParam r names.
Proof.
  intros Hin Hn. unfold readParam. cbn [withQuery Header].
  destruct (firstValue_is_Some (Header_Get (Header r)) names n Hin Hn) as [v ->].
  reflexivity.
Qed.

(** X4.  A parameter is read without the white space around it.  As soon
    as one of its names has a non-empty header, the query string is not
    looked at, even if that header is blank and the parameter reads as
    empty; it is empty too when no name has a header or a query value. *)
Theorem readParam_precedence (r : Request) (names : list string) :
  TrimSpace (readParam r names) = readParam r names
  /\ (forall n q, In n names -> Header_Get (Header r) n <> "" ->
        readParam (withQuery r q) names = readParam r names)
  /\ ((forall n, In n names ->
         Header_Get (Header r) n = "" /\ Query_Get (Query r) (ToLower n) = "") ->
      readParam r names = "").
Proof.
  split; [apply readParam_TrimSpace|].
  split; [intros n q; apply readParam_ignores_query|].
  intros H. unfold readParam.
  rewrite (firstValue_None (Header_Get (Header r)) names) by (intros n Hn; apply H, Hn).
  rewrite (firstValue_None (fun name => Query_Get (Query r) (ToLower name)) names)
    by (intros n Hn; apply H, Hn).
  reflexivity.
Qed.

(** ** Strings *)

Lemma substring_0_0 s : substring 0 0 s = "".
Proof. destruct s; reflexivity. Qed.

Lemma substring_0_length s : substring 0 (String.length s) s = s.
Proof. induction s as [|c s IH]; simpl; [reflexivity|]. rewrite IH. reflexivity. Qed.

Lemma substring_split (n : nat) s :
  (n <= String.length s)%nat ->
  s = substring 0 n s +:+ substring n (String.length s - n) s.
Proof.
  revert s. induction n as [|n IH]; intros s Hn.
  - rewrite substring_0_0, Nat.sub_0_r, substring_0_length. reflexivity.
  - destruct s as [|c s]; simpl in Hn; [lia|].
    simpl. rewrite append_cons. f_equal. apply IH. lia.
Qed.

Lemma hasSuffix_split suffix s :
  hasSuffix suffix s = true ->
  s = substring 0 (String.length s - String.length suffix) s +:+ suffix.
Proof.
  unfold hasSuffix. intros H. apply andb_true_iff in H as [Hk He].
  apply Nat.leb_le in Hk. apply String.eqb_eq in He.
  rewrite (substring_split (String.length s - String.length suffix) s) at 1 by lia.
  replace (String.length s - (String.length s - String.length suffix))%nat
    with (String.length suffix) by lia.
  rewrite He. reflexivity.
Qed.

Lemma hasPrefix_slash path :
  hasPrefix "/" path = true -> exists rest, path = String "/" rest.
Proof.
  unfold hasPrefix. destruct path as [|c rest]; simpl; [discriminate|].
  rewrite substring_0_0. simpl.
  destruct (Ascii.eqb_spec c "/"%char) as [->|]; [eauto|discriminate].
Qed.


Lemma Split_nonempty sep s : Split sep s <> [].
Proof.
  induction s as [|c s IH]; simpl; [discriminate|].
  destruct (Ascii.eqb c sep); [discriminate|].
  destruct (Split sep s); discriminate.
Qed.







Lemma topicsPath_split suffix path :
  topicsPathRegex suffix path = true ->
  exists ids, path = String "/" (ids +:+ suffix)
    /\ forallb topicRegex (Split "," ids) = true.
Proof.
  unfold topicsPathRegex. intros H.
  apply andb_true_iff in H as [H Hids]. apply andb_true_iff in H as [H Hlen].
  apply andb_true_iff in H as [Hpre Hsuf].
  apply Nat.leb_le in Hlen.
  destruct (hasPrefix_slash _ Hpre) as [rest ->].
  pose proof (hasSuffix_split _ _ Hsuf) as Hsplit.
  simpl String.length in *.
  replace (S (String.length rest) - String.length suffix)%nat
    with (S (String.length rest - String.length suffix)) in Hsplit by lia.
  simpl in Hsplit. rewrite append_cons in Hsplit. injection Hsplit as Hrest.
  replace (S (String.length rest) - 1 - String.length suffix)%nat
    with (String.length rest - String.length suffix)%nat in Hids by lia.
  simpl in Hids.
  exists (substring 0 (String.length rest - String.length suffix) rest).
  split; [f_equal; exact Hrest|exact Hids].
Qed.

(** ** Routing *)






(** ** The topic registry *)

Section Registry.
Context {C : Type} {cacheC : cache C} {ext : External}.

Lemma topicsFromIDs_loop_step id rest acc (w : World C) :
  topicsFromIDs_loop (id :: rest) acc w =
  if InStringList disallowedTopics id
  then (inl (errorHTTP errHTTPBadRequestTopicDisallowed), w)
  else match topics (srv w) !! id with
       | Some t => topicsFromIDs_loop rest (acc ++ [t]) w
       | None =>
           if Z.of_nat (size (topics (srv w))) >=? TotalTopicLimit (config (srv w))
           then (inl (errorHTTP errHTTPTooManyRequestsLimitTotalTopics), w)
           else topicsFromIDs_loop rest (acc ++ [newTopic id])
                  (mkWorld (setTopics (srv w) (<[id := newTopic id]> (topics (srv w))))
                           (events w))
       end.
Proof.
  cbn [topicsFromIDs_loop].
  destruct (InStringList disallowedTopics id); [reflexivity|].
  unfold mbind, M_bind, getServer. cbn [srv].
  destruct (topics (srv w) !! id); [reflexivity|].
  destruct (_ >=? _); reflexivity.
Qed.

Lemma topicsFromIDs_loop_spec ids acc (w : World C) :
  let r := topicsFromIDs_loop ids acc w in
  topics (srv w) ⊆ topics (srv (snd r))
  /\ config (srv (snd r)) = config (srv w)
  /\ Z.of_nat (size (topics (srv (snd r))))
       <= Z.max (Z.of_nat (size (topics (srv w)))) (TotalTopicLimit (config (srv w)))
  /\ forall ts, fst r = inr ts ->
       exists new, ts = acc ++ new
         /\ Forall2 (fun id t => topics (srv (snd r)) !! id = Some t) ids new.
Proof.
  revert acc w. induction ids as [|id rest IH]; intros acc w.
  - simpl. repeat split; [reflexivity|lia|].
    intros ts [= <-]. exists []. rewrite app_nil_r. split; [reflexivity|constructor].
  - cbv zeta. rewrite topicsFromIDs_loop_step.
    destruct (InStringList disallowedTopics id).
    { simpl. repeat split; [reflexivity|lia|discriminate]. }
    destruct (topics (srv w) !! id) as [t|] eqn:Hl.
    + destruct (IH (acc ++ [t]) w) as (Hsub & Hconf & Hsize & Hres).
      repeat split; [exact Hsub|exact Hconf|exact Hsize|].
      intros ts Hts. destruct (Hres ts Hts) as (new & -> & Hall).
      exists (t :: new). rewrite <- app_assoc. split; [reflexivity|].
      constructor; [|exact Hall].
      eapply lookup_weaken; [exact Hl|exact Hsub].
    + destruct (Z.geb_spec (Z.of_nat (size (topics (srv w)))) (TotalTopicLimit (config (srv w))))
        as [Hfull|Hroom].
      { simpl. repeat split; [reflexivity|lia|discriminate]. }
      match goal with |- context [topicsFromIDs_loop rest ?a ?x] =>
        destruct (IH a x) as (Hsub & Hconf & Hsize & Hres) end.
      cbn [srv config setTopics topics] in Hsub, Hconf, Hsize.
      rewrite map_size_insert_None in Hsize by exact Hl.
      repeat split.
      * etransitivity; [|exact Hsub]. apply insert_subseteq, Hl.
      * exact Hconf.
      * lia.
      * intros ts Hts. destruct (Hres ts Hts) as (new & -> & Hall).
        exists (newTopic id :: new). rewrite <- app_assoc. split; [reflexivity|].
        constructor; [|exact Hall].
        eapply lookup_weaken; [|exact Hsub]. apply lookup_insert_eq.
Qed.

(** X5.  The registry stays within the topic limit, and a successful call
    returns, for each name in order, the topic registered under it. *)
Theorem topicsFromIDs_registered ids (w : World C) :
  let r := topicsFromIDs ids w in
  Z.of_nat (size (topics (srv (snd r))))
    <= Z.max (Z.of_nat (size (topics (srv w)))) (TotalTopicLimit (config (srv w)))
  /\ topics (srv w) ⊆ topics (srv (snd r))
  /\ forall ts, fst r = inr ts ->
       Forall2 (fun id t => topics (srv (snd r)) !! id = Some t) ids ts.
Proof.
  cbv zeta. unfold topicsFromIDs.
  destruct (topicsFromIDs_loop_spec ids [] w) as (Hsub & _ & Hsize & Hres).
  repeat split; [exact Hsize|exact Hsub|].
  intros ts Hts. destruct (Hres ts Hts) as (new & -> & Hall). exact Hall.
Qed.

End Registry.

Section RoutedPublish.
Context {C : Type} {cacheC : cache C} {ext : External}.



End RoutedPublish.

(** ** Publishing *)

Section PublishFacts.
Context {C : Type} {cacheC : cache C} {ext : External}.

Lemma readonly_bind {A B} (c : M C A) (f : A -> M C B) :
  readonly c -> (forall x, readonly (f x)) -> readonly (c ≫= f).
Proof.
  intros Hc Hf w. unfold mbind, M_bind. specialize (Hc w).
  destruct (c w) as [[e|x] w1]; simpl in *; [exact Hc|].
  subst w1. apply Hf.
Qed.

Lemma readonly_getServer : readonly (C:=C) getServer.
Proof. intros w. reflexivity. Qed.

Lemma readonly_liftE {A} (x : error + A) : readonly (C:=C) (liftE x).
Proof. intros w. reflexivity. Qed.

Lemma readonly_when_fail b e : readonly (C:=C) (when b (failHTTP e)).
Proof. destruct b; intros w; reflexivity. Qed.

Lemma readonly_parseAttach attach m : readonly (C:=C) (parseAttach attach m).
Proof. unfold parseAttach. repeat case_match; intros w; reflexivity. Qed.

Lemma readonly_parseDelay o conf cache email delayStr m :
  readonly (C:=C) (parseDelay o conf cache email delayStr m).
Proof. unfold parseDelay. repeat case_match; intros w; reflexivity. Qed.

Lemma readonly_parsePublishParams o r v m : readonly (C:=C) (parsePublishParams o r v m).
Proof.
  unfold parsePublishParams.
  apply readonly_bind; [apply readonly_getServer|]. intros s.
  apply readonly_bind; [apply readonly_parseAttach|]. intros m1.
  apply readonly_bind; [apply readonly_when_fail|]. intros _.
  apply readonly_bind; [apply readonly_when_fail|]. intros _.
  destruct (ParsePriority _); [apply readonly_failHTTP|].
  apply readonly_bind; [apply readonly_parseDelay|]. intros m2.
  apply readonly_ret.
Qed.

Lemma readonly_handlePublishBody o r v m body :
  readonly (C:=C) (handlePublishBody o r v m body).
Proof.
  intros w. destruct (handlePublishBody o r v m body w) as [res w'] eqn:E.
  apply handlePublishBody_inv in E as [-> _]. reflexivity.
Qed.

(** X7.  The message counter counts the successful publishes: a publish that
    fails at any stage leaves it as it is.  No publish touches the visitor
    registry or the configuration. *)
Theorem handlePublish_accounting o r v (w : World C) :
  let res := handlePublish o r v w in
  messages (srv (snd res))
    = messages (srv w) + (match fst res with inr _ => 1 | inl _ => 0 end)
  /\ visitors (srv (snd res)) = visitors (srv w)
  /\ config (srv (snd res)) = config (srv w).
Proof.
  cbv zeta. destruct (handlePublish o r v w) as [res w'] eqn:H. cbn [fst snd].
  unfold handlePublish in H.
  unfold mbind at 1, M_bind at 1 in H.
  pose proof (onlyTopics_topicFromPath (Path r) w) as [_ Hsrv].
  destruct (topicFromPath (Path r) w) as [[e|t] w1]; cbn [fst snd] in *.
  { injection H as <- <-. rewrite Hsrv. unfold setTopics. cbn. repeat split; lia. }
  unfold mbind at 1, M_bind at 1, getServer at 1 in H. cbn [srv] in H.
  unfold mbind at 1, M_bind at 1, liftE at 1 in H.
  destruct (Peak (Body r) (MessageLimit (config (srv w1)))) as [e|body].
  { injection H as <- <-. rewrite Hsrv. unfold setTopics. cbn. repeat split; lia. }
  unfold mbind at 1, M_bind at 1 in H.
  pose proof (readonly_parsePublishParams o r v
    (newDefaultMessage (topicID t) "" (newID o) (nowMessage o)) w1) as Hpp.
  destruct (parsePublishParams o r v _ w1) as [[e|[[[cache push] email] m1]] w2];
    cbn [snd] in Hpp; subst w2.
  { injection H as <- <-. rewrite Hsrv. unfold setTopics. cbn. repeat split; lia. }
  unfold mbind at 1, M_bind at 1 in H.
  pose proof (readonly_handlePublishBody o r v m1 body w1) as Hb.
  destruct (handlePublishBody o r v m1 body w1) as [[e|m2] w3]; cbn [snd] in Hb; subst w3.
  { injection H as <- <-. rewrite Hsrv. unfold setTopics. cbn. repeat split; lia. }
  set (m' := if String.eqb (Message m2) "" then setMessage m2 emptyMessageBody else m2) in H.
  destruct w1 as [s1 ev1]. cbn [srv events] in *.
  assert (Hs1 : messages s1 = messages (srv w) /\ visitors s1 = visitors (srv w)
                /\ config s1 = config (srv w)).
  { rewrite Hsrv. unfold setTopics. cbn. auto. }
  clear Hsrv. destruct Hs1 as (Hm & Hv & Hc). rewrite <- Hm, <- Hv, <- Hc.
  unfold Publish in H. munfold. cbn [srv events] in H.
  destruct (Time_ m' >? Unix (nowDelayed o)); cbn [negb andb] in H;
    rewrite ?andb_false_r, ?andb_true_r in H;
    try destruct (publishError (topicID t) m');
    try destruct (is_Some_b (server.firebase s1) && push);
    try destruct (is_Some_b (mailer_ s1) && nonEmpty email);
    destruct cache; cbn in H;
    try destruct (AddMessage (cache_ s1) (nowAddMessage o) m'); cbn in H;
    try destruct (responseError o); cbn in H;
    injection H as <- <-; cbn; repeat split; lia.
Qed.

Lemma parseAttach_attachment attach m (w : World C) m' w' :
  parseAttach attach m w = (inr m', w') ->
  match Attachment m with
  | None => Attachment m' = None
  | Some a0 =>
      exists a, Attachment m' = Some a
        /\ URL a = (if nonEmpty attach then attach else URL a0)
        /\ Owner a = Owner a0 /\ Size a = Size a0
        /\ (Name a0 <> "" -> Name a = Name a0)
        /\ (nonEmpty attach = true -> Name a <> "")
  end.
Proof.
  unfold parseAttach, attachmentName, attachmentURL, updAttachment.
  destruct m as [i t e tp ms ti tg pr cl [a0|]]; cbn [Attachment setAttachment option_map].
  - destruct (nonEmpty attach) eqn:Ha.
    + destruct (attachURLRegex attach); cbn [negb]; [|munfold; discriminate].
      cbn [setURL Name URL].
      destruct (String.eqb_spec (Name a0) "") as [Hn|Hn].
      * destruct (urlPathBase attach) as [base|]; cbn [Attachment setAttachment option_map Name setURL setName].
        -- destruct (String.eqb base "." || String.eqb base "/");
             cbn [Attachment setAttachment option_map Name setURL setName].
           ++ munfold. intros [= <- <-]. eexists. split; [reflexivity|].
              cbn. repeat split; try discriminate. intros; contradiction.
           ++ destruct (String.eqb_spec base "") as [Hb|Hb];
                munfold; intros [= <- <-]; eexists; (split; [reflexivity|]);
                cbn; repeat split; auto; try discriminate; intros; contradiction.
        -- rewrite Hn. cbn. munfold. intros [= <- <-]. eexists. split; [reflexivity|].
           cbn. repeat split; try discriminate. intros; contradiction.
      * cbn. apply String.eqb_neq in Hn. rewrite Hn.
        munfold. intros [= <- <-]. eexists. split; [reflexivity|].
        cbn. apply String.eqb_neq in Hn. repeat split; auto.
    + munfold. intros [= <- <-]. eexists. split; [reflexivity|].
      repeat split. discriminate.
  - destruct (nonEmpty attach); [|munfold; intros [= <- <-]; reflexivity].
    destruct (attachURLRegex attach); cbn [negb]; [|munfold; discriminate].
    cbn. destruct (urlPathBase ""); [destruct (_ || _)|]; cbn;
      munfold; intros [= <- <-]; reflexivity.
Qed.

(** What [parsePublishParams] leaves in the attachment of a message that
    had none: nothing without an [attach] or [filename] parameter, and
    otherwise an attachment with a non-empty name whose URL is the [attach]
    parameter. *)
Lemma parsePublishParams_attachment o r v m0 (w : World C) cache push email m w' :
  parsePublishParams o r v m0 w = (inr (cache, push, email, m), w') ->
  Attachment m0 = None ->
  match Attachment m with
  | None => attachParam r = "" /\ filenameParam r = ""
  | Some a =>
      Name a <> "" /\ URL a = attachParam r /\ Owner a = "" /\ Size a = 0
      /\ (attachParam r = "" -> Name a = filenameParam r)
  end.
Proof.
  unfold parsePublishParams, attachParam, filenameParam.
  set (attach := readParam r ["x-attach"; "attach"; "a"]).
  set (filename := readParam r ["x-filename"; "filename"; "file"; "f"]).
  set (delayStr := readParam r ["x-delay"; "delay"; "x-at"; "at"; "x-in"; "in"]).
  set (tagsStr := readParam r ["x-tags"; "tags"; "tag"; "ta"]).
  set (messageStr := readParam r ["x-message"; "message"; "m"]).
  intros H Hnone. unfold mbind, M_bind in H. simpl in H.
  destruct (parseAttach attach _ w) as [[e|m1] w1] eqn:HA; [discriminate|].
  pose proof (parseAttach_attachment _ _ _ _ _ HA) as Hatt.
  apply parseAttach_inv in HA as (-> & _).
  destruct (when _ _ w) as [[e|[]] w2] eqn:H1; [discriminate|].
  apply when_failHTTP_inv in H1 as [_ ->].
  destruct (when _ _ w) as [[e|[]] w3] eqn:H2; [discriminate|].
  apply when_failHTTP_inv in H2 as [_ ->].
  destruct (ParsePriority _) as [e|p]; [discriminate|].
  match type of H with
  | context [parseDelay ?o ?c ?ca ?em ?d ?mm w] =>
      destruct (parseDelay o c ca em d mm w) as [[e|m2] w4] eqn:HD; [discriminate|];
      apply parseDelay_inv in HD as (-> & HDe & HDn)
  end.
  unfold mret, M_ret in H. injection H as <- <- <- <- <-.
  assert (Hm2 : Attachment m2 = Attachment m1).
  { destruct (nonEmpty delayStr) eqn:Hd.
    - destruct (HDn eq_refl) as (_ & _ & delay & _ & -> & _).
      destruct (nonEmpty tagsStr), (nonEmpty messageStr); reflexivity.
    - rewrite (HDe eq_refl).
      destruct (nonEmpty tagsStr), (nonEmpty messageStr); reflexivity. }
  rewrite Hm2. clear HDe HDn Hm2.
  unfold nonEmpty in *.
  destruct (String.eqb_spec attach "") as [Ha|Ha], (String.eqb_spec filename "") as [Hf|Hf];
    cbn [negb orb] in Hatt; cbn in Hatt.
  - rewrite Hnone in Hatt. rewrite Hatt. auto.
  - destruct Hatt as (a & -> & Hu & Ho & Hs & Hk & Hn). cbn in *.
    rewrite (Hk Hf), Ha. auto.
  - destruct Hatt as (a & -> & Hu & Ho & Hs & Hk & Hn).
    repeat split; auto; intros; contradiction.
  - destruct Hatt as (a & -> & Hu & Ho & Hs & Hk & Hn).
    repeat split; auto; intros; contradiction.
Qed.

Lemma append_nonempty_r (a b : string) : b <> "" -> a +:+ b <> "".
Proof.
  intros Hb. destruct a as [|c a]; [exact Hb|]. discriminate.
Qed.

Lemma handleBodyAsAttachment_owner o r v m body (w : World C) m' w' :
  handleBodyAsAttachment o r v m body w = (inr m', w') ->
  exists a, Attachment m' = Some a /\ Name a <> "" /\ URL a <> "" /\ Owner a = ip v.
Proof.
  unfold handleBodyAsAttachment. munfold. cbn [srv].
  destruct (fileCache_ (srv w)) as [fc|]; [|discriminate].
  destruct (_ || _); [discriminate|].
  destruct (_ >? _); [discriminate|].
  destruct (AttachmentsSize (cache_ (srv w)) (ip v)) as [e|used]; [discriminate|].
  destruct (nonEmpty (Header_Get (Header r) "Content-Length") && _); [discriminate|].
  destruct (DetectContentType (PeakedBytes body) _) as [type ex].
  destruct (Write fc (ID m) body _) as [err|size].
  { destruct (decide (err = ErrLimitReached)); discriminate. }
  intros [= <- <-]. eexists. split; [reflexivity|]. cbn [Name URL Owner].
  split; [|split; [|reflexivity]].
  - match goal with |- (if ?b then _ else ?n) <> _ =>
      destruct (String.eqb_spec n "") as [|Hn]; [discriminate|exact Hn] end.
  - apply append_nonempty_r. discriminate.
Qed.


Lemma handlePublishBody_attachment o r v m body (w : World C) m' w' :
  handlePublishBody o r v m body w = (inr m', w') ->
  (forall a, Attachment m = Some a -> Name a <> "") ->
  forall a', Attachment m' = Some a' ->
    Name a' <> "" /\ URL a' <> ""
    /\ (Attachment m = Some a' /\ URL a' = attachmentURL m \/ Owner a' = ip v).
Proof.
  unfold handlePublishBody. intros H Hnamed a' Ha'.
  assert (Hstored : handleBodyAsAttachment o r v m body w = (inr m', w') ->
            Name a' <> "" /\ URL a' <> ""
            /\ (Attachment m = Some a' /\ URL a' = attachmentURL m \/ Owner a' = ip v)).
  { intros Hs. apply handleBodyAsAttachment_owner in Hs as (a & Hatt & Hn & Hu & Ho).
    rewrite Hatt in Ha'. injection Ha' as <-.
    split; [exact Hn|]. split; [exact Hu|right; exact Ho]. }
  destruct (Attachment m) as [a|] eqn:Hm; cbn [is_Some_b andb] in H.
  - unfold attachmentURL, attachmentName in H. rewrite Hm in H.
    unfold nonEmpty in H.
    destruct (String.eqb_spec (URL a) "") as [Hu|Hu]; cbn [negb] in H.
    + destruct (String.eqb_spec (Name a) "") as [Hn|Hn]; cbn [negb] in H.
      * exfalso. exact (Hnamed a eq_refl Hn).
      * apply Hstored, H.
    + apply handleBodyAsMessage_inv in H as [_ H].
      destruct (H m' eq_refl) as [_ Hatt]. rewrite Hatt, Hm in Ha'. injection Ha' as <-.
      split; [apply (Hnamed a eq_refl)|]. split; [exact Hu|].
      left. unfold attachmentURL. rewrite Hm. auto.
  - destruct (negb (LimitReached body) && utf8Valid (PeakedBytes body)).
    + apply handleBodyAsMessage_inv in H as [_ H].
      destruct (H m' eq_refl) as [_ Hatt]. rewrite Hatt, Hm in Ha'. discriminate.
    + apply Hstored, H.
Qed.

Lemma handlePublish_event o r v (w : World C) m w' :
  handlePublish o r v w = (inr m, w') -> Event m = messageEvent.
Proof.
  intros H. apply handlePublish_inv in H
    as (t & w1 & body & cache & push & email & m1 & m2 & _ & _ & Hpp & Hb & -> & _).
  apply parsePublishParams_inv in Hpp as (_ & _ & _ & _ & _ & _ & Hev & _).
  apply handlePublishBody_inv in Hb as [_ Hb].
  destruct (Hb m2 eq_refl) as (_ & _ & He & _).
  destruct (String.eqb (Message m2) ""); cbn; rewrite He, Hev; reflexivity.
Qed.

(** X9.  A message that [handlePublish] accepts has the id drawn for it, is a
    [message] event for the topic resolved from the path, has a text that is
    not empty and a priority from 0 to 5, and keeps the clock reading of its
    creation unless a delay was given.  If it has an attachment, the
    attachment has a name and a URL: the [attach] parameter, or a file of
    this server owned by the publishing visitor. *)
Theorem handlePublish_message o r v (w : World C) m w' :
  handlePublish o r v w = (inr m, w') ->
  ID m = newID o
  /\ Event m = messageEvent
  /\ Message m <> ""
  /\ 0 <= Priority m <= 5
  /\ (delayParam r = "" -> Time_ m = Unix (nowMessage o))
  /\ (exists t w1, topicFromPath (Path r) w = (inr t, w1) /\ Topic m = topicID t)
  /\ forall a, Attachment m = Some a ->
       Name a <> "" /\ URL a <> ""
       /\ (URL a = attachParam r \/ Owner a = ip v).
Proof.
  intros H. apply handlePublish_inv in H
    as (t & w1 & body & cache & push & email & m1 & m2 & Ht & _ & Hpp & Hb & -> & _).
  pose proof (parsePublishParams_attachment _ _ _ _ _ _ _ _ _ _ Hpp eq_refl) as Hatt.
  apply parsePublishParams_inv in Hpp
    as (_ & _ & _ & _ & Hprio & Hid & Hev & Htopic & Htime & _).
  pose proof (handlePublishBody_attachment _ _ _ _ _ _ _ _ Hb) as Hbatt.
  apply handlePublishBody_inv in Hb as [_ Hb].
  destruct (Hb m2 eq_refl) as (Hi & Hti & He & Hto & Hp & _).
  assert (Hfields : forall m', (m' = m2 \/ m' = setMessage m2 emptyMessageBody) ->
            ID m' = ID m2 /\ Event m' = Event m2 /\ Priority m' = Priority m2
            /\ Time_ m' = Time_ m2 /\ Topic m' = Topic m2 /\ Attachment m' = Attachment m2).
  { intros m' [->| ->]; repeat split. }
  set (m := if String.eqb (Message m2) "" then setMessage m2 emptyMessageBody else m2).
  assert (Hm : m = m2 \/ m = setMessage m2 emptyMessageBody).
  { unfold m. destruct (String.eqb (Message m2) ""); auto. }
  destruct (Hfields m Hm) as (Ei & Ee & Ep & Et & Eto & Ea).
  split; [rewrite Ei, Hi, Hid; reflexivity|].
  split; [rewrite Ee, He, Hev; reflexivity|].
  split.
  { unfold m. destruct (String.eqb_spec (Message m2) "") as [|Hne]; [discriminate|exact Hne]. }
  split; [rewrite Ep, Hp; apply (ParsePriority_range _ _ Hprio)|].
  split.
  { intros Hd. rewrite Et, Hti, Htime; [reflexivity|]. unfold nonEmpty. rewrite Hd. reflexivity. }
  split; [exists t, w1; split; [exact Ht|]; rewrite Eto, Hto, Htopic; reflexivity|].
  intros a Ha. rewrite Ea in Ha.
  assert (Hnamed : forall a, Attachment m1 = Some a -> Name a <> "").
  { intros a1 Ha1. rewrite Ha1 in Hatt. apply Hatt. }
  destruct (Hbatt Hnamed a Ha) as (Hn & Hu & Hor).
  split; [exact Hn|]. split; [exact Hu|].
  destruct Hor as [[Ha1 Hurl]|Ho]; [left|right; exact Ho].
  rewrite Ha1 in Hatt. apply Hatt.
Qed.

Lemma parsePublishParams_time o r v m0 (w : World C) cache push email m w' :
  parsePublishParams o r v m0 w = (inr (cache, push, email, m), w') ->
  nonEmpty (delayParam r) = true ->
  exists delay, ParseFutureTime (delayParam r) (nowDelay o) = Some delay
    /\ Time_ m = Unix delay
    /\ Unix (Add (nowMinDelay o) (MinDelay (config (srv w)))) <= Unix delay
         <= Unix (Add (nowMaxDelay o) (MaxDelay (config (srv w)))).
Proof.
  unfold parsePublishParams, delayParam.
  set (delayStr := readParam r ["x-delay"; "delay"; "x-at"; "at"; "x-in"; "in"]).
  intros H Hdelay. unfold mbind, M_bind in H. simpl in H.
  destruct (parseAttach _ _ w) as [[e|m1] w1] eqn:HA; [discriminate|].
  apply parseAttach_inv in HA as (-> & _).
  destruct (when _ _ w) as [[e|[]] w2] eqn:H1; [discriminate|].
  apply when_failHTTP_inv in H1 as [_ ->].
  destruct (when _ _ w) as [[e|[]] w3] eqn:H2; [discriminate|].
  apply when_failHTTP_inv in H2 as [_ ->].
  destruct (ParsePriority _) as [e|p]; [discriminate|].
  match type of H with
  | context [parseDelay ?o ?c ?ca ?em ?d ?mm w] =>
      destruct (parseDelay o c ca em d mm w) as [[e|m2] w4] eqn:HD; [discriminate|];
      apply parseDelay_inv in HD as (-> & _ & HDn)
  end.
  unfold mret, M_ret in H. injection H as <- <- <- <- <-.
  destruct (HDn Hdelay) as (_ & _ & delay & Hparse & -> & Hbounds).
  exists delay. split; [exact Hparse|]. split; [reflexivity|exact Hbounds].
Qed.

(** X10.  A publish with a delay parameter is accepted only with caching on and
    without an e-mail address, and only if the delay parses to a time that
    lies, in Unix seconds, between the clock plus the configured minimum
    and the clock plus the configured maximum; the message carries that time
    and is handed to the cache. *)
Theorem handlePublish_delay o r v (w : World C) m w' :
  handlePublish o r v w = (inr m, w') ->
  delayParam r <> "" ->
  cacheRequested r = true /\ emailParam r = ""
  /\ AddMessage (cache_ (srv w)) (nowAddMessage o) m = inr (cache_ (srv w'))
  /\ exists delay, ParseFutureTime (delayParam r) (nowDelay o) = Some delay
       /\ Time_ m = Unix delay
       /\ Unix (Add (nowMinDelay o) (MinDelay (config (srv w)))) <= Unix delay
            <= Unix (Add (nowMaxDelay o) (MaxDelay (config (srv w)))).
Proof.
  intros H Hd.
  assert (Hne : nonEmpty (delayParam r) = true).
  { unfold nonEmpty. apply String.eqb_neq in Hd. rewrite Hd. reflexivity. }
  apply handlePublish_inv in H
    as (t & w1 & body & cache & push & email & m1 & m2 & Ht & _ & Hpp & Hb & -> & _ & _
        & Hcache & _).
  pose proof (onlyTopics_topicFromPath (Path r) w) as [_ Hsrv].
  rewrite Ht in Hsrv. cbn [snd] in Hsrv.
  assert (Hc1 : cache_ (srv w1) = cache_ (srv w) /\ config (srv w1) = config (srv w)).
  { rewrite Hsrv. unfold setTopics. cbn. auto. }
  destruct Hc1 as [Hc1 Hconf].
  pose proof (parsePublishParams_time _ _ _ _ _ _ _ _ _ _ Hpp Hne) as (delay & Hp & Htime & Hbounds).
  apply parsePublishParams_inv in Hpp
    as (_ & -> & _ & -> & _ & _ & _ & _ & _ & Hdel & _).
  destruct (Hdel Hne) as [Hcr Hem].
  apply handlePublishBody_inv in Hb as [_ Hb].
  destruct (Hb m2 eq_refl) as (_ & Hti & _).
  split; [exact Hcr|]. split; [exact Hem|].
  rewrite Hcr, Hc1 in Hcache. split; [exact Hcache|].
  exists delay. split; [exact Hp|]. rewrite Hconf in Hbounds. split; [|exact Hbounds].
  rewrite <- Htime, <- Hti. destruct (String.eqb (Message m2) ""); reflexivity.
Qed.

Lemma parsePublishParams_texts o r v m0 (w : World C) cache push email m w' :
  parsePublishParams o r v m0 w = (inr (cache, push, email, m), w') ->
  Title m = readParam r ["x-title"; "title"; "t"]
  /\ Click m = readParam r ["x-click"; "click"]
  /\ Message m = (if nonEmpty (readParam r ["x-message"; "message"; "m"])
                  then readParam r ["x-message"; "message"; "m"] else Message m0)
  /\ Tags m = (if nonEmpty (readParam r ["x-tags"; "tags"; "tag"; "ta"])
               then map TrimSpace
                      (SplitNoEmpty (readParam r ["x-tags"; "tags"; "tag"; "ta"]) ",")
               else Tags m0).
Proof.
  unfold parsePublishParams.
  set (attach := readParam r ["x-attach"; "attach"; "a"]).
  set (filename := readParam r ["x-filename"; "filename"; "file"; "f"]).
  set (delayStr := readParam r ["x-delay"; "delay"; "x-at"; "at"; "x-in"; "in"]).
  set (tagsStr := readParam r ["x-tags"; "tags"; "tag"; "ta"]).
  set (messageStr := readParam r ["x-message"; "message"; "m"]).
  intros H. unfold mbind, M_bind in H. simpl in H.
  destruct (parseAttach attach _ w) as [[e|m1] w1] eqn:HA; [discriminate|].
  apply parseAttach_inv in HA as (-> & Hm1 & _).
  destruct (when _ _ w) as [[e|[]] w2] eqn:H1; [discriminate|].
  apply when_failHTTP_inv in H1 as [_ ->].
  destruct (when _ _ w) as [[e|[]] w3] eqn:H2; [discriminate|].
  apply when_failHTTP_inv in H2 as [_ ->].
  destruct (ParsePriority _) as [e|p]; [discriminate|].
  match type of H with
  | context [parseDelay ?o ?c ?ca ?em ?d ?mm w] =>
      destruct (parseDelay o c ca em d mm w) as [[e|m2] w4] eqn:HD; [discriminate|];
      apply parseDelay_inv in HD as (-> & HDe & HDn)
  end.
  unfold mret, M_ret in H. injection H as <- <- <- <- <-.
  assert (Hm2 : exists time, m2 = setTime
            (let m := setPriority (if nonEmpty messageStr then setMessage m1 messageStr else m1) p in
             if nonEmpty tagsStr then setTags m (map TrimSpace (SplitNoEmpty tagsStr ",")) else m)
            time).
  { destruct (nonEmpty delayStr) eqn:Hd.
    - destruct (HDn eq_refl) as (_ & _ & delay & _ & -> & _). eauto.
    - rewrite (HDe eq_refl). eexists (Time_ _).
      destruct (nonEmpty tagsStr), (nonEmpty messageStr), m1; reflexivity. }
  destruct Hm2 as [time ->]. rewrite Hm1.
  destruct (nonEmpty tagsStr), (nonEmpty messageStr), (nonEmpty filename), (nonEmpty attach);
    cbn; repeat split.
Qed.

Lemma Split_items_clean sep s :
  Forall (fun item => allChars (fun c => negb (Ascii.eqb c sep)) item = true) (Split sep s).
Proof.
  induction s as [|c s IH]; cbn [Split]; [repeat constructor|].
  destruct (Ascii.eqb c sep) eqn:E; [constructor; [reflexivity|exact IH]|].
  destruct (Split sep s) as [|x xs]; [repeat constructor; cbn; rewrite E; reflexivity|].
  inversion IH as [|? ? Hx Hxs]; subst. constructor; [|exact Hxs].
  cbn. rewrite E, Hx. reflexivity.
Qed.

Lemma allChars_app p (a b : string) :
  allChars p (a +:+ b) = allChars p a && allChars p b.
Proof.
  induction a as [|c a IH]; [reflexivity|].
  rewrite append_cons. cbn [allChars]. rewrite IH, andb_assoc. reflexivity.
Qed.

(** Trimming takes bytes away at the ends and adds none. *)
Lemma allChars_TrimSpace p s : allChars p s = true -> allChars p (TrimSpace s) = true.
Proof.
  intros H. unfold TrimSpace.
  destruct (trimLeft_suffix s) as [pre Hpre].
  destruct (trimRight_prefix (trimLeft s)) as [suf Hsuf].
  rewrite Hpre, Hsuf, !allChars_app in H.
  apply andb_true_iff in H as [_ H]. apply andb_true_iff in H as [H _]. exact H.
Qed.

Lemma trimmed_items (s : string) :
  Forall (fun tag => TrimSpace tag = tag
                     /\ allChars (fun c => negb (Ascii.eqb c ",")) tag = true)
         (map TrimSpace (SplitNoEmpty s ",")).
Proof.
  unfold SplitNoEmpty.
  pose proof (Split_items_clean "," s) as Hclean.
  induction Hclean as [|item items Hitem _ IH]; cbn [List.filter map]; [constructor|].
  destruct (negb (String.eqb item "")); [|exact IH].
  cbn [map]. constructor; [|exact IH].
  split; [apply TrimSpace_idem|].
  apply allChars_TrimSpace, Hitem.
Qed.

Lemma handlePublish_texts o r v (w : World C) m w' :
  handlePublish o r v w = (inr m, w') ->
  Title m = readParam r ["x-title"; "title"; "t"]
  /\ Click m = readParam r ["x-click"; "click"]
  /\ Tags m = map TrimSpace (SplitNoEmpty (readParam r ["x-tags"; "tags"; "tag"; "ta"]) ",").
Proof.
  intros H. apply handlePublish_inv in H
    as (t & w1 & body & cache & push & email & m1 & m2 & _ & _ & Hpp & Hb & -> & _).
  apply parsePublishParams_texts in Hpp as (Hti & Hcl & _ & Htags).
  apply handlePublishBody_inv in Hb as [_ Hb].
  destruct (Hb m2 eq_refl) as (_ & _ & _ & _ & _ & Htg & Htitle & Hclick).
  assert (Hfields : forall m', (m' = m2 \/ m' = setMessage m2 emptyMessageBody) ->
            Title m' = Title m2 /\ Click m' = Click m2 /\ Tags m' = Tags m2).
  { intros m' [->| ->]; repeat split. }
  set (m := if String.eqb (Message m2) "" then setMessage m2 emptyMessageBody else m2).
  assert (Hm : m = m2 \/ m = setMessage m2 emptyMessageBody).
  { unfold m. destruct (String.eqb (Message m2) ""); auto. }
  destruct (Hfields m Hm) as (-> & -> & ->). rewrite Htitle, Hclick, Htg, Hti, Hcl.
  split; [reflexivity|]. split; [reflexivity|].
  rewrite Htags. unfold nonEmpty.
  destruct (String.eqb_spec (readParam r ["x-tags"; "tags"; "tag"; "ta"]) "") as [->|];
    reflexivity.
Qed.

(** X11.  The text fields of an accepted message come from the parameters with
    the white space around them removed.  The tags are the items of the
    comma-separated tag parameter that are not empty, in order, each one
    trimmed, so no tag holds a comma or begins or ends with white space. *)
Theorem handlePublish_tags o r v (w : World C) m w' :
  handlePublish o r v w = (inr m, w') ->
  Title m = readParam r ["x-title"; "title"; "t"]
  /\ Click m = readParam r ["x-click"; "click"]
  /\ TrimSpace (Title m) = Title m /\ TrimSpace (Click m) = Click m
  /\ Tags m = map TrimSpace (SplitNoEmpty (readParam r ["x-tags"; "tags"; "tag"; "ta"]) ",")
  /\ Forall (fun tag => TrimSpace tag = tag
                        /\ allChars (fun c => negb (Ascii.eqb c ",")) tag = true) (Tags m).
Proof.
  intros H. apply handlePublish_texts in H as (Hti & Hcl & Htags).
  rewrite Hti, Hcl, Htags.
  split; [reflexivity|]. split; [reflexivity|].
  split; [apply readParam_TrimSpace|]. split; [apply readParam_TrimSpace|].
  split; [reflexivity|]. apply trimmed_items.
Qed.

End PublishFacts.

(** ** Subscribing *)

Lemma newlinesToSpaces_spec s :
  String.length (newlinesToSpaces s) = String.length s
  /\ allChars notNewline (newlinesToSpaces s) = true.
Proof.
  induction s as [|c s [IHl IHc]]; [split; reflexivity|].
  cbn [newlinesToSpaces String.length allChars]. rewrite IHl, IHc.
  split; [reflexivity|].
  unfold notNewline at 1. destruct (Ascii.eqb c "010") eqn:E; [reflexivity|].
  rewrite E. reflexivity.
Qed.

(** X12.  The raw encoding of any event is exactly one line: text without a line
    feed, then one line feed.  For a message the text has the length of the
    message text, for any other event it is empty. *)
Theorem encoderRaw_one_line (msg : message) :
  exists line,
    encoderRaw msg = inr (line +:+ newline)
    /\ allChars notNewline line = true
    /\ String.length line
       = (if String.eqb (Event msg) messageEvent then String.length (Message msg) else 0%nat).
Proof.
  unfold encoderRaw. destruct (String.eqb (Event msg) messageEvent).
  - exists (newlinesToSpaces (Message msg)).
    destruct (newlinesToSpaces_spec (Message msg)) as [Hl Hc]. auto.
  - exists "". auto.
Qed.

Lemma InIntList_In (haystack : list Z) (needle : Z) :
  InIntList haystack needle = true <-> In needle haystack.
Proof.
  induction haystack as [|i rest IH]; simpl.
  - split; [discriminate|contradiction].
  - destruct (Z.eqb_spec i needle) as [->|Hne].
    + tauto.
    + rewrite IH. split; [tauto|]. intros [H|H]; [contradiction|exact H].
Qed.

Lemma passesQueryFilter_tags (msg : message) (mf tf : string) (pf : list Z)
    (tags : list string) (tag : string) :
  Event msg = messageEvent -> passesQueryFilter msg mf tf pf tags = true ->
  In tag tags -> In tag (Tags msg).
Proof.
  intros Hev Hpass Hin.
  unfold passesQueryFilter in Hpass. rewrite Hev in Hpass. simpl in Hpass.
  destruct (nonEmpty mf && _); [discriminate|].
  destruct (nonEmpty tf && _); [discriminate|].
  destruct (_ && negb (InIntList _ _)); [discriminate|].
  destruct (_ && negb (InStringListAll _ _)) eqn:Ht; [discriminate|].
  apply andb_false_iff in Ht as [Ht|Ht].
  - destruct tags; [contradiction|]. simpl in *. discriminate.
  - apply negb_false_iff in Ht. eapply InStringListAll_In; eauto.
Qed.

(** X13.  A message event passes the filters exactly when it meets every filter
    that is set: the same text, the same title, a listed priority (0
    counting as 3), and all the listed tags. *)
Theorem passesQueryFilter_iff (msg : message) (mf tf : string) (pf : list Z)
    (tags : list string) :
  Event msg = messageEvent ->
  passesQueryFilter msg mf tf pf tags = true
  <-> (mf = "" \/ Message msg = mf)
      /\ (tf = "" \/ Title msg = tf)
      /\ (pf = [] \/ In (if Priority msg =? 0 then 3 else Priority msg) pf)
      /\ (forall tag, In tag tags -> In tag (Tags msg)).
Proof.
  intros Hev. unfold passesQueryFilter, nonEmpty. rewrite Hev. cbn [String.eqb negb].
  change (String.eqb messageEvent messageEvent) with true. cbv iota. cbn [negb].
  destruct (String.eqb_spec mf "") as [Hmf|Hmf]; cbn [negb andb].
  2: destruct (String.eqb_spec (Message msg) mf) as [Hm|Hm]; cbn [negb].
  3: { split; [discriminate|]. intros ([H|H] & _); contradiction. }
  all: destruct (String.eqb_spec tf "") as [Htf|Htf]; cbn [negb andb].
  all: try (destruct (String.eqb_spec (Title msg) tf) as [Ht|Ht]; cbn [negb]).
  all: try (split; [discriminate|]; intros (_ & [H|H] & _); contradiction).
  all: destruct pf as [|p pf]; cbn [length Nat.ltb andb];
    [change (0 <? Z.of_nat 0) with false
    |replace (0 <? Z.of_nat (length (p :: pf))) with true
       by (symmetry; apply Z.ltb_lt; cbn [length]; lia)]; cbn [andb].
  all: try (destruct (InIntList (p :: pf) _) eqn:Hp; cbn [negb];
            [apply InIntList_In in Hp
            |split; [discriminate|]; intros (_ & _ & [H|H] & _); [discriminate|];
             apply InIntList_In in H; congruence]).
  all: destruct tags as [|tg tags];
    [change (0 <? Z.of_nat (length (@nil string))) with false
    |replace (0 <? Z.of_nat (length (tg :: tags))) with true
       by (symmetry; apply Z.ltb_lt; cbn [length]; lia)]; cbn [andb].
  all: try (destruct (InStringListAll (Tags msg) (tg :: tags)) eqn:Ha; cbn [negb];
            [rewrite InStringListAll_In in Ha
            |split; [discriminate|]; intros (_ & _ & _ & H);
             apply InStringListAll_In in H; congruence]).
  all: split; [intros _|reflexivity]; repeat split; auto; try (intros ? []).
Qed.

Section SubscribeFacts.
Context {C : Type} {cacheC : cache C} {ext : External}.

Lemma wall_Add (t : Time) (d : Z) : wall (Add t d) = wall t + d.
Proof. unfold Add. repeat case_match; reflexivity. Qed.

Lemma wrapInt64_range (z : Z) : minInt64 <= wrapInt64 z <= maxInt64.
Proof.
  unfold wrapInt64, minInt64, maxInt64.
  pose proof (Z.mod_pos_bound (z + 2 ^ 63) (2 ^ 64) eq_refl). lia.
Qed.

Lemma wrapInt64_id (z : Z) : minInt64 <= z <= maxInt64 -> wrapInt64 z = z.
Proof.
  unfold wrapInt64, minInt64, maxInt64. intros H.
  rewrite Z.mod_small by lia. lia.
Qed.

(** A time that has lost its monotonic reading in [Add] lies outside the
    33-bit field, or the reading has left the [int64] range. *)
Lemma Add_mono_dropped (t : Time) (d m : Z) :
  mono t = Some m -> mono (Add t d) = None ->
  ~ (0 <= wallSeconds (wall t + d) <= 2 ^ 33 - 1)
  \/ m + d < minInt64 \/ maxInt64 < m + d.
Proof.
  intros Hm. unfold Add. rewrite Hm. cbv zeta.
  destruct (Z.leb_spec 0 (wallSeconds (wall t + d))) as [H1|H1];
    [|intros _; left; lia].
  destruct (Z.leb_spec (wallSeconds (wall t + d)) (2 ^ 33 - 1)) as [H2|H2];
    [|intros _; left; lia].
  cbn [andb].
  destruct (Z.ltb_spec (m + d) minInt64) as [Hlo|Hlo]; [intros _; right; left; exact Hlo|].
  destruct (Z.ltb_spec maxInt64 (m + d)) as [Hhi|Hhi]; [intros _; right; right; exact Hhi|].
  discriminate.
Qed.

(** X14.  A [since] given as a duration is the clock reading moved back by
    it, the negation taken in [int64].  On a server whose clock carries a
    monotonic reading that counts up from zero, and is past the first second
    after the epoch, the result is never taken for one of the two
    sentinels. *)
Theorem parseSince_duration (now : Time) (r : Request) (poll : bool) (d m : Z) :
  sinceParam r <> "" -> sinceParam r <> "all" ->
  ParseInt (sinceParam r) = None ->
  ParseDuration (sinceParam r) = Some d ->
  mono now = Some m -> 0 <= m <= maxInt64 ->
  Second < wall now ->
  let since := Add now (wrapInt64 (-1 * d)) in
  parseSince now r poll = inr since
  /\ wall since = wall now + wrapInt64 (-1 * d)
  /\ (minInt64 < d <= maxInt64 -> wall since = wall now - d)
  /\ IsAll since = false
  /\ IsNone since = false.
Proof.
  intros H1 H2 Hint Hdur Hmono Hm Hwall since. unfold parseSince. fold (sinceParam r).
  apply String.eqb_neq in H1, H2. rewrite H1, H2, Hint, Hdur.
  split; [reflexivity|]. split; [apply wall_Add|].
  split.
  { intros Hd. unfold since. rewrite wall_Add, wrapInt64_id; [lia|].
    unfold minInt64, maxInt64 in *. lia. }
  assert (Hsent : forall sec, 0 <= sec <= 1 -> since <> Unix_ sec).
  { intros sec Hsec Heq.
    assert (Hw : wall now + wrapInt64 (-1 * d) = sec * Second).
    { rewrite <- (wall_Add now). fold since. rewrite Heq. reflexivity. }
    assert (Hnone : mono (Add now (wrapInt64 (-1 * d))) = None).
    { fold since. rewrite Heq. reflexivity. }
    pose proof (wrapInt64_range (-1 * d)) as Hr.
    destruct (Add_mono_dropped now _ m Hmono Hnone) as [Hout|[Hlo|Hhi]].
    - apply Hout. rewrite Hw. unfold wallSeconds.
      rewrite Z.div_mul by discriminate. lia.
    - lia.
    - unfold Second in *. lia. }
  split; apply bool_decide_eq_false.
  - apply (Hsent 0). lia.
  - apply (Hsent 1). lia.
Qed.

Lemma parsePriorities_error ps err :
  parsePriorities ps = inl err -> err = errInvalidPriority.
Proof.
  induction ps as [|p rest IH]; simpl; [discriminate|].
  destruct (ParsePriority p) as [e|n] eqn:Hp.
  - intros [= <-]. unfold ParsePriority in Hp.
    repeat match type of Hp with
           | (if ?b then _ else _) = _ => destruct b; [discriminate|]
           end.
    congruence.
  - destruct (parsePriorities rest) as [e|l]; [|discriminate].
    intros [= <-]. apply IH. reflexivity.
Qed.

Lemma parsePriorities_range ps l :
  parsePriorities ps = inr l ->
  length l = length ps /\ Forall (fun n => 0 <= n <= 5) l.
Proof.
  revert l. induction ps as [|p rest IH]; simpl; intros l.
  - intros [= <-]. split; [reflexivity|constructor].
  - destruct (ParsePriority p) as [e|n] eqn:Hp; [discriminate|].
    destruct (parsePriorities rest) as [e|l']; [discriminate|].
    intros [= <-]. destruct (IH l' eq_refl) as [Hl Hall].
    split; [simpl; congruence|].
    constructor; [apply (ParsePriority_range _ _ Hp)|exact Hall].
Qed.

(** X15.  A subscription whose priority filter holds an unknown priority name is
    refused, but not with a 400: the error of [ParsePriority] is passed on
    as it is, so [handle] answers 50001 with status 500.  This happens after
    the named topics have been resolved (and created), and before anything
    is written or subscribed.  The same name in a publish gives 40007. *)
Theorem subscribe_priority_filter_invalid o r v format encoder (w : World C) err :
  subscriptionAllowed o = true ->
  parseQueryFilters r = inl err ->
  let ids := SplitNoEmpty
               (TrimSuffix (substring 1 (String.length (Path r) - 1) (Path r))
                           ("/" +:+ format)) "," in
  let poll := String.eqb (readParam r ["x-poll"; "poll"; "po"]) "1" in
  forall ts w1 since,
    topicsFromIDs ids w = (inr ts, w1) ->
    parseSince (nowSince o) r poll = inr since ->
    err = errInvalidPriority
    /\ handleSubscribe o r v format encoder w = (inl errInvalidPriority, w1)
    /\ handle (handleSubscribe o r v format encoder) w = (Some errHTTPInternalError, w1)
    /\ Code errHTTPInternalError = 50001 /\ HTTPCode errHTTPInternalError = 500
    /\ events w1 = events w.
Proof.
  intros Hallowed Hfilters ids poll ts w1 since Hts Hsince.
  assert (Herr : err = errInvalidPriority).
  { unfold parseQueryFilters in Hfilters.
    destruct (parsePriorities _) as [e|l] eqn:Hp; [|discriminate].
    injection Hfilters as <-. apply (parsePriorities_error _ _ Hp). }
  subst err.
  assert (Hrun : handleSubscribe o r v format encoder w = (inl errInvalidPriority, w1)).
  { unfold handleSubscribe. rewrite Hallowed. cbn [negb].
    unfold mbind at 1, M_bind at 1. fold ids. rewrite Hts.
    unfold mbind at 1, M_bind at 1, liftE at 1. fold poll. rewrite Hsince.
    unfold mbind at 1, M_bind at 1, liftE at 1. rewrite Hfilters. reflexivity. }
  split; [reflexivity|]. split; [exact Hrun|].
  split; [unfold handle; rewrite Hrun; reflexivity|].
  split; [reflexivity|]. split; [reflexivity|].
  pose proof (onlyTopics_loop ids [] w) as [Hev _].
  unfold topicsFromIDs in Hts. rewrite Hts in Hev. exact Hev.
Qed.

End SubscribeFacts.

(** ** Visitors and rate limiting *)

Section VisitorFacts.
Context {C : Type} {cacheC : cache C} {ext : External}.

Lemma Server_visitor_run e r (w : World C) :
  exists v,
    Server_visitor e r w
      = (inr v, mkWorld (setVisitors (srv w) (<[visitorKey e r := v]> (visitors (srv w))))
                        (events w))
    /\ seen v = nowVisitor e
    /\ match visitors (srv w) !! visitorKey e r with
       | Some v0 => v = Keepalive v0 (nowVisitor e)
       | None => v = newVisitor (config (srv w)) (visitorKey e r) (nowVisitor e)
       end.
Proof.
  unfold Server_visitor, mbind, M_bind, getServer. cbn [srv].
  destruct (visitors (srv w) !! visitorKey e r) as [v0|].
  - exists (Keepalive v0 (nowVisitor e)). repeat split.
  - exists (newVisitor (config (srv w)) (visitorKey e r) (nowVisitor e)). repeat split.
Qed.

(** X16.  Every rate-limited request first looks its visitor up, creating it if
    it is new and marking it as seen now; a known visitor keeps its request
    limiter, and no other visitor is touched.  Only then is the limiter
    asked: a refused request is answered 42901 without running the handler,
    and has still refreshed its visitor. *)
Theorem withRateLimit_visitor {A} e r (handler : visitor -> M C A) (w : World C) :
  exists v w1,
    Server_visitor e r w = (inr v, w1)
    /\ withRateLimit e r handler w
       = (if requestAllowed e then handler v w1
          else (inl (errorHTTP errHTTPTooManyRequestsLimitRequests), w1))
    /\ visitors (srv w1) !! visitorKey e r = Some v
    /\ (forall k, k <> visitorKey e r -> visitors (srv w1) !! k = visitors (srv w) !! k)
    /\ seen v = nowVisitor e
    /\ (forall v0, visitors (srv w) !! visitorKey e r = Some v0 ->
          requestLimiter v = requestLimiter v0 /\ ip v = ip v0)
    /\ (visitors (srv w) !! visitorKey e r = None ->
          v = newVisitor (config (srv w)) (visitorKey e r) (nowVisitor e))
    /\ topics (srv w1) = topics (srv w) /\ events w1 = events w.
Proof.
  destruct (Server_visitor_run e r w) as (v & Hrun & Hseen & Hv).
  eexists v, _. split; [exact Hrun|].
  split.
  { unfold withRateLimit, mbind, M_bind. rewrite Hrun.
    destruct (requestAllowed e); reflexivity. }
  cbn [srv events setVisitors visitors topics].
  split; [apply lookup_insert_eq|].
  split; [intros k Hk; apply lookup_insert_ne; congruence|].
  split; [exact Hseen|].
  split.
  { intros v0 Hv0. rewrite Hv0 in Hv. subst v. split; reflexivity. }
  split; [intros Hnone; rewrite Hnone in Hv; exact Hv|].
  split; reflexivity.
Qed.

(** X17.  A visitor that has made a request is still registered after every
    run of the manager that examines it within 24 hours of that request. *)
Theorem visitor_kept_after_request e r nowStale nowExpired nowPrune (w : World C) :
  let key := visitorKey e r in
  let w1 := snd (Server_visitor e r w) in
  match mono (nowStale key), mono (nowVisitor e) with
  | Some a, Some b => a - b
  | _, _ => wall (nowStale key) - wall (nowVisitor e)
  end <= visitorExpungeAfter ->
  exists v,
    visitors (srv (snd (updateStatsAndPrune nowStale nowExpired nowPrune w1))) !! key = Some v
    /\ seen v = nowVisitor e.
Proof.
  intros key w1 Hrecent.
  destruct (Server_visitor_run e r w) as (v & Hrun & Hseen & _).
  exists v. split; [|exact Hseen].
  rewrite updateStatsAndPrune_visitors. apply expireVisitors_lookup.
  unfold w1. rewrite Hrun. cbn [snd srv setVisitors visitors].
  split; [apply lookup_insert_eq|].
  destruct (Stale v (nowStale key)) eqn:Hs; [|reflexivity].
  apply Stale_iff in Hs. unfold inactiveFor in Hs. rewrite Hseen in Hs.
  fold key in Hs. lia.
Qed.

End VisitorFacts.

(** ** The router *)

Lemma handleInternal_other_methods (conf : Config) (r : Request) :
  Method r <> "GET" ->
  In (handleInternal conf r) [toPublish; toOptions; toEmpty; toNotFound].
Proof.
  intros Hget. unfold handleInternal.
  apply String.eqb_neq in Hget. rewrite Hget. cbn [andb].
  repeat case_match; simpl; tauto.
Qed.

(** X18.  Only [GET] reaches the pages, the files and the subscriptions.  [PUT]
    and [POST] publish to a path that is one topic name and are not found
    otherwise, [OPTIONS] is always accepted, [HEAD] is served for the root
    only, and any other method is not found. *)
Theorem handleInternal_methods (conf : Config) (r : Request) :
  (Method r = "PUT" \/ Method r = "POST" ->
     handleInternal conf r = if topicPathRegex (Path r) then toPublish else toNotFound)
  /\ (Method r = "OPTIONS" -> handleInternal conf r = toOptions)
  /\ (Method r = "HEAD" ->
        handleInternal conf r = if String.eqb (Path r) "/" then toEmpty else toNotFound)
  /\ (Method r <> "GET" ->
        In (handleInternal conf r) [toPublish; toOptions; toEmpty; toNotFound])
  /\ (Method r <> "GET" -> Method r <> "PUT" -> Method r <> "POST" ->
      Method r <> "OPTIONS" -> Method r <> "HEAD" ->
        handleInternal conf r = toNotFound).
Proof.
  unfold handleInternal.
  split; [intros [H|H]; rewrite H; cbn; destruct (topicPathRegex (Path r)); reflexivity|].
  split; [intros H; rewrite H; reflexivity|].
  split; [intros H; rewrite H; cbn; destruct (String.eqb (Path r) "/"); reflexivity|].
  split.
  - fold (handleInternal conf r). apply handleInternal_other_methods.
  - intros H1 H2 H3 H4 H5.
    apply String.eqb_neq in H1, H2, H3, H4, H5. rewrite H1, H2, H3, H4, H5. reflexivity.
Qed.

Lemma substring_append_l (a b : string) : substring 0 (String.length a) (a +:+ b) = a.
Proof.
  induction a as [|c a IH]; [apply substring_0_0|].
  change (String c (substring 0 (String.length a) (a +:+ b)) = String c a).
  rewrite IH. reflexivity.
Qed.

Lemma substring_append_r (a b : string) :
  substring (String.length a) (String.length b) (a +:+ b) = b.
Proof. induction a as [|c a IH]; [apply substring_0_length|]. exact IH. Qed.

Lemma TrimSuffix_append (a suffix : string) : TrimSuffix (a +:+ suffix) suffix = a.
Proof.
  unfold TrimSuffix, hasSuffix. cbv zeta. rewrite !length_append.
  replace (String.length a + String.length suffix - String.length suffix)%nat
    with (String.length a) by lia.
  rewrite substring_append_r, String.eqb_refl, substring_append_l.
  replace (String.length suffix <=? String.length a + String.length suffix)%nat with true
    by (symmetry; apply Nat.leb_le; lia).
  reflexivity.
Qed.

Lemma SplitNoEmpty_topics ids :
  forallb topicRegex (Split "," ids) = true -> SplitNoEmpty ids "," = Split "," ids.
Proof.
  unfold SplitNoEmpty. generalize (Split "," ids). intros l.
  induction l as [|x l IH]; simpl; [reflexivity|].
  intros H. apply andb_true_iff in H as [Hx Hl].
  destruct (String.eqb_spec x "") as [->|_]; [discriminate|].
  simpl. rewrite (IH Hl). reflexivity.
Qed.

(** X19.  The topic names a subscribe handler cuts out of the path of a request
    routed to it: one name at least, every one well formed, and the path is
    a slash, the list and the suffix of the format. *)
Theorem subscribe_route_topics (conf : Config) (r : Request) (format : string) :
  handleInternal conf r
    = (if String.eqb format "json" then toSubscribeJSON
       else if String.eqb format "sse" then toSubscribeSSE
       else if String.eqb format "raw" then toSubscribeRaw
       else toSubscribeWS) ->
  In format ["json"; "sse"; "raw"; "ws"] ->
  let topicsStr := TrimSuffix (substring 1 (String.length (Path r) - 1) (Path r))
                              ("/" +:+ format) in
  let ids := SplitNoEmpty topicsStr "," in
  Method r = "GET"
  /\ Path r = "/" +:+ topicsStr +:+ "/" +:+ format
  /\ ids = Split "," topicsStr
  /\ ids <> []
  /\ Forall (fun id => topicRegex id = true) ids.
Proof.
  intros Hroute Hformat topicsStr ids.
  assert (Hget : Method r = "GET").
  { destruct (String.eqb_spec (Method r) "GET") as [|Hne]; [assumption|].
    pose proof (handleInternal_other_methods conf r Hne) as Hin. rewrite Hroute in Hin.
    destruct Hformat as [<-|[<-|[<-|[<-|[]]]]]; simpl in Hin;
      intuition discriminate. }
  assert (Hre : topicsPathRegex ("/" +:+ format) (Path r) = true).
  { revert Hroute. unfold handleInternal.
    unfold jsonPathRegex, ssePathRegex, rawPathRegex, wsPathRegex.
    destruct Hformat as [<-|[<-|[<-|[<-|[]]]]]; cbn [String.eqb Ascii.eqb Bool.eqb];
      repeat (case_match; try discriminate); intros _;
      match goal with H : _ && topicsPathRegex ?s _ = true |- topicsPathRegex ?s _ = true =>
        apply andb_true_iff in H as [_ H]; exact H end. }
  destruct (topicsPath_split _ _ Hre) as (str & Hpath & Hids).
  assert (Hstr : topicsStr = str).
  { unfold topicsStr. rewrite Hpath.
    change (String.length (String "/" (str +:+ "/" +:+ format)) - 1)%nat
      with (String.length (str +:+ "/" +:+ format) - 0)%nat.
    rewrite Nat.sub_0_r.
    change (substring 1 ?n (String "/" ?s)) with (substring 0 n s).
    rewrite substring_0_length. apply TrimSuffix_append. }
  split; [exact Hget|]. rewrite Hstr.
  split; [exact Hpath|].
  unfold ids. rewrite Hstr, (SplitNoEmpty_topics _ Hids).
  split; [reflexivity|]. split; [apply Split_nonempty|].
  rewrite forallb_forall in Hids.
  apply Forall_forall. intros x Hx. apply Hids, list_elem_of_In, Hx.
Qed.

(** ** The registry invariant *)

Section RegistryInvariant.
Context {C : Type} {cacheC : cache C} {ext : External}.

Lemma keepsTopics_keyed {A} (c : M C A) : keepsTopics c -> keepsKeyed c.
Proof. intros H w Hk. rewrite H. exact Hk. Qed.

Lemma keepsKeyed_bind {A B} (c : M C A) (f : A -> M C B) :
  keepsKeyed c -> (forall x, keepsKeyed (f x)) -> keepsKeyed (c ≫= f).
Proof.
  intros Hc Hf w Hk. unfold mbind, M_bind. specialize (Hc w Hk).
  destruct (c w) as [[e|x] w1]; cbn [snd] in *; [exact Hc|]. apply Hf, Hc.
Qed.

Lemma keepsTopics_bind {A B} (c : M C A) (f : A -> M C B) :
  keepsTopics c -> (forall x, keepsTopics (f x)) -> keepsTopics (c ≫= f).
Proof.
  intros Hc Hf w. unfold mbind, M_bind. specialize (Hc w).
  destruct (c w) as [[e|x] w1]; cbn [snd] in *; [exact Hc|]. rewrite Hf. exact Hc.
Qed.

Lemma keepsTopics_readonly {A} (c : M C A) : readonly c -> keepsTopics c.
Proof. intros H w. rewrite H. reflexivity. Qed.

Lemma keepsTopics_ret {A} (x : A) : keepsTopics (C:=C) (mret x).
Proof. intros w. reflexivity. Qed.

Lemma keepsTopics_fail {A} e : keepsTopics (@fail C A e).
Proof. intros w. reflexivity. Qed.

Lemma keepsTopics_liftE {A} (x : error + A) : keepsTopics (C:=C) (liftE x).
Proof. intros w. reflexivity. Qed.

Lemma keepsTopics_getServer : keepsTopics (C:=C) getServer.
Proof. intros w. reflexivity. Qed.

Lemma keepsTopics_emit ev : keepsTopics (C:=C) (emit ev).
Proof. intros w. reflexivity. Qed.

Lemma keepsTopics_when b (c : M C unit) : keepsTopics c -> keepsTopics (when b c).
Proof. intros H. destruct b; [exact H|apply keepsTopics_ret]. Qed.

Lemma keepsTopics_forEach {A} (l : list A) (f : A -> M C unit) :
  (forall x, keepsTopics (f x)) -> keepsTopics (forEach l f).
Proof.
  intros Hf. induction l as [|x l IH]; [apply keepsTopics_ret|].
  cbn [forEach]. apply keepsTopics_bind; [apply Hf|]. intros _. exact IH.
Qed.

Lemma keepsKeyed_finally {A} (body : M C A) (cleanup : M C unit) :
  keepsKeyed body -> keepsKeyed cleanup -> keepsKeyed (finally body cleanup).
Proof.
  intros Hb Hc w Hk. unfold finally. specialize (Hb w Hk).
  destruct (body w) as [r w1]. cbn [snd] in *. apply Hc, Hb.
Qed.

Lemma registryKeyed_insert ts id t :
  registryKeyed ts -> topicID t = id -> registryKeyed (<[id := t]> ts).
Proof.
  intros Hk Ht k t' Hl. destruct (decide (id = k)) as [->|Hne].
  - rewrite lookup_insert_eq in Hl. congruence.
  - rewrite lookup_insert_ne in Hl by exact Hne. apply Hk, Hl.
Qed.

Lemma registryKeyed_delete ts id : registryKeyed ts -> registryKeyed (delete id ts).
Proof.
  intros Hk k t Hl. apply lookup_delete_Some in Hl as [_ Hl]. apply Hk, Hl.
Qed.

Lemma keepsKeyed_topicsFromIDs_loop ids acc : keepsKeyed (C:=C) (topicsFromIDs_loop ids acc).
Proof.
  revert acc. induction ids as [|id rest IH]; intros acc w Hk; [exact Hk|].
  rewrite topicsFromIDs_loop_step.
  destruct (InStringList disallowedTopics id); [exact Hk|].
  destruct (topics (srv w) !! id); [apply IH, Hk|].
  destruct (_ >=? _); [exact Hk|].
  apply IH. cbn [srv setTopics topics]. apply registryKeyed_insert; [exact Hk|reflexivity].
Qed.

Lemma keepsKeyed_topicFromPath path : keepsKeyed (C:=C) (topicFromPath path).
Proof.
  unfold topicFromPath. destruct (Split "/" path) as [|p0 [|id l]];
    try (intros w Hk; exact Hk).
  apply keepsKeyed_bind; [apply keepsKeyed_topicsFromIDs_loop|].
  intros [|t ts] w Hk; exact Hk.
Qed.

Lemma keepsTopics_Publish t m : keepsTopics (C:=C) (Publish t m).
Proof. intros w. reflexivity. Qed.

Lemma keepsTopics_handlePublish_rest o r v (t : topic) :
  keepsTopics (C:=C)
    (s ← getServer;
     body ← liftE (Peak (Body r) (MessageLimit (config s)));
     let m := newDefaultMessage (topicID t) "" (newID o) (nowMessage o) in
     '(cache, firebase, email, m) ← parsePublishParams o r v m;
     m ← handlePublishBody o r v m body;
     let m := if String.eqb (Message m) "" then setMessage m emptyMessageBody else m in
     let delayed := Time_ m >? Unix (nowDelayed o) in
     when (negb delayed)
       (err ← Publish t m;
        match err with Some e => fail e | None => mret tt end);;
     when (is_Some_b (server.firebase s) && firebase && negb delayed)
       (emit (EvGoFirebase m));;
     when (is_Some_b (mailer_ s) && nonEmpty email && negb delayed)
       (emit (EvGoMail (ip v) email m));;
     when cache
       (s ← getServer;
        c ← liftE (AddMessage (cache_ s) (nowAddMessage o) m);
        putServer (setCache s c));;
     emit (EvResponse m);;
     match responseError o with
     | Some e => fail e
     | None =>
         s ← getServer;
         putServer (setMessages s (messages s + 1));;
         mret m
     end).
Proof.
  apply keepsTopics_bind; [apply keepsTopics_getServer|]. intros s.
  apply keepsTopics_bind; [apply keepsTopics_liftE|]. intros body.
  cbv zeta.
  apply keepsTopics_bind;
    [apply keepsTopics_readonly, readonly_parsePublishParams|].
  intros [[[cache push] email] m1].
  apply keepsTopics_bind;
    [apply keepsTopics_readonly, readonly_handlePublishBody|].
  intros m2.
  apply keepsTopics_bind.
  { apply keepsTopics_when. apply keepsTopics_bind; [apply keepsTopics_Publish|].
    intros [e|]; [apply keepsTopics_fail|apply keepsTopics_ret]. }
  intros _. apply keepsTopics_bind; [apply keepsTopics_when, keepsTopics_emit|].
  intros _. apply keepsTopics_bind; [apply keepsTopics_when, keepsTopics_emit|].
  intros _. apply keepsTopics_bind.
  { apply keepsTopics_when. intros w. munfold. cbn [srv].
    destruct (AddMessage _ _ _); reflexivity. }
  intros _. apply keepsTopics_bind; [apply keepsTopics_emit|].
  intros _. destruct (responseError o); [apply keepsTopics_fail|].
  intros w. reflexivity.
Qed.

Lemma keepsKeyed_handlePublish o r v : keepsKeyed (C:=C) (handlePublish o r v).
Proof.
  unfold handlePublish. apply keepsKeyed_bind; [apply keepsKeyed_topicFromPath|].
  intros t. apply keepsTopics_keyed, keepsTopics_handlePublish_rest.
Qed.

Lemma keepsKeyed_topicSubscribe o id : keepsKeyed (C:=C) (topicSubscribe o id).
Proof.
  intros w Hk. unfold topicSubscribe. munfold. cbn [srv snd setTopics topics].
  apply registryKeyed_insert; [exact Hk|]. cbn [topicID].
  destruct (topics (srv w) !! id) as [t|] eqn:Hl; cbn [default]; [apply Hk, Hl|reflexivity].
Qed.

Lemma keepsKeyed_topicUnsubscribe id subscriberID :
  keepsKeyed (C:=C) (topicUnsubscribe id subscriberID).
Proof.
  intros w Hk. unfold topicUnsubscribe. munfold. cbn [srv snd setTopics topics].
  intros k t Hl. apply lookup_alter_Some in Hl as [(-> & t0 & Hl & ->)|[_ Hl]].
  - cbn [Unsubscribe topicID]. apply Hk, Hl.
  - apply Hk, Hl.
Qed.

Lemma keepsKeyed_subscribeAll o ts : keepsKeyed (C:=C) (subscribeAll o ts).
Proof.
  induction ts as [|t ts IH]; [intros w Hk; exact Hk|].
  cbn [subscribeAll]. apply keepsKeyed_bind; [apply keepsKeyed_topicSubscribe|].
  intros id. apply keepsKeyed_bind; [exact IH|]. intros ids w Hk. exact Hk.
Qed.

Lemma keepsKeyed_unsubscribeAll ts ids : keepsKeyed (C:=C) (unsubscribeAll ts ids).
Proof.
  revert ids. induction ts as [|t ts IH]; intros [|id ids]; try (intros w Hk; exact Hk).
  cbn [unsubscribeAll]. apply keepsKeyed_bind; [apply keepsKeyed_topicUnsubscribe|].
  intros _. apply IH.
Qed.

Lemma keepsTopics_sub o encoder filters msg : keepsTopics (C:=C) (sub o encoder filters msg).
Proof.
  unfold sub. destruct filters as [[[mf tf] pf] tags].
  destruct (negb _); [apply keepsTopics_ret|].
  destruct (encoder msg); [apply keepsTopics_fail|].
  intros w. destruct (writeError o (length (events w))); reflexivity.
Qed.

Lemma keepsTopics_sendOldMessages ts since scheduled (f : message -> M C unit) :
  (forall m, keepsTopics (f m)) -> keepsTopics (sendOldMessages ts since scheduled f).
Proof.
  intros Hf. unfold sendOldMessages. destruct (IsNone since); [apply keepsTopics_ret|].
  apply keepsTopics_forEach. intros t.
  apply keepsTopics_bind; [apply keepsTopics_getServer|]. intros s.
  apply keepsTopics_bind; [apply keepsTopics_liftE|]. intros ms.
  apply keepsTopics_forEach, Hf.
Qed.

Lemma keepsTopics_visitorKeepalive v now : keepsTopics (C:=C) (visitorKeepalive v now).
Proof. intros w. reflexivity. Qed.

Lemma keepsKeyed_handleSubscribe o r v format encoder :
  keepsKeyed (C:=C) (handleSubscribe o r v format encoder).
Proof.
  unfold handleSubscribe. destruct (negb (subscriptionAllowed o)); [intros w Hk; exact Hk|].
  cbv zeta. apply keepsKeyed_bind; [apply keepsKeyed_topicsFromIDs_loop|]. intros ts.
  apply keepsKeyed_bind; [apply keepsTopics_keyed, keepsTopics_liftE|]. intros since.
  apply keepsKeyed_bind; [apply keepsTopics_keyed, keepsTopics_liftE|]. intros filters.
  destruct (String.eqb (readParam r ["x-poll"; "poll"; "po"]) "1").
  { apply keepsTopics_keyed, keepsTopics_sendOldMessages. intros m. apply keepsTopics_sub. }
  apply keepsKeyed_bind; [apply keepsKeyed_subscribeAll|]. intros ids.
  apply keepsKeyed_finally; [|apply keepsKeyed_unsubscribeAll].
  apply keepsTopics_keyed.
  apply keepsTopics_bind; [apply keepsTopics_sub|]. intros _.
  apply keepsTopics_bind.
  { apply keepsTopics_sendOldMessages. intros m. apply keepsTopics_sub. }
  intros _. apply keepsTopics_forEach. intros [[nowSeen id] now].
  apply keepsTopics_bind; [apply keepsTopics_visitorKeepalive|]. intros _.
  apply keepsTopics_sub.
Qed.

Lemma keepsTopics_sendDelayedMessage m : keepsTopics (C:=C) (sendDelayedMessage m).
Proof.
  intros w. unfold sendDelayedMessage, Publish. munfold. cbn [srv events].
  destruct (topics (srv w) !! Topic m) as [t|]; [destruct (publishError _ _)|];
    cbn [srv events]; (destruct (firebase (srv w)) as [fb|]; [destruct (fb m)|]);
    cbn [srv events]; destruct (MarkPublished (cache_ (srv w)) m); reflexivity.
Qed.

Lemma keepsTopics_runAtSender now : keepsTopics (C:=C) (runAtSender now).
Proof.
  intros w. unfold runAtSender.
  assert (H : keepsTopics (C:=C) (sendDelayedMessages now)).
  { unfold sendDelayedMessages.
    apply keepsTopics_bind; [apply keepsTopics_getServer|]. intros s.
    apply keepsTopics_bind; [apply keepsTopics_liftE|]. intros ms.
    apply keepsTopics_forEach, keepsTopics_sendDelayedMessage. }
  specialize (H w). destruct (sendDelayedMessages now w) as [[e|[]] w1]; exact H.
Qed.

Lemma keepsKeyed_pruneTopics ts acc : keepsKeyed (C:=C) (pruneTopics ts acc).
Proof.
  revert acc. induction ts as [|[k t] rest IH]; intros acc w Hk; [exact Hk|].
  cbn [pruneTopics]. unfold mbind at 1, M_bind at 1, getServer at 1. cbn [srv].
  destruct (MessageCount (cache_ (srv w)) (topicID t)) as [err|msgs].
  - unfold mbind, M_bind, emit. cbn [srv events]. apply IH. exact Hk.
  - destruct ((msgs =? 0) && (Subscribers t =? 0)); [|apply IH, Hk].
    unfold mbind, M_bind, putServer. apply IH. cbn [srv setTopics topics].
    apply registryKeyed_delete, Hk.
Qed.

Lemma pruneTopics_step k t rest acc (w : World C) :
  pruneTopics ((k, t) :: rest) acc w =
  match MessageCount (cache_ (srv w)) (topicID t) with
  | inl err =>
      pruneTopics rest acc
        (mkWorld (srv w) (events w ++ [EvLog "cannot get stats for topic" err]))
  | inr msgs =>
      if (msgs =? 0) && (Subscribers t =? 0)
      then pruneTopics rest acc
             (mkWorld (setTopics (srv w) (delete (topicID t) (topics (srv w)))) (events w))
      else pruneTopics rest (acc.1 + Subscribers t, acc.2 + msgs) w
  end.
Proof.
  cbn [pruneTopics]. unfold mbind at 1, M_bind at 1, getServer at 1. cbn [srv].
  destruct (MessageCount (cache_ (srv w)) (topicID t)) as [err|msgs]; [reflexivity|].
  destruct ((msgs =? 0) && (Subscribers t =? 0)); reflexivity.
Qed.

Lemma pruneTopics_spec ts acc (w : World C) :
  (forall k t, In (k, t) ts -> topicID t = k) ->
  let w' := snd (pruneTopics ts acc w) in
  cache_ (srv w') = cache_ (srv w)
  /\ forall id,
       topics (srv w') !! id
       = if existsb (fun kt => String.eqb kt.1 id && prunable (cache_ (srv w)) kt.2) ts
         then None else topics (srv w) !! id.
Proof.
  revert acc w. induction ts as [|[k t] rest IH]; intros acc w Hts; cbv zeta.
  - split; reflexivity.
  - assert (Hrest : forall k' t', In (k', t') rest -> topicID t' = k').
    { intros k' t' Hin. apply Hts. right. exact Hin. }
    assert (Hk : topicID t = k) by (apply Hts; left; reflexivity).
    rewrite pruneTopics_step. cbn [existsb fst snd]. unfold prunable at 1.
    destruct (MessageCount (cache_ (srv w)) (topicID t)) as [err|msgs].
    + match goal with |- context [pruneTopics rest acc ?x] =>
        destruct (IH acc x Hrest) as [Hc Ht] end.
      cbn [srv events] in *. split; [exact Hc|].
      intros id. rewrite Ht, andb_false_r. reflexivity.
    + destruct ((msgs =? 0) && (Subscribers t =? 0)).
      * match goal with |- context [pruneTopics rest acc ?x] =>
          destruct (IH acc x Hrest) as [Hc Ht] end.
        cbn [srv events setTopics topics cache_] in *. split; [exact Hc|].
        intros id. rewrite Ht, andb_true_r. rewrite Hk.
        destruct (String.eqb_spec k id) as [->|Hne]; cbn [orb].
        -- rewrite lookup_delete_eq. destruct (existsb _ rest); reflexivity.
        -- rewrite lookup_delete_ne by exact Hne. reflexivity.
      * match goal with |- context [pruneTopics rest ?a w] =>
          destruct (IH a w Hrest) as [Hc Ht] end.
        split; [exact Hc|]. intros id. rewrite Ht, andb_false_r. reflexivity.
Qed.

Lemma prune_topics_block (w : World C) :
  registryKeyed (topics (srv w)) ->
  let w' := snd
    ((s ← getServer;
      '(subscribers, messages) ← pruneTopics (map_to_list (topics s)) (0, 0);
      s ← getServer;
      emit (EvStats (server.messages s) messages (Z.of_nat (size (topics s))) subscribers
              (Z.of_nat (size (visitors s))))) w) in
  cache_ (srv w') = cache_ (srv w)
  /\ topics (srv w') = prunedRegistry (cache_ (srv w)) (topics (srv w)).
Proof.
  intros Hk. cbv zeta. unfold mbind, M_bind, getServer, emit. cbn [srv].
  assert (Hts : forall k t, In (k, t) (map_to_list (topics (srv w))) -> topicID t = k).
  { intros k t Hin. apply Hk. apply elem_of_map_to_list, list_elem_of_In, Hin. }
  pose proof (pruneTopics_spec (map_to_list (topics (srv w))) (0, 0) w Hts) as [Hc Ht].
  assert (Hgoal : forall w1, cache_ (srv w1) = cache_ (srv w) ->
            (forall id, topics (srv w1) !! id
               = if existsb (fun kt => String.eqb kt.1 id && prunable (cache_ (srv w)) kt.2)
                      (map_to_list (topics (srv w)))
                 then None else topics (srv w) !! id) ->
            cache_ (srv w1) = cache_ (srv w)
            /\ topics (srv w1) = prunedRegistry (cache_ (srv w)) (topics (srv w))).
  { intros w1 Hc1 Ht1. split; [exact Hc1|]. apply map_eq. intros id. rewrite Ht1.
    unfold prunedRegistry.
    destruct (existsb _ _) eqn:Hex.
    - apply existsb_exists in Hex as [[k t] [Hin Hp]]. cbn [fst snd] in Hp.
      apply andb_true_iff in Hp as [Hkid Hp]. apply String.eqb_eq in Hkid. subst k.
      apply list_elem_of_In, elem_of_map_to_list in Hin.
      symmetry. apply map_lookup_filter_None. right. intros t' Hl. cbn [snd].
      rewrite Hin in Hl. injection Hl as <-. rewrite Hp. discriminate.
    - destruct (topics (srv w) !! id) as [t|] eqn:Hl.
      + symmetry. apply map_lookup_filter_Some. split; [exact Hl|]. cbn [snd].
        destruct (prunable (cache_ (srv w)) t) eqn:Hp; [|reflexivity].
        exfalso. apply (eq_true_false_abs _ eq_refl). rewrite <- Hex. symmetry.
        apply existsb_exists. exists (id, t). split.
        * apply list_elem_of_In, elem_of_map_to_list, Hl.
        * cbn [fst snd]. rewrite String.eqb_refl, Hp. reflexivity.
      + symmetry. apply map_lookup_filter_None. left. exact Hl. }
  destruct (pruneTopics (map_to_list (topics (srv w))) (0, 0) w) as [[e|[a b]] w1];
    cbn [snd srv] in *; apply (Hgoal w1); assumption.
Qed.

Lemma bind_inr {A B} (c : M C A) (f : A -> M C B) (w : World C) x w1 :
  c w = (inr x, w1) -> (c ≫= f) w = f x w1.
Proof. intros H. unfold mbind, M_bind. rewrite H. reflexivity. Qed.

Lemma prune_cache_block (olderThan : Time) (w : World C) :
  registryKeyed (topics (srv w)) ->
  let w' := snd
    ((s ← getServer;
      match Prune (cache_ s) olderThan with
      | inl err => emit (EvLog "error pruning cache" err)
      | inr c => putServer (setCache s c)
      end;;
      s ← getServer;
      '(subscribers, messages) ← pruneTopics (map_to_list (topics s)) (0, 0);
      s ← getServer;
      emit (EvStats (server.messages s) messages (Z.of_nat (size (topics s))) subscribers
              (Z.of_nat (size (visitors s))))) w) in
  cache_ (srv w') = match Prune (cache_ (srv w)) olderThan with
                    | inr c => c
                    | inl _ => cache_ (srv w)
                    end
  /\ topics (srv w') = prunedRegistry (cache_ (srv w')) (topics (srv w)).
Proof.
  intros Hk. cbv zeta.
  rewrite (bind_inr getServer _ w (srv w) w eq_refl).
  destruct (Prune (cache_ (srv w)) olderThan) as [err|c].
  - rewrite (bind_inr (emit _) _ w tt _ eq_refl).
    match goal with |- context [snd (?blk ?x)] =>
      pose proof (prune_topics_block x Hk) as [Hc Ht] end.
    cbn [srv events] in Hc, Ht. rewrite Ht, Hc. split; reflexivity.
  - rewrite (bind_inr (putServer _) _ w tt _ eq_refl).
    match goal with |- context [snd (?blk ?x)] =>
      pose proof (prune_topics_block x Hk) as [Hc Ht] end.
    cbn [srv events setCache cache_ topics] in Hc, Ht. rewrite Ht, Hc. split; reflexivity.
Qed.

Lemma updateStatsAndPrune_lookup nowStale nowExpired nowPrune (w : World C) :
  registryKeyed (topics (srv w)) ->
  let w' := snd (updateStatsAndPrune nowStale nowExpired nowPrune w) in
  cache_ (srv w')
    = match Prune (cache_ (srv w))
              (Add nowPrune (-1 * CacheDuration (config (srv w)))) with
      | inr c => c
      | inl _ => cache_ (srv w)
      end
  /\ forall id,
       topics (srv w') !! id
       = match topics (srv w) !! id with
         | Some t => if prunable (cache_ (srv w')) t then None else Some t
         | None => None
         end.
Proof.
  intros Hk. cbv zeta.
  assert (Hblock : forall w2 : World C,
            topics (srv w2) = topics (srv w) -> cache_ (srv w2) = cache_ (srv w) ->
            cache_ (srv w2) = cache_ (srv w) ->
            let w' := snd
              ((s ← getServer;
                match Prune (cache_ s)
                        (Add nowPrune (-1 * CacheDuration (config (srv w)))) with
                | inl err => emit (EvLog "error pruning cache" err)
                | inr c => putServer (setCache s c)
                end;;
                s ← getServer;
                '(subscribers, messages) ← pruneTopics (map_to_list (topics s)) (0, 0);
                s ← getServer;
                emit (EvStats (server.messages s) messages (Z.of_nat (size (topics s)))
                        subscribers (Z.of_nat (size (visitors s))))) w2) in
            cache_ (srv w')
              = match Prune (cache_ (srv w))
                        (Add nowPrune (-1 * CacheDuration (config (srv w)))) with
                | inr c => c
                | inl _ => cache_ (srv w)
                end
            /\ forall id,
                 topics (srv w') !! id
                 = match topics (srv w) !! id with
                   | Some t => if prunable (cache_ (srv w')) t then None else Some t
                   | None => None
                   end).
  { intros w2 Ht2 Hc2 _. cbv zeta.
    assert (Hk2 : registryKeyed (topics (srv w2))) by (rewrite Ht2; exact Hk).
    pose proof (prune_cache_block (Add nowPrune (-1 * CacheDuration (config (srv w)))) w2 Hk2)
      as [Hc Ht].
    cbv zeta in Hc, Ht. rewrite Hc2 in Hc. split; [exact Hc|].
    intros id. rewrite Ht, Ht2. unfold prunedRegistry.
    destruct (topics (srv w) !! id) as [t|] eqn:Hl.
    - destruct (prunable _ t) eqn:Hp.
      + apply map_lookup_filter_None. right. intros t' Hl'. cbn [snd].
        rewrite Hl in Hl'. injection Hl' as <-. rewrite Hp. discriminate.
      + apply map_lookup_filter_Some. split; [exact Hl|exact Hp].
    - apply map_lookup_filter_None. left. exact Hl. }
  unfold updateStatsAndPrune.
  rewrite (bind_inr getServer _ w (srv w) w eq_refl).
  rewrite (bind_inr (putServer _) _ w tt _ eq_refl).
  destruct (fileCache_ (srv w)) as [fc|].
  - destruct (AttachmentsExpired (cache_ (srv w)) nowExpired) as [err|ids].
    + rewrite (bind_inr (emit _) _ _ tt _ eq_refl). apply Hblock; reflexivity.
    + rewrite (bind_inr (emit _ ;; _) _ _ tt
                 (snd ((emit (EvFileRemove ids);;
                        match Remove fc ids with
                        | Some err => emit (EvLog "error while deleting attachments" err)
                        | None => mret tt
                        end) (mkWorld (setVisitors (srv w)
                                 (expireVisitors nowStale (visitors (srv w)))) (events w)))))
        by (destruct (Remove fc ids); reflexivity).
      destruct (Remove fc ids); apply Hblock; reflexivity.
  - rewrite (bind_inr (mret tt) _ _ tt _ eq_refl). apply Hblock; reflexivity.
Qed.


(** X21.  Publishing, subscribing, the delayed sender and the manager loop all
    keep every topic of the registry filed under its own id. *)
Theorem registry_stays_keyed :
  (forall o r v, keepsKeyed (C:=C) (handlePublish o r v))
  /\ (forall o r v format encoder, keepsKeyed (C:=C) (handleSubscribe o r v format encoder))
  /\ (forall now, keepsKeyed (C:=C) (runAtSender now))
  /\ (forall nowStale nowExpired nowPrune,
        keepsKeyed (C:=C) (updateStatsAndPrune nowStale nowExpired nowPrune))
  /\ (forall e r, keepsKeyed (C:=C) (Server_visitor e r)).
Proof.
  split; [exact keepsKeyed_handlePublish|].
  split; [exact keepsKeyed_handleSubscribe|].
  split; [intros now; apply keepsTopics_keyed, keepsTopics_runAtSender|].
  split.
  - intros nowStale nowExpired nowPrune w Hk id t Hl.
    destruct (updateStatsAndPrune_lookup nowStale nowExpired nowPrune w Hk) as [_ Ht].
    rewrite Ht in Hl. destruct (topics (srv w) !! id) as [t0|] eqn:Hl0; [|discriminate].
    destruct (prunable _ t0); [discriminate|]. injection Hl as <-. apply Hk, Hl0.
  - intros e r w Hk. destruct (Server_visitor_run e r w) as (v & -> & _). exact Hk.
Qed.

End RegistryInvariant.

(** ** Subscribing and unsubscribing *)

Section SubscriberRoundTrip.
Context {C : Type} {cacheC : cache C} {ext : External}.

Lemma unsubscribeAll_topics ts ids (w : World C) :
  topics (srv (snd (unsubscribeAll ts ids w)))
  = unsubscribedRegistry ts ids (topics (srv w)).
Proof.
  revert ids w. induction ts as [|t ts IH]; intros [|sid ids] w; try reflexivity.
  cbn [unsubscribeAll unsubscribedRegistry].
  rewrite (bind_inr (topicUnsubscribe (topicID t) sid) _ w tt
             (mkWorld (setTopics (srv w)
                         (alter (fun t => Unsubscribe t sid) (topicID t) (topics (srv w))))
                      (events w)) eq_refl).
  rewrite IH. reflexivity.
Qed.

Lemma Unsubscribe_comm t x y :
  Unsubscribe (Unsubscribe t x) y = Unsubscribe (Unsubscribe t y) x.
Proof. unfold Unsubscribe. cbn. f_equal. apply delete_delete. Qed.

Lemma alter_Unsubscribe_comm (R : gmap string topic) k k' x y :
  alter (fun t => Unsubscribe t x) k (alter (fun t => Unsubscribe t y) k' R)
  = alter (fun t => Unsubscribe t y) k' (alter (fun t => Unsubscribe t x) k R).
Proof.
  destruct (decide (k = k')) as [->|Hne].
  - rewrite !alter_alter_eq. apply alter_ext. intros t _ . apply Unsubscribe_comm.
  - apply alter_alter_ne. exact Hne.
Qed.

Lemma unsubscribedRegistry_alter ts ids (R : gmap string topic) k x :
  unsubscribedRegistry ts ids (alter (fun t => Unsubscribe t x) k R)
  = alter (fun t => Unsubscribe t x) k (unsubscribedRegistry ts ids R).
Proof.
  revert ids R. induction ts as [|t ts IH]; intros [|sid ids] R; try reflexivity.
  cbn [unsubscribedRegistry]. rewrite alter_Unsubscribe_comm. apply IH.
Qed.

Lemma subscribersOf_alter (R : gmap string topic) k x id :
  subscribersOf (alter (fun t => Unsubscribe t x) k R) id
  = if decide (id = k) then delete x (subscribersOf R k) else subscribersOf R id.
Proof.
  unfold subscribersOf. destruct (decide (id = k)) as [->|Hne].
  - rewrite lookup_alter_eq. destruct (R !! k); [reflexivity|].
    cbn. symmetry. apply delete_empty.
  - rewrite lookup_alter_ne by congruence. reflexivity.
Qed.

Lemma subscribeAll_round_trip o ts (w : World C) :
  freshSubscriberIDs (topics (srv w)) ->
  exists ids w1,
    subscribeAll o ts w = (inr ids, w1)
    /\ events w1 = events w
    /\ forall R2 : gmap string topic,
         (forall id, subscribersOf R2 id = subscribersOf (topics (srv w1)) id) ->
         forall id, subscribersOf (unsubscribedRegistry ts ids R2) id
                    = subscribersOf (topics (srv w)) id.
Proof.
  revert w. induction ts as [|t ts IH]; intros w Hfresh.
  - exists [], w. repeat split. intros R2 H id. apply H.
  - set (k := topicID t).
    set (t0 := default (newTopic k) (topics (srv w) !! k)).
    set (sid := lastSubscriberID t0 + 1).
    set (t1 := mkTopic (topicID t0) (<[sid := conn o]> (subscribers t0)) sid).
    set (w' := mkWorld (setTopics (srv w) (<[k := t1]> (topics (srv w)))) (events w)).
    assert (Hsub : topicSubscribe o k w = (inr sid, w')) by reflexivity.
    assert (Hnew : subscribers t0 !! sid = None).
    { destruct (subscribers t0 !! sid) eqn:E; [|reflexivity]. exfalso.
      unfold t0 in *. destruct (topics (srv w) !! k) as [tk|] eqn:Hl; cbn [default] in *.
      - pose proof (Hfresh k tk sid Hl (ex_intro _ _ E)). unfold sid, id in *. lia.
      - cbn in E. rewrite lookup_empty in E. discriminate. }
    assert (Hfresh' : freshSubscriberIDs (topics (srv w'))).
    { intros id tk x Hl Hx. cbn [w' srv setTopics topics] in Hl.
      destruct (decide (k = id)) as [<-|Hne].
      - rewrite lookup_insert_eq in Hl. injection Hl as <-. cbn [t1 subscribers lastSubscriberID] in *.
        destruct (decide (x = sid)) as [->|Hx']; [lia|].
        rewrite lookup_insert_ne in Hx by congruence.
        unfold t0 in *. destruct (topics (srv w) !! k) as [tk|] eqn:Hl; cbn [default] in *.
        + pose proof (Hfresh k tk x Hl Hx). unfold sid, id in *. lia.
        + cbn in Hx. rewrite lookup_empty in Hx. destruct Hx; discriminate.
      - rewrite lookup_insert_ne in Hl by exact Hne. apply (Hfresh id tk x Hl Hx). }
    destruct (IH w' Hfresh') as (ids & w1 & Hrun & Hev & Hback).
    exists (sid :: ids), w1. split.
    { cbn [subscribeAll]. fold k. rewrite (bind_inr _ _ w sid w' Hsub).
      rewrite (bind_inr _ _ w' ids w1 Hrun). reflexivity. }
    split; [exact Hev|].
    intros R2 HR2 id. cbn [unsubscribedRegistry]. fold k.
    rewrite unsubscribedRegistry_alter, subscribersOf_alter.
    rewrite !(Hback R2 HR2).
    unfold subscribersOf. cbn [w' srv setTopics topics].
    destruct (decide (id = k)) as [->|Hne].
    + rewrite lookup_insert_eq. cbn [t1 subscribers].
      rewrite delete_insert_eq. rewrite delete_id by exact Hnew.
      unfold t0. destruct (topics (srv w) !! k); reflexivity.
    + rewrite lookup_insert_ne by congruence. reflexivity.
Qed.

Lemma topicsFromIDs_loop_subscribers ids acc (w : World C) :
  freshSubscriberIDs (topics (srv w)) ->
  let w1 := snd (topicsFromIDs_loop ids acc w) in
  freshSubscriberIDs (topics (srv w1))
  /\ forall id, subscribersOf (topics (srv w1)) id = subscribersOf (topics (srv w)) id.
Proof.
  intros Hfresh. cbv zeta. split.
  - intros id t k Hl Hk.
    destruct (topicsFromIDs_loop_registry ids acc w id) as [Heq|(_ & Hnew & _)];
      cbv zeta in *.
    + rewrite Heq in Hl. apply (Hfresh id t k Hl Hk).
    + rewrite Hnew in Hl. injection Hl as <-. cbn in Hk.
      rewrite lookup_empty in Hk. destruct Hk; discriminate.
  - intros id. unfold subscribersOf.
    destruct (topicsFromIDs_loop_registry ids acc w id) as [Heq|(Hold & Hnew & _)];
      cbv zeta in *.
    + rewrite Heq. reflexivity.
    + rewrite Hold, Hnew. reflexivity.
Qed.

(** X22.  When a subscribe handler returns, however it ends, every topic has the
    subscribers it had before the request: a poll adds none, and a stream
    removes on its way out exactly the subscribers it added, also when a
    topic is named twice.  Topics created for the request have none.  The
    registry is taken to hand out subscriber ids in increasing order. *)
Theorem handleSubscribe_subscribers o r v format encoder (w : World C) :
  freshSubscriberIDs (topics (srv w)) ->
  forall id,
    subscribersOf (topics (srv (snd (handleSubscribe o r v format encoder w)))) id
    = subscribersOf (topics (srv w)) id.
Proof.
  intros Hfresh id. unfold handleSubscribe.
  destruct (negb (subscriptionAllowed o)); [reflexivity|]. cbv zeta.
  set (ids := SplitNoEmpty _ ",").
  destruct (topicsFromIDs_loop_subscribers ids [] w Hfresh) as [Hfresh1 Hsubs1].
  cbv zeta in Hfresh1, Hsubs1. unfold topicsFromIDs.
  destruct (topicsFromIDs_loop ids [] w) as [[e|ts] w1] eqn:Hts; cbn [snd] in *.
  { unfold mbind, M_bind. rewrite Hts. apply Hsubs1. }
  rewrite (bind_inr _ _ w ts w1 Hts). rewrite <- Hsubs1.
  destruct (parseSince (nowSince o) r _) as [e|since] eqn:Hsince.
  { unfold mbind, M_bind, liftE. reflexivity. }
  rewrite (bind_inr (liftE _) _ w1 since w1 eq_refl).
  destruct (parseQueryFilters r) as [e|filters] eqn:Hf.
  { unfold mbind, M_bind, liftE. reflexivity. }
  rewrite (bind_inr (liftE _) _ w1 filters w1 eq_refl).
  destruct (String.eqb (readParam r ["x-poll"; "poll"; "po"]) "1").
  { rewrite keepsTopics_sendOldMessages; [reflexivity|].
    intros m. apply keepsTopics_sub. }
  destruct (subscribeAll_round_trip o ts w1 Hfresh1) as (sids & w2 & Hrun & _ & Hback).
  rewrite (bind_inr _ _ w1 sids w2 Hrun).
  unfold finally.
  match goal with |- context [let '(r, w') := ?body w2 in _] =>
    assert (Hbody : keepsTopics body) end.
  { apply keepsTopics_bind; [apply keepsTopics_sub|]. intros _.
    apply keepsTopics_bind.
    { apply keepsTopics_sendOldMessages. intros m. apply keepsTopics_sub. }
    intros _. apply keepsTopics_forEach. intros [[nowSeen kid] now].
    apply keepsTopics_bind; [apply keepsTopics_visitorKeepalive|]. intros _.
    apply keepsTopics_sub. }
  specialize (Hbody w2).
  match goal with |- context [let '(r, w') := ?body w2 in _] =>
    destruct (body w2) as [res w3] end.
  cbn [snd] in *. rewrite unsubscribeAll_topics.
  apply Hback. intros k. rewrite Hbody. reflexivity.
Qed.

End SubscriberRoundTrip.

(** ** Rate-limited routes *)

Section RateLimitedRoutes.
Context {C : Type} {cacheC : cache C} {ext : External}.

(** X23.  The publish handler and the subscribe handlers run behind the request
    limiter: a visitor that is over its limit gets 42901 (status 429) on
    each of these routes, and nothing is resolved, published, cached or
    written; only the visitor is refreshed. *)
Theorem rate_limited_routes e po so r (rt : route) (h : M C unit) (w : World C) :
  requestAllowed e = false ->
  In rt [toPublish; toSubscribeJSON; toSubscribeSSE; toSubscribeRaw] ->
  routed e po so r rt = Some h ->
  exists w1,
    handle h w = (Some errHTTPTooManyRequestsLimitRequests, w1)
    /\ Code errHTTPTooManyRequestsLimitRequests = 42901
    /\ HTTPCode errHTTPTooManyRequestsLimitRequests = 429
    /\ w1 = snd (Server_visitor e r w)
    /\ topics (srv w1) = topics (srv w)
    /\ cache_ (srv w1) = cache_ (srv w)
    /\ messages (srv w1) = messages (srv w)
    /\ events w1 = events w.
Proof.
  intros Hlimit Hrt Hh.
  assert (Hshape : exists A (handler : visitor -> M C A),
            forall w, handle h w = handle (withRateLimit e r handler) w).
  { destruct Hrt as [<-|[<-|[<-|[<-|[]]]]]; injection Hh as <-; eauto. }
  destruct Hshape as (A & handler & Heq). rewrite Heq.
  destruct (Server_visitor_run e r w) as (v & Hrun & _).
  eexists. unfold handle, withRateLimit, mbind, M_bind. rewrite Hrun, Hlimit.
  cbn [negb snd srv events setVisitors topics cache_ messages].
  repeat split.
Qed.

End RateLimitedRoutes.

(** ** Tags: publishing against filtering *)

Section TagFilter.
Context {C : Type} {cacheC : cache C} {ext : External}.

(** X24.  The tags of a message are trimmed one by one when it is
    published, the items of a tag filter are not (only the parameter as a
    whole is): the filter is the list of the non-empty items as they stand.
    So no accepted message passes a tag filter one of whose items begins or
    ends with white space. *)
Theorem tag_filter_untrimmed :
  (forall r mf tf pf tags,
     parseQueryFilters r = inr (mf, tf, pf, tags) ->
     tags = SplitNoEmpty (readParam r ["x-tags"; "tags"; "tag"; "ta"]) ",")
  /\ (forall o r v (w : World C) m w' mf tf pf tags item,
        handlePublish o r v w = (inr m, w') ->
        In item tags -> TrimSpace item <> item ->
        passesQueryFilter m mf tf pf tags = false).
Proof.
  split.
  - intros r mf tf pf tags. unfold parseQueryFilters.
    destruct (parsePriorities _); [discriminate|]. intros [= _ _ _ <-]. reflexivity.
  - intros o r v w m w' mf tf pf tags item Hrun Hin Hitem.
    destruct (passesQueryFilter m mf tf pf tags) eqn:Hpass; [|reflexivity].
    exfalso.
    pose proof (handlePublish_event _ _ _ _ _ _ Hrun) as Hev.
    pose proof (handlePublish_texts _ _ _ _ _ _ Hrun) as (_ & _ & Htags).
    pose proof (passesQueryFilter_tags m mf tf pf tags item Hev Hpass Hin) as Hitem'.
    pose proof (trimmed_items (readParam r ["x-tags"; "tags"; "tag"; "ta"])) as Hclean.
    rewrite <- Htags in Hclean.
    rewrite List.Forall_forall in Hclean. destruct (Hclean item Hitem') as [Htrim _].
    contradiction.
Qed.

End TagFilter.

(** * The further properties at concrete inputs *)

(** One day, one hour, one minute, one second and four tenths. *)
Lemma DurationToHuman_parts_witness :
  0 < 90061400000000
  /\ DurationToHuman 90061400000000
     = unitPart 1 "d" +:+ unitPart 1 "h" +:+ unitPart 1 "m" +:+ unitPart 1 "s".
Proof.
  assert (H : 0 < 90061400000000) by lia.
  split; [exact H|].
  exact (DurationToHuman_parts 90061400000000 H).
Defined.

(** Minus five seconds is rendered as the empty string. *)
Lemma DurationToHuman_blank_witness :
  -5000000000 <> 0 /\ -5000000000 < 500000000 /\ DurationToHuman (-5000000000) = "".
Proof.
  assert (H1 : -5000000000 <> 0) by discriminate.
  assert (H2 : -5000000000 < 500000000) by reflexivity.
  split; [exact H1|]. split; [exact H2|].
  destruct DurationToHuman_blank as (_ & Hsmall & _).
  exact (Hsmall (-5000000000) H1 H2).
Defined.

(** A blank priority header hides [priority=high], and any other query
    string. *)
Lemma readParam_precedence_witness :
  In "x-priority" ["x-priority"; "priority"; "prio"; "p"]
  /\ Header_Get (Header Cases.blankHeader) "x-priority" <> ""
  /\ readParam (withQuery Cases.blankHeader [("priority", "low")])
               ["x-priority"; "priority"; "prio"; "p"]
     = readParam Cases.blankHeader ["x-priority"; "priority"; "prio"; "p"].
Proof.
  assert (H1 : In "x-priority" ["x-priority"; "priority"; "prio"; "p"])
    by (left; reflexivity).
  assert (H2 : Header_Get (Header Cases.blankHeader) "x-priority" <> "") by discriminate.
  split; [exact H1|]. split; [exact H2|].
  destruct (readParam_precedence Cases.blankHeader ["x-priority"; "priority"; "prio"; "p"])
    as (_ & Hq & _).
  exact (Hq "x-priority" [("priority", "low")] H1 H2).
Defined.


(** [GET /mytopic,docs/json] names two well-formed topics. *)
Lemma subscribe_route_topics_witness :
  handleInternal Sample.conf Sample.subscribeMixed = toSubscribeJSON
  /\ In "json" ["json"; "sse"; "raw"; "ws"]
  /\ Path Sample.subscribeMixed = "/" +:+ "mytopic,docs" +:+ "/" +:+ "json"
  /\ SplitNoEmpty "mytopic,docs" "," <> [].
Proof.
  assert (H1 : handleInternal Sample.conf Sample.subscribeMixed = toSubscribeJSON)
    by reflexivity.
  assert (H2 : In "json" ["json"; "sse"; "raw"; "ws"]) by (left; reflexivity).
  split; [exact H1|]. split; [exact H2|].
  destruct (subscribe_route_topics Sample.conf Sample.subscribeMixed "json" H1 H2)
    as (_ & Hpath & _ & Hne & _).
  split; [exact Hpath|exact Hne].
Defined.

(** [POST /alerts] with tags and a title. *)
Lemma handlePublish_message_witness :
  handlePublish (ext := Sample.ext) Sample.env Cases.putTagged Sample.visitor
    Sample.alertsWorld = (inr Cases.taggedMessage, Cases.taggedWorld)
  /\ ID Cases.taggedMessage = newID Sample.env
  /\ Message Cases.taggedMessage <> ""
  /\ 0 <= Priority Cases.taggedMessage <= 5.
Proof.
  assert (Hrun : handlePublish (ext := Sample.ext) Sample.env Cases.putTagged
                   Sample.visitor Sample.alertsWorld
                 = (inr Cases.taggedMessage, Cases.taggedWorld))
    by (vm_compute; reflexivity).
  split; [exact Hrun|].
  destruct (handlePublish_message (ext := Sample.ext) Sample.env Cases.putTagged
              Sample.visitor Sample.alertsWorld Cases.taggedMessage Cases.taggedWorld Hrun)
    as (Hid & _ & Hmsg & Hprio & _).
  split; [exact Hid|]. split; [exact Hmsg|exact Hprio].
Defined.

(** The tag list [disk, warning ,,x] gives three trimmed tags. *)
Lemma handlePublish_tags_witness :
  handlePublish (ext := Sample.ext) Sample.env Cases.putTagged Sample.visitor
    Sample.alertsWorld = (inr Cases.taggedMessage, Cases.taggedWorld)
  /\ Tags Cases.taggedMessage
     = map TrimSpace
         (SplitNoEmpty (readParam Cases.putTagged ["x-tags"; "tags"; "tag"; "ta"]) ",")
  /\ Title Cases.taggedMessage = readParam Cases.putTagged ["x-title"; "title"; "t"].
Proof.
  assert (Hrun : handlePublish (ext := Sample.ext) Sample.env Cases.putTagged
                   Sample.visitor Sample.alertsWorld
                 = (inr Cases.taggedMessage, Cases.taggedWorld))
    by (vm_compute; reflexivity).
  split; [exact Hrun|].
  destruct (handlePublish_tags (ext := Sample.ext) Sample.env Cases.putTagged
              Sample.visitor Sample.alertsWorld Cases.taggedMessage Cases.taggedWorld Hrun)
    as (Htitle & _ & _ & _ & Htags & _).
  split; [exact Htags|exact Htitle].
Defined.

(** [PUT /alerts?delay=30m] is due half an hour after the clock was read,
    within the bounds of ten seconds and three days. *)
Lemma handlePublish_delay_witness :
  handlePublish (ext := Sample.ext) Sample.env Sample.putDelayed Sample.visitor
    Sample.world = (inr Sample.delayedMessage, Sample.delayedWorld)
  /\ delayParam Sample.putDelayed <> ""
  /\ cacheRequested Sample.putDelayed = true
  /\ emailParam Sample.putDelayed = ""
  /\ exists delay,
       ParseFutureTime (External := Sample.ext) (delayParam Sample.putDelayed)
         (nowDelay Sample.env) = Some delay
       /\ Time_ Sample.delayedMessage = Unix delay.
Proof.
  assert (Hrun : handlePublish (ext := Sample.ext) Sample.env Sample.putDelayed
                   Sample.visitor Sample.world
                 = (inr Sample.delayedMessage, Sample.delayedWorld))
    by (vm_compute; reflexivity).
  assert (Hd : delayParam Sample.putDelayed <> "") by discriminate.
  split; [exact Hrun|]. split; [exact Hd|].
  destruct (handlePublish_delay (ext := Sample.ext) Sample.env Sample.putDelayed
              Sample.visitor Sample.world Sample.delayedMessage Sample.delayedWorld Hrun Hd)
    as (Hc & He & _ & delay & Hp & Ht & _).
  split; [exact Hc|]. split; [exact He|].
  exists delay. split; [exact Hp|exact Ht].
Defined.


(** The message tagged [disk] and [warning] passes the tag filter [disk]
    together with the priority filter 3. *)
Lemma passesQueryFilter_iff_witness :
  Event Sample.tagged = messageEvent
  /\ passesQueryFilter Sample.tagged "" "" [3] ["disk"] = true.
Proof.
  assert (H : Event Sample.tagged = messageEvent) by reflexivity.
  split; [exact H|].
  apply (passesQueryFilter_iff Sample.tagged "" "" [3] ["disk"] H).
  split; [left; reflexivity|]. split; [left; reflexivity|].
  split; [right; left; reflexivity|].
  intros tag [<-|[]]. left; reflexivity.
Defined.

(** [since=30m] read at [Sample.clock 0]. *)
Lemma parseSince_duration_witness :
  sinceParam Cases.subscribeHalfHour <> ""
  /\ sinceParam Cases.subscribeHalfHour <> "all"
  /\ ParseInt (sinceParam Cases.subscribeHalfHour) = None
  /\ ParseDuration (External := Sample.ext) (sinceParam Cases.subscribeHalfHour)
     = Some (30 * 60 * Second)
  /\ mono (Sample.clock 0) = Some 1000
  /\ Second < wall (Sample.clock 0)
  /\ parseSince (ext := Sample.ext) (Sample.clock 0) Cases.subscribeHalfHour false
     = inr (Add (Sample.clock 0) (wrapInt64 (-1 * (30 * 60 * Second))))
  /\ IsAll (Add (Sample.clock 0) (wrapInt64 (-1 * (30 * 60 * Second)))) = false
  /\ IsNone (Add (Sample.clock 0) (wrapInt64 (-1 * (30 * 60 * Second)))) = false.
Proof.
  assert (H1 : sinceParam Cases.subscribeHalfHour <> "") by discriminate.
  assert (H2 : sinceParam Cases.subscribeHalfHour <> "all") by discriminate.
  assert (H3 : ParseInt (sinceParam Cases.subscribeHalfHour) = None) by reflexivity.
  assert (H4 : ParseDuration (External := Sample.ext) (sinceParam Cases.subscribeHalfHour)
               = Some (30 * 60 * Second)) by reflexivity.
  assert (H5 : mono (Sample.clock 0) = Some 1000) by reflexivity.
  assert (H6 : 0 <= 1000 <= maxInt64) by (unfold maxInt64; lia).
  assert (H7 : Second < wall (Sample.clock 0)) by reflexivity.
  do 4 (split; [assumption|]). split; [exact H5|]. split; [exact H7|].
  destruct (parseSince_duration (ext := Sample.ext) (Sample.clock 0)
              Cases.subscribeHalfHour false (30 * 60 * Second) 1000 H1 H2 H3 H4 H5 H6 H7)
    as (Hrun & _ & _ & Hall & Hnone).
  split; [exact Hrun|]. split; [exact Hall|exact Hnone].
Defined.

(** [GET /alerts/json?priority=high,bogus] is answered 50001. *)
Lemma subscribe_priority_filter_invalid_witness :
  subscriptionAllowed Sample.subEnv = true
  /\ parseQueryFilters Cases.subscribeBogus = inl errInvalidPriority
  /\ topicsFromIDs (C := list cacheEntry) ["alerts"] Sample.alertsWorld
     = (inr [newTopic "alerts"], Sample.alertsWorld)
  /\ parseSince (ext := Sample.ext) (nowSince Sample.subEnv) Cases.subscribeBogus false
     = inr sinceNoMessages
  /\ handle (handleSubscribe (ext := Sample.ext) Sample.subEnv Cases.subscribeBogus
               Sample.visitor "json" (encoderJSON (ext := Sample.ext))) Sample.alertsWorld
     = (Some errHTTPInternalError, Sample.alertsWorld).
Proof.
  assert (H1 : subscriptionAllowed Sample.subEnv = true) by reflexivity.
  assert (H2 : parseQueryFilters Cases.subscribeBogus = inl errInvalidPriority)
    by reflexivity.
  assert (H3 : topicsFromIDs (C := list cacheEntry) ["alerts"] Sample.alertsWorld
               = (inr [newTopic "alerts"], Sample.alertsWorld))
    by (vm_compute; reflexivity).
  assert (H4 : parseSince (ext := Sample.ext) (nowSince Sample.subEnv) Cases.subscribeBogus
                 false = inr sinceNoMessages) by reflexivity.
  do 4 (split; [assumption|]).
  destruct (subscribe_priority_filter_invalid (ext := Sample.ext) Sample.subEnv
              Cases.subscribeBogus Sample.visitor "json" (encoderJSON (ext := Sample.ext)) Sample.alertsWorld
              errInvalidPriority H1 H2 [newTopic "alerts"] Sample.alertsWorld
              sinceNoMessages H3 H4)
    as (_ & _ & Hhandle & _).
  exact Hhandle.
Defined.


Lemma alerts_registry_fresh : freshSubscriberIDs (topics (srv Sample.alertsWorld)).
Proof.
  intros id t k Hl Hk. cbn in Hl.
  apply lookup_insert_Some in Hl as [[<- <-]|[_ Hl]].
  - cbn in Hk. rewrite lookup_empty in Hk. destruct Hk; discriminate.
  - rewrite lookup_empty in Hl. discriminate.
Qed.

(** After [GET /alerts/json] has returned, [alerts] has no subscriber
    left. *)
Lemma handleSubscribe_subscribers_witness :
  freshSubscriberIDs (topics (srv Sample.alertsWorld))
  /\ subscribersOf
       (topics (srv (snd (handleSubscribe (ext := Sample.ext) Sample.subEnv
                            Sample.streamOnly Sample.visitor "json" (encoderJSON (ext := Sample.ext))
                            Sample.alertsWorld)))) "alerts"
     = subscribersOf (topics (srv Sample.alertsWorld)) "alerts".
Proof.
  split; [exact alerts_registry_fresh|].
  exact (handleSubscribe_subscribers (ext := Sample.ext) Sample.subEnv Sample.streamOnly
           Sample.visitor "json" (encoderJSON (ext := Sample.ext)) Sample.alertsWorld alerts_registry_fresh
           "alerts").
Defined.

(** A visitor seen at [Sample.clock 0] and examined an hour later stays. *)
Lemma visitor_kept_after_request_witness :
  3600 * Second <= visitorExpungeAfter
  /\ exists v,
       visitors (srv (snd (updateStatsAndPrune Cases.anHourLater
                             (Sample.clock 0) (Sample.clock 0)
                             (snd (Server_visitor Cases.limited Sample.putHello
                                     Sample.world)))))
         !! visitorKey Cases.limited Sample.putHello = Some v
       /\ seen v = nowVisitor Cases.limited.
Proof.
  assert (H : 3600 * Second <= visitorExpungeAfter) by (vm_compute; discriminate).
  split; [exact H|].
  apply (visitor_kept_after_request Cases.limited Sample.putHello
           Cases.anHourLater (Sample.clock 0) (Sample.clock 0) Sample.world).
  vm_compute. discriminate.
Defined.


(** A visitor over its limit gets 42901 for [PUT /alerts]; the topic is
    not created. *)
Lemma rate_limited_routes_witness :
  requestAllowed Cases.limited = false
  /\ exists w1,
       handle (withRateLimit Cases.limited Sample.putHello
                 (fun v => handlePublish (ext := Sample.ext) Sample.env Sample.putHello v;;
                           mret tt)) Sample.world
       = (Some errHTTPTooManyRequestsLimitRequests, w1)
       /\ topics (srv w1) = topics (srv Sample.world).
Proof.
  assert (H : requestAllowed Cases.limited = false) by reflexivity.
  split; [exact H|].
  destruct (rate_limited_routes (ext := Sample.ext) Cases.limited Sample.env Sample.subEnv
              Sample.putHello toPublish _ Sample.world H (or_introl eq_refl) eq_refl)
    as (w1 & Hrun & _ & _ & _ & Ht & _).
  exists w1. split; [exact Hrun|exact Ht].
Defined.

(** The filter [disk, warning] keeps its blank, so the message tagged
    [disk], [warning] and [x] does not pass it. *)
Lemma tag_filter_untrimmed_witness :
  parseQueryFilters (mkRequest "GET" "/alerts/json" [] [("tags", "disk, warning")] "" "")
    = inr ("", "", [], ["disk"; " warning"])
  /\ handlePublish (ext := Sample.ext) Sample.env Cases.putTagged Sample.visitor
       Sample.alertsWorld = (inr Cases.taggedMessage, Cases.taggedWorld)
  /\ In " warning" ["disk"; " warning"]
  /\ TrimSpace " warning" <> " warning"
  /\ passesQueryFilter Cases.taggedMessage "" "" [] ["disk"; " warning"] = false.
Proof.
  assert (H0 : parseQueryFilters
                 (mkRequest "GET" "/alerts/json" [] [("tags", "disk, warning")] "" "")
               = inr ("", "", [], ["disk"; " warning"])) by reflexivity.
  assert (Hrun : handlePublish (ext := Sample.ext) Sample.env Cases.putTagged
                   Sample.visitor Sample.alertsWorld
                 = (inr Cases.taggedMessage, Cases.taggedWorld))
    by (vm_compute; reflexivity).
  assert (Hin : In " warning" ["disk"; " warning"]) by (right; left; reflexivity).
  assert (Hne : TrimSpace " warning" <> " warning") by discriminate.
  do 4 (split; [assumption|]).
  destruct (tag_filter_untrimmed (C := list cacheEntry) (ext := Sample.ext)) as [_ Hno].
  exact (Hno Sample.env Cases.putTagged Sample.visitor Sample.alertsWorld
           Cases.taggedMessage Cases.taggedWorld "" "" [] ["disk"; " warning"] " warning"
           Hrun Hin Hne).
Defined.
